(** * TekkenLite: the simulation core of [tekken_like.py]

    A shallow embedding of the fighter state machine ([Fighter]), the combat
    resolver ([Game.handle_hits]) and the round controller ([Game.update],
    [Game.round_over]) of [src/tekken_like.py], with the properties of the
    specification stated over it.

    Numbers are modelled as the program has them:
    - Python [int]s are [Z]; so are the fields of a [pygame.Rect], which
      stay far inside the range of the C [int] that holds them;
    - Python [float]s and the coordinates of a [pygame.Vector2] are IEEE 754
      binary64 values, taken from [SpecFloat] (precision 53, [emax] 1024,
      rounding to nearest even), so that friction, gravity, the truncation
      [int(...)] and the chip damage [int(dmg * 0.2)] compute as in CPython;
    - [hp] only ever holds integral values (100.0 at creation, then minus an
      integer damage, clamped with integer bounds; an [int] after a clamp at
      a bound and after a round reset), so it is kept in [Z]: the program's
      arithmetic on it is exact as long as the values stay below 2^53 in
      magnitude, as they do for the health of the fighters the program
      creates (0 to 100) and any damage below 2^53. *)

From Stdlib Require Import ZArith Bool List Lia.
From Stdlib Require Import Floats.SpecFloat.
From Stdlib Require String.
Import String.StringSyntax.
Import ListNotations.

Delimit Scope string_scope with string.
Local Open Scope Z_scope.

(** ** Binary64 arithmetic *)

Module F64.

Definition float := spec_float.

Definition prec : Z := 53.
Definition emax : Z := 1024.

(** An integer as a float ([float(n)]), rounded to nearest even. *)
Definition of_Z (n : Z) : float := binary_normalize prec emax n 0 false.

Definition add : float -> float -> float := SFadd prec emax.
Definition sub : float -> float -> float := SFsub prec emax.
Definition mul : float -> float -> float := SFmul prec emax.
Definition div : float -> float -> float := SFdiv prec emax.
Definition opp : float -> float := SFopp.
Definition abs : float -> float := SFabs.
Definition ltb : float -> float -> bool := SFltb.
Definition leb : float -> float -> bool := SFleb.

(** The decimal literal [n/d] of the source: the double nearest to it. *)
Definition lit (n d : Z) : float := div (of_Z n) (of_Z d).

Definition zero : float := S754_zero false.

Definition is_finite (x : float) : bool :=
  match x with
  | S754_zero _ | S754_finite _ _ _ => true
  | _ => false
  end.

(** [int(x)]: truncation toward zero; CPython raises [ValueError] on a NaN
    and [OverflowError] on an infinity, modelled by [None]. *)
Definition to_int (x : float) : option Z :=
  match x with
  | S754_zero _ => Some 0
  | S754_finite s m e =>
      let a := match e with
               | Zneg p => Z.shiftr (Zpos m) (Zpos p)
               | _ => Z.shiftl (Zpos m) e
               end in
      Some (if s then - a else a)
  | _ => None
  end.

End F64.

(** ** Configuration constants *)

Definition WIDTH : Z := 1000.
Definition HEIGHT : Z := 560.
Definition GROUND_Y : Z := HEIGHT - 90.

Definition GRAVITY : F64.float := F64.lit 85 100.
Definition FRICTION : F64.float := F64.lit 85 100.
Definition MOVE_SPEED : F64.float := F64.of_Z 6.
Definition JUMP_SPEED : F64.float := F64.opp (F64.lit 165 10).
Definition MAX_FALL : Z := 18.

Definition PUSHBACK : Z := 7.
Definition BLOCK_PUSHBACK : Z := 4.
Definition HITSTOP : Z := 4.

Definition PUNCH_RANGE : Z * Z := (45, 16).
Definition KICK_RANGE : Z * Z := (60, 18).
Definition PUNCH_DMG : Z := 8.
Definition KICK_DMG : Z := 12.
Definition BLOCK_CHIP : F64.float := F64.lit 2 10.

Definition ROUND_TIME : Z := 60.
Definition BEST_OF : Z := 3.

(** ** Rectangles ([pygame.Rect]) *)

Record Rect : Type := mkRect { rx : Z; ry : Z; rw : Z; rh : Z }.

Module RectOps.

Definition left (r : Rect) : Z := rx r.
Definition top (r : Rect) : Z := ry r.
Definition right (r : Rect) : Z := rx r + rw r.
Definition bottom (r : Rect) : Z := ry r + rh r.
(* C integer division, which truncates *)
Definition centerx (r : Rect) : Z := rx r + Z.quot (rw r) 2.
Definition centery (r : Rect) : Z := ry r + Z.quot (rh r) 2.

Definition set_x (r : Rect) (v : Z) : Rect := mkRect v (ry r) (rw r) (rh r).
Definition set_y (r : Rect) (v : Z) : Rect := mkRect (rx r) v (rw r) (rh r).
Definition set_left (r : Rect) (v : Z) : Rect := set_x r v.
Definition set_right (r : Rect) (v : Z) : Rect := set_x r (v - rw r).
Definition set_bottom (r : Rect) (v : Z) : Rect := set_y r (v - rh r).
Definition set_topleft (r : Rect) (p : Z * Z) : Rect :=
  mkRect (fst p) (snd p) (rw r) (rh r).
Definition set_topright (r : Rect) (p : Z * Z) : Rect :=
  mkRect (fst p - rw r) (snd p) (rw r) (rh r).

(** [bool(rect)]: a rectangle is true when its width and height are not 0. *)
Definition truthy (r : Rect) : bool :=
  negb (rw r =? 0) && negb (rh r =? 0).

(** [A.colliderect(B)]: rectangles of zero size collide with nothing;
    otherwise the open intervals of both axes must meet. *)
Definition colliderect (a b : Rect) : bool :=
  if (rw a =? 0) || (rh a =? 0) || (rw b =? 0) || (rh b =? 0) then false
  else
    (Z.min (rx a) (rx a + rw a) <? Z.max (rx b) (rx b + rw b))
    && (Z.min (ry a) (ry a + rh a) <? Z.max (ry b) (ry b + rh b))
    && (Z.max (rx a) (rx a + rw a) >? Z.min (rx b) (rx b + rw b))
    && (Z.max (ry a) (ry a + rh a) >? Z.min (ry b) (ry b + rh b)).

(** One axis of [A.clip(B)]: the start and the length of the common
    interval, or [None] when there is none. *)
Definition clip_axis (a wa b wb : Z) : option (Z * Z) :=
  let start :=
    if (a >=? b) && (a <? b + wb) then Some a
    else if (b >=? a) && (b <? a + wa) then Some b
    else None in
  match start with
  | None => None
  | Some s =>
      if (a + wa >? b) && (a + wa <=? b + wb) then Some (s, a + wa - s)
      else if (b + wb >? a) && (b + wb <=? a + wa) then Some (s, b + wb - s)
      else None
  end.

(** [A.clip(B)]: the intersection, or a rectangle of size 0 at [A]'s
    corner when the two do not intersect. *)
Definition clip (a b : Rect) : Rect :=
  match clip_axis (rx a) (rw a) (rx b) (rw b),
        clip_axis (ry a) (rh a) (ry b) (rh b) with
  | Some (x, w), Some (y, h) => mkRect x y w h
  | _, _ => mkRect (rx a) (ry a) 0 0
  end.

End RectOps.

(** ** Scalar helpers *)

Definition clamp (v lo hi : Z) : Z := Z.max lo (Z.min hi v).

(** [clamp] at a float with integer bounds: [min(hi, v)] keeps [hi] unless
    [v < hi], [max(lo, m)] keeps [lo] unless [m > lo]. *)
Definition clamp_float (v : F64.float) (lo hi : Z) : F64.float :=
  let m := if F64.ltb v (F64.of_Z hi) then v else F64.of_Z hi in
  if F64.ltb (F64.of_Z lo) m then m else F64.of_Z lo.

Definition sign (x : Z) : Z := if x <? 0 then -1 else if x >? 0 then 1 else 0.

(** ** Fighter *)

Inductive AttackKind : Type := punch | kick.

Inductive PlayerName : Type := Name_p1 | Name_p2.

Record Fighter : Type := mkFighter {
  w : Z;
  h : Z;
  rect : Rect;
  velocity : F64.float * F64.float;
  on_ground : bool;
  crouching : bool;
  blocking : bool;
  facing : Z;
  name : PlayerName;
  max_hp : Z;
  hp : Z;
  rounds_won : Z;
  attack_cooldown : Z;
  attack_type : option AttackKind;
  attack_timer : Z;
  hitstop : Z;
  hit_this_attack : bool
}.

(** [Fighter.__init__] (the colour is presentation only). *)
Definition new_fighter (x : Z) (facing0 : Z) (nm : PlayerName) : Fighter :=
  {| w := 56; h := 98;
     rect := mkRect x (GROUND_Y - 98) 56 98;
     velocity := (F64.zero, F64.zero);
     on_ground := true; crouching := false; blocking := false;
     facing := facing0; name := nm;
     max_hp := 100; hp := 100; rounds_won := 0;
     attack_cooldown := 0; attack_type := None; attack_timer := 0;
     hitstop := 0; hit_this_attack := false |}.

Definition hurtbox (f : Fighter) : Rect :=
  if crouching f && on_ground f
  then mkRect (rx (rect f)) (RectOps.bottom (rect f) - h f / 2) (w f) (h f / 2)
  else rect f.

(** The startup and active frame counts of a move. *)
Definition attack_frames (k : AttackKind) : Z * Z :=
  match k with
  | punch => (4, 5)
  | kick => (6, 6)
  end.

Definition attack_range (k : AttackKind) : Z * Z :=
  match k with
  | punch => PUNCH_RANGE
  | kick => KICK_RANGE
  end.

Definition attack_box (f : Fighter) : option Rect :=
  match attack_type f with
  | None => None
  | Some k =>
      let '(aw, ah) := attack_range k in
      let '(startup, active) := attack_frames k in
      let x := RectOps.centerx (hurtbox f) + facing f * (w f / 2 - 4) in
      let y := RectOps.centery (hurtbox f) - ah / 2 in
      let hit_rect := mkRect 0 0 aw ah in
      let hit_rect :=
        if facing f >? 0 then RectOps.set_topleft hit_rect (x, y)
        else RectOps.set_topright hit_rect (x, y) in
      if (attack_timer f <? startup) || (attack_timer f >=? startup + active)
      then None
      else Some hit_rect
  end.

(** Field updates of a fighter (the assignments [self.field = v]). *)
Definition set_rect (f : Fighter) (v : Rect) : Fighter :=
  mkFighter (w f) (h f) v (velocity f) (on_ground f) (crouching f)
    (blocking f) (facing f) (name f) (max_hp f) (hp f) (rounds_won f)
    (attack_cooldown f) (attack_type f) (attack_timer f) (hitstop f)
    (hit_this_attack f).
Definition set_velocity (f : Fighter) (v : F64.float * F64.float) : Fighter :=
  mkFighter (w f) (h f) (rect f) v (on_ground f) (crouching f)
    (blocking f) (facing f) (name f) (max_hp f) (hp f) (rounds_won f)
    (attack_cooldown f) (attack_type f) (attack_timer f) (hitstop f)
    (hit_this_attack f).
Definition set_on_ground (f : Fighter) (v : bool) : Fighter :=
  mkFighter (w f) (h f) (rect f) (velocity f) v (crouching f)
    (blocking f) (facing f) (name f) (max_hp f) (hp f) (rounds_won f)
    (attack_cooldown f) (attack_type f) (attack_timer f) (hitstop f)
    (hit_this_attack f).
Definition set_crouching (f : Fighter) (v : bool) : Fighter :=
  mkFighter (w f) (h f) (rect f) (velocity f) (on_ground f) v
    (blocking f) (facing f) (name f) (max_hp f) (hp f) (rounds_won f)
    (attack_cooldown f) (attack_type f) (attack_timer f) (hitstop f)
    (hit_this_attack f).
Definition set_blocking (f : Fighter) (v : bool) : Fighter :=
  mkFighter (w f) (h f) (rect f) (velocity f) (on_ground f) (crouching f)
    v (facing f) (name f) (max_hp f) (hp f) (rounds_won f)
    (attack_cooldown f) (attack_type f) (attack_timer f) (hitstop f)
    (hit_this_attack f).
Definition set_facing (f : Fighter) (v : Z) : Fighter :=
  mkFighter (w f) (h f) (rect f) (velocity f) (on_ground f) (crouching f)
    (blocking f) v (name f) (max_hp f) (hp f) (rounds_won f)
    (attack_cooldown f) (attack_type f) (attack_timer f) (hitstop f)
    (hit_this_attack f).
Definition set_hp (f : Fighter) (v : Z) : Fighter :=
  mkFighter (w f) (h f) (rect f) (velocity f) (on_ground f) (crouching f)
    (blocking f) (facing f) (name f) (max_hp f) v (rounds_won f)
    (attack_cooldown f) (attack_type f) (attack_timer f) (hitstop f)
    (hit_this_attack f).
Definition set_rounds_won (f : Fighter) (v : Z) : Fighter :=
  mkFighter (w f) (h f) (rect f) (velocity f) (on_ground f) (crouching f)
    (blocking f) (facing f) (name f) (max_hp f) (hp f) v
    (attack_cooldown f) (attack_type f) (attack_timer f) (hitstop f)
    (hit_this_attack f).
Definition set_attack_cooldown (f : Fighter) (v : Z) : Fighter :=
  mkFighter (w f) (h f) (rect f) (velocity f) (on_ground f) (crouching f)
    (blocking f) (facing f) (name f) (max_hp f) (hp f) (rounds_won f)
    v (attack_type f) (attack_timer f) (hitstop f)
    (hit_this_attack f).
Definition set_attack_type (f : Fighter) (v : option AttackKind) : Fighter :=
  mkFighter (w f) (h f) (rect f) (velocity f) (on_ground f) (crouching f)
    (blocking f) (facing f) (name f) (max_hp f) (hp f) (rounds_won f)
    (attack_cooldown f) v (attack_timer f) (hitstop f)
    (hit_this_attack f).
Definition set_attack_timer (f : Fighter) (v : Z) : Fighter :=
  mkFighter (w f) (h f) (rect f) (velocity f) (on_ground f) (crouching f)
    (blocking f) (facing f) (name f) (max_hp f) (hp f) (rounds_won f)
    (attack_cooldown f) (attack_type f) v (hitstop f)
    (hit_this_attack f).
Definition set_hitstop (f : Fighter) (v : Z) : Fighter :=
  mkFighter (w f) (h f) (rect f) (velocity f) (on_ground f) (crouching f)
    (blocking f) (facing f) (name f) (max_hp f) (hp f) (rounds_won f)
    (attack_cooldown f) (attack_type f) (attack_timer f) v
    (hit_this_attack f).
Definition set_hit_this_attack (f : Fighter) (v : bool) : Fighter :=
  mkFighter (w f) (h f) (rect f) (velocity f) (on_ground f) (crouching f)
    (blocking f) (facing f) (name f) (max_hp f) (hp f) (rounds_won f)
    (attack_cooldown f) (attack_type f) (attack_timer f) (hitstop f)
    v.

(** A failing step ([int] of a NaN or an infinity, an integer too large for
    a float) aborts the whole tick: the exception leaves [Game.run]. *)
Definition bind {A B : Type} (m : option A) (k : A -> option B) : option B :=
  match m with
  | Some a => k a
  | None => None
  end.

Notation "x <- m ;; k" := (bind m (fun x => k))
  (at level 61, m at next level, right associativity).
Notation "' p <- m ;; k" := (bind m (fun p => k))
  (at level 61, p pattern, m at next level, right associativity).

Definition start_attack (f : Fighter) (kind : AttackKind) : Fighter :=
  if (attack_cooldown f >? 0) || (hitstop f >? 0) then f
  else
    let f := set_attack_type f (Some kind) in
    let f := set_attack_timer f 0 in
    let f := set_attack_cooldown f 0 in
    set_hit_this_attack f false.

Definition apply_gravity (f : Fighter) : Fighter :=
  if negb (on_ground f)
  then set_velocity f
         (fst (velocity f),
          clamp_float (F64.add (snd (velocity f)) GRAVITY) (-999) MAX_FALL)
  else f.

(** *** Input *)

Inductive Key : Type :=
| K_a | K_d | K_w | K_s | K_j | K_k | K_l
| K_LEFT | K_RIGHT | K_UP | K_DOWN | K_KP1 | K_KP2 | K_RSHIFT
| K_1 | K_2 | K_3.

(** The snapshot of [pygame.key.get_pressed()]. *)
Definition Keys : Type := Key -> bool.

Inductive Binding : Type :=
| b_left | b_right | b_up | b_down | b_punch | b_kick | b_block
| b_punch_alt | b_kick_alt | b_block_alt.

(** The table [KEYS]; player 1 has no alternate bindings. *)
Definition KEYS (n : PlayerName) (b : Binding) : option Key :=
  match n, b with
  | Name_p1, b_left => Some K_a
  | Name_p1, b_right => Some K_d
  | Name_p1, b_up => Some K_w
  | Name_p1, b_down => Some K_s
  | Name_p1, b_punch => Some K_j
  | Name_p1, b_kick => Some K_k
  | Name_p1, b_block => Some K_l
  | Name_p1, _ => None
  | Name_p2, b_left => Some K_LEFT
  | Name_p2, b_right => Some K_RIGHT
  | Name_p2, b_up => Some K_UP
  | Name_p2, b_down => Some K_DOWN
  | Name_p2, b_punch => Some K_KP1
  | Name_p2, b_kick => Some K_KP2
  | Name_p2, b_block => Some K_RSHIFT
  | Name_p2, b_punch_alt => Some K_1
  | Name_p2, b_kick_alt => Some K_2
  | Name_p2, b_block_alt => Some K_3
  end.

(** [keys[KEYS[n][b]]] *)
Definition pressed (keys : Keys) (n : PlayerName) (b : Binding) : bool :=
  match KEYS n b with
  | Some k => keys k
  | None => false
  end.

Definition punch_pressed (keys : Keys) (n : PlayerName) : bool :=
  match n with
  | Name_p2 => pressed keys Name_p2 b_punch || pressed keys Name_p2 b_punch_alt
  | Name_p1 => pressed keys Name_p1 b_punch
  end.

Definition kick_pressed (keys : Keys) (n : PlayerName) : bool :=
  match n with
  | Name_p2 => pressed keys Name_p2 b_kick || pressed keys Name_p2 b_kick_alt
  | Name_p1 => pressed keys Name_p1 b_kick
  end.

Definition block_down (keys : Keys) (n : PlayerName) : bool :=
  match n with
  | Name_p2 => pressed keys Name_p2 b_block || pressed keys Name_p2 b_block_alt
  | Name_p1 => pressed keys Name_p1 b_block
  end.

(** *** [Fighter.update], in the order of the source

    The steps are named after the comments of the source; [update] chains
    them.  [self] and [opp] are distinct objects, and the push-apart step
    moves both, so a step returns both. *)

Definition face_opponent (f opp : Fighter) : Fighter :=
  if negb (RectOps.centerx (rect opp) =? RectOps.centerx (rect f))
  then set_facing f
         (if RectOps.centerx (rect opp) >? RectOps.centerx (rect f)
          then 1 else -1)
  else f.

Definition end_frame (k : AttackKind) : Z :=
  match k with
  | punch => 14
  | kick => 18
  end.

Definition basic_movement (keys : Keys) (f : Fighter) : Fighter :=
  let move_left := pressed keys (name f) b_left in
  let move_right := pressed keys (name f) b_right in
  let up := pressed keys (name f) b_up in
  let down := pressed keys (name f) b_down in
  let f := set_blocking f (block_down keys (name f) && on_ground f) in
  let f := set_crouching f (down && on_ground f && negb (blocking f)) in
  let vx := fst (velocity f) in
  let vy := snd (velocity f) in
  let f :=
    if negb (blocking f) then
      if move_left && negb move_right
      then set_velocity f (F64.opp MOVE_SPEED, vy)
      else if move_right && negb move_left
      then set_velocity f (MOVE_SPEED, vy)
      else
        let vx := F64.mul vx FRICTION in
        if F64.ltb (F64.abs vx) (F64.lit 15 100)
        then set_velocity f (F64.of_Z 0, vy)
        else set_velocity f (vx, vy)
    else set_velocity f (F64.mul vx FRICTION, vy) in
  if up && on_ground f && negb (blocking f)
  then
    let f := set_velocity f (fst (velocity f), JUMP_SPEED) in
    let f := set_on_ground f false in
    set_crouching f false
  else f.

Definition attacks (keys : Keys) (f : Fighter) : Fighter :=
  if punch_pressed keys (name f) then start_attack f punch
  else if kick_pressed keys (name f) then start_attack f kick
  else f.

Definition advance_attack_timer (f : Fighter) : Fighter :=
  let f :=
    match attack_type f with
    | Some k =>
        let f := set_attack_timer f (attack_timer f + 1) in
        if attack_timer f >=? end_frame k
        then
          let f := set_attack_type f None in
          let f := set_attack_timer f 0 in
          set_attack_cooldown f 8
        else f
    | None => f
    end in
  if attack_cooldown f >? 0
  then set_attack_cooldown f (attack_cooldown f - 1)
  else f.

Definition move_and_collide (f : Fighter) (bounds : Rect) : option Fighter :=
  x <- F64.to_int (F64.add (F64.of_Z (rx (rect f))) (fst (velocity f))) ;;
  let f := set_rect f (RectOps.set_x (rect f) x) in
  let f := if RectOps.left (rect f) <? RectOps.left bounds
           then set_rect f (RectOps.set_left (rect f) (RectOps.left bounds))
           else f in
  let f := if RectOps.right (rect f) >? RectOps.right bounds
           then set_rect f (RectOps.set_right (rect f) (RectOps.right bounds))
           else f in
  y <- F64.to_int (F64.add (F64.of_Z (ry (rect f))) (snd (velocity f))) ;;
  let f := set_rect f (RectOps.set_y (rect f) y) in
  Some (if RectOps.bottom (rect f) >=? GROUND_Y
        then
          let f := set_rect f (RectOps.set_bottom (rect f) GROUND_Y) in
          let f := set_velocity f (fst (velocity f), F64.of_Z 0) in
          set_on_ground f true
        else f).

Definition push_apart (f opp : Fighter) : Fighter * Fighter :=
  if RectOps.colliderect (rect f) (rect opp) then
    let overlap := RectOps.clip (rect f) (rect opp) in
    if rw overlap <? rh overlap then
      let shift := rw overlap / 2 + 1 in
      if RectOps.centerx (rect f) <? RectOps.centerx (rect opp)
      then (set_rect f (RectOps.set_x (rect f) (rx (rect f) - shift)),
            set_rect opp (RectOps.set_x (rect opp) (rx (rect opp) + shift)))
      else (set_rect f (RectOps.set_x (rect f) (rx (rect f) + shift)),
            set_rect opp (RectOps.set_x (rect opp) (rx (rect opp) - shift)))
    else (f, opp)
  else (f, opp).

Definition update (keys : Keys) (f opp : Fighter) (bounds : Rect)
  : option (Fighter * Fighter) :=
  if hitstop f >? 0 then Some (set_hitstop f (hitstop f - 1), opp)
  else
    let f := face_opponent f opp in
    let f := basic_movement keys f in
    let f := attacks keys f in
    let f := advance_attack_timer f in
    let f := apply_gravity f in
    f <- move_and_collide f bounds ;;
    Some (push_apart f opp).

(** [int(dmg * BLOCK_CHIP)] *)
Definition chip_floor (dmg : Z) : option Z :=
  F64.to_int (F64.mul (F64.of_Z dmg) BLOCK_CHIP).

(** [receive_hit]; [None] is the [OverflowError] of [int(dmg * BLOCK_CHIP)]
    at a damage too large for a float.  The health is taken in [Z] (see the
    header): the result is the program's for damages below 2^53 in
    magnitude; beyond that the program's float subtraction rounds, and from
    2^1024 on it raises on a float health. *)
Definition receive_hit (f : Fighter) (dmg direction : Z) (blocked : bool)
  : option Fighter :=
  '(f, push) <-
    (if blocking f && blocked then
       q <- chip_floor dmg ;;
       let chip := Z.max 1 q in
       Some (set_hp f (hp f - chip), BLOCK_PUSHBACK * direction)
     else Some (set_hp f (hp f - dmg), PUSHBACK * direction)) ;;
  let f := set_hp f (clamp (hp f) 0 (max_hp f)) in
  let f := if on_ground f
           then set_rect f (RectOps.set_x (rect f) (rx (rect f) + push))
           else f in
  Some (set_hitstop f HITSTOP).

(** ** Game *)

Record Game : Type := mkGame {
  p1 : Fighter;
  p2 : Fighter;
  bounds : Rect;
  round_time : F64.float;
  freeze_timer : Z;
  match_end : bool;
  paused : bool
}.

Definition set_p1 (g : Game) (v : Fighter) : Game :=
  mkGame v (p2 g) (bounds g) (round_time g) (freeze_timer g) (match_end g)
    (paused g).
Definition set_p2 (g : Game) (v : Fighter) : Game :=
  mkGame (p1 g) v (bounds g) (round_time g) (freeze_timer g) (match_end g)
    (paused g).
Definition set_round_time (g : Game) (v : F64.float) : Game :=
  mkGame (p1 g) (p2 g) (bounds g) v (freeze_timer g) (match_end g) (paused g).
Definition set_freeze_timer (g : Game) (v : Z) : Game :=
  mkGame (p1 g) (p2 g) (bounds g) (round_time g) v (match_end g) (paused g).
Definition set_match_end (g : Game) (v : bool) : Game :=
  mkGame (p1 g) (p2 g) (bounds g) (round_time g) (freeze_timer g) v (paused g).
Definition set_paused (g : Game) (v : bool) : Game :=
  mkGame (p1 g) (p2 g) (bounds g) (round_time g) (freeze_timer g)
    (match_end g) v.

Definition reset_match (g : Game) : Game :=
  let g := set_p1 g (new_fighter 200 1 Name_p1) in
  let g := set_p2 g (new_fighter (WIDTH - 260) (-1) Name_p2) in
  let g := set_round_time g (F64.of_Z ROUND_TIME) in
  set_freeze_timer g 60.

(** [Game.__init__], with [match_end] as [Game.run] sets it before its loop. *)
Definition new_game : Game :=
  reset_match
    {| p1 := new_fighter 0 0 Name_p1; p2 := new_fighter 0 0 Name_p2;
       bounds := mkRect 40 0 (WIDTH - 80) HEIGHT;
       round_time := F64.zero; freeze_timer := 0;
       match_end := false; paused := false |}.

Definition needed : Z := BEST_OF / 2 + 1.

Definition round_over (g : Game) (winner_name : option PlayerName) : Game :=
  let g :=
    match winner_name with
    | Some Name_p1 => set_p1 g (set_rounds_won (p1 g) (rounds_won (p1 g) + 1))
    | Some Name_p2 => set_p2 g (set_rounds_won (p2 g) (rounds_won (p2 g) + 1))
    | None => g
    end in
  if (rounds_won (p1 g) >=? needed) || (rounds_won (p2 g) >=? needed) then
    let g := set_freeze_timer g 120 in
    let g := set_round_time g (F64.of_Z 0) in
    set_match_end g true
  else
    let g := set_p1 g (set_hp (p1 g) (max_hp (p1 g))) in
    let g := set_p2 g (set_hp (p2 g) (max_hp (p2 g))) in
    let g := set_p1 g (set_rect (p1 g)
               (RectOps.set_topleft (rect (p1 g)) (200, GROUND_Y - h (p1 g)))) in
    let g := set_p2 g (set_rect (p2 g)
               (RectOps.set_topright (rect (p2 g))
                  (WIDTH - 200, GROUND_Y - h (p2 g)))) in
    let g := set_p1 g (set_velocity (p1 g) (F64.of_Z 0, F64.of_Z 0)) in
    let g := set_p2 g (set_velocity (p2 g) (F64.of_Z 0, F64.of_Z 0)) in
    let g := set_p1 g (set_attack_type (p1 g) None) in
    let g := set_p2 g (set_attack_type (p2 g) None) in
    let g := set_freeze_timer g 60 in
    let g := set_round_time g (F64.of_Z ROUND_TIME) in
    set_match_end g false.

(** The test of [handle_hits] for one (attacker, defender) pair: the attack
    box is there, the swing has not hit yet, and the box meets the hurt box. *)
Definition hit_lands (atk dfd : Fighter) : bool :=
  match attack_box atk with
  | Some box =>
      RectOps.truthy box && negb (hit_this_attack atk)
      && RectOps.colliderect box (hurtbox dfd)
  | None => false
  end.

Definition attack_dmg (atk : Fighter) : Z :=
  match attack_type atk with
  | Some punch => PUNCH_DMG
  | _ => KICK_DMG
  end.

(** One iteration of the loop of [handle_hits]. *)
Definition resolve_hit (atk dfd : Fighter) : option (Fighter * Fighter) :=
  if hit_lands atk dfd then
    let blocked := blocking dfd in
    let dmg := attack_dmg atk in
    dfd <- receive_hit dfd dmg (sign (facing atk)) blocked ;;
    let atk := set_hit_this_attack atk true in
    let atk := set_hitstop atk HITSTOP in
    Some (atk, dfd)
  else Some (atk, dfd).

Definition handle_hits (g : Game) : option Game :=
  '(a, d) <- resolve_hit (p1 g) (p2 g) ;;
  let g := set_p2 (set_p1 g a) d in
  '(a, d) <- resolve_hit (p2 g) (p1 g) ;;
  Some (set_p1 (set_p2 g a) d).

(** The two [update] calls of a tick: player 1 first, then player 2 on what
    player 1 left. *)
Definition update_fighters (keys : Keys) (g : Game) : option Game :=
  '(a, b) <- update keys (p1 g) (p2 g) (bounds g) ;;
  let g := set_p2 (set_p1 g a) b in
  '(b, a) <- update keys (p2 g) (p1 g) (bounds g) ;;
  Some (set_p1 (set_p2 g b) a).

(** The round clock: [round_time -= dt], then the decision by remaining
    health when it has run out. *)
Definition timer_check (dt : F64.float) (g : Game) : Game :=
  let g := set_round_time g (F64.sub (round_time g) dt) in
  if F64.leb (round_time g) (F64.of_Z 0) then
    if hp (p1 g) >? hp (p2 g) then round_over g (Some Name_p1)
    else if hp (p2 g) >? hp (p1 g) then round_over g (Some Name_p2)
    else round_over g None
  else g.

Definition ko_check (g : Game) : Game :=
  if hp (p1 g) <=? 0 then round_over g (Some Name_p2)
  else if hp (p2 g) <=? 0 then round_over g (Some Name_p1)
  else g.

Definition in_combat (g : Game) : bool :=
  negb (paused g) && (freeze_timer g <=? 0)
  && F64.ltb (F64.of_Z 0) (round_time g).

(** [Game.update(dt)]; [keys] is what [pygame.key.get_pressed()] returns. *)
Definition game_update (keys : Keys) (dt : F64.float) (g : Game) : option Game :=
  if in_combat g then
    g <- update_fighters keys g ;;
    g <- handle_hits g ;;
    let g := timer_check dt g in
    Some (ko_check g)
  else
    Some (if freeze_timer g >? 0
          then set_freeze_timer g (freeze_timer g - 1)
          else g).

(** ** Predicates, traces and scenarios of the properties *)

(** The active window of a move: the ticks at which it has a hit box. *)
Definition in_active_window (k : AttackKind) (t : Z) : Prop :=
  match k with
  | punch => 4 <= t < 9
  | kick => 6 <= t < 12
  end.

(** What no operation of a round changes in a fighter: its size, its name
    and its [max_hp]. *)
Definition same_body (f f' : Fighter) : Prop :=
  w f' = w f /\ h f' = h f
  /\ rw (rect f') = rw (rect f) /\ rh (rect f') = rh (rect f)
  /\ name f' = name f /\ max_hp f' = max_hp f.

(** The attack state of a fighter. *)
Definition attack_state (f : Fighter)
  : option AttackKind * Z * Z * Z * bool :=
  (attack_type f, attack_timer f, attack_cooldown f, hitstop f,
   hit_this_attack f).

(** The part of a fighter that only a hit or a round resolution changes. *)
Definition score (f : Fighter) : Z * Z := (hp f, rounds_won f).

(** The binary64 product [dmg * 0.2] truncates to the exact fifth of [dmg]
    on the damages checked here, one by one. *)
Fixpoint chip_floor_exact_from (n : nat) (d : Z) : bool :=
  match n with
  | O => true
  | S n' =>
      match chip_floor d with
      | Some q => q =? d / 5
      | None => false
      end && chip_floor_exact_from n' (d + 1)
  end.

(** [k] right shifts of a binary64 mantissa, as [shr] of [SpecFloat] makes
    them: the quotient, the last bit shifted out, and whether a bit shifted
    out before it was set. *)
Definition shr_steps (m : Z) (k : nat) : shr_record :=
  match k with
  | O => Build_shr_record m false false
  | S k' =>
      Build_shr_record (m / 2 ^ Z.of_nat k)
        (Z.odd (m / 2 ^ Z.of_nat k'))
        (negb (m mod 2 ^ Z.of_nat k' =? 0))
  end.

(** The mantissa after [k] right shifts and rounding to nearest even. *)
Definition round_steps (m : Z) (k : nat) : Z :=
  round_nearest_even (shr_m (shr_steps m k))
    (loc_of_shr_record (shr_steps m k)).

(** A blocking fighter with a health of 2 * 10^15 out of 2 * 10^15, on which
    the clamp does not hide what a large hit takes. *)
Definition sturdy_blocker : Fighter :=
  let f := set_blocking (new_fighter 200 1 Name_p1) true in
  mkFighter (w f) (h f) (rect f) (velocity f) (on_ground f) (crouching f)
    (blocking f) (facing f) (name f) 2000000000000000 2000000000000000
    (rounds_won f) (attack_cooldown f) (attack_type f) (attack_timer f)
    (hitstop f) (hit_this_attack f).

(** The fighters after each call of a sequence of [receive_hit] calls
    [(dmg, direction, blocked)]. *)
Fixpoint receive_hits (f : Fighter) (hits : list (Z * Z * bool))
  : option (list Fighter) :=
  match hits with
  | [] => Some []
  | (dmg, direction, blocked) :: tl =>
      f' <- receive_hit f dmg direction blocked ;;
      fs <- receive_hits f' tl ;;
      Some (f' :: fs)
  end.

(** A press of punch or kick, as [Fighter.update] reads it for a fighter. *)
Definition attack_intent (keys : Keys) (n : PlayerName) : bool :=
  punch_pressed keys n || kick_pressed keys n.

(** Successive [update] calls of one fighter; each tick brings its key
    snapshot and the opponent of that moment. *)
Fixpoint update_ticks (b : Rect) (inputs : list (Keys * Fighter)) (f : Fighter)
  : option Fighter :=
  match inputs with
  | [] => Some f
  | (keys, opp) :: tl =>
      '(f', _) <- update keys f opp b ;;
      update_ticks b tl f'
  end.

(** Successive [Game.update] calls, each with its key snapshot and its [dt]. *)
Fixpoint run_ticks (inputs : list (Keys * F64.float)) (g : Game) : option Game :=
  match inputs with
  | [] => Some g
  | (keys, dt) :: tl =>
      g' <- game_update keys dt g ;;
      run_ticks tl g'
  end.

(** Key snapshots and frame times of the scenarios below. *)
Definition no_keys : Keys := fun _ => false.

Definition hold (ks : list Key) : Keys :=
  fun k =>
    existsb (fun k' =>
      match k, k' with
      | K_a, K_a | K_d, K_d | K_w, K_w | K_s, K_s | K_j, K_j | K_k, K_k
      | K_l, K_l | K_LEFT, K_LEFT | K_RIGHT, K_RIGHT | K_UP, K_UP
      | K_DOWN, K_DOWN | K_KP1, K_KP1 | K_KP2, K_KP2 | K_RSHIFT, K_RSHIFT
      | K_1, K_1 | K_2, K_2 | K_3, K_3 => true
      | _, _ => false
      end) ks.

(** 16 ms, the frame time at 60 frames per second: [clock.tick(60) / 1000.0]. *)
Definition dt_frame : F64.float := F64.lit 16 1000.

(** [n] ticks with the same keys held. *)
Definition ticks (n : nat) (keys : Keys) : list (Keys * F64.float) :=
  repeat (keys, dt_frame) n.

(** The "Ready... Fight!" hold of a new match: 60 frozen ticks. *)
Definition intro_hold : list (Keys * F64.float) := ticks 60 no_keys.

(** Scenario: after the intro hold, player 1 presses punch for one tick and
    lets three ticks pass. *)
Definition punch_then_wait : list (Keys * F64.float) :=
  intro_hold ++ ticks 1 (hold [K_j]) ++ ticks 3 no_keys.

(** Scenario: after the intro hold, both players walk to the right for 109
    ticks; player 2 reaches the right wall, player 1 catches up. *)
Definition both_walk_right : list (Keys * F64.float) :=
  intro_hold ++ ticks 109 (hold [K_d; K_RIGHT]).

(** Scenario: after the intro hold, player 1 walks right for 50 ticks and
    then jumps forward, coming down on player 2 after 31 ticks in the air. *)
Definition jump_onto_opponent : list (Keys * F64.float) :=
  intro_hold ++ ticks 50 (hold [K_d]) ++ ticks 31 (hold [K_d; K_w]).

(** The two bodies have the size every fighter is created with and keeps:
    the same positive width, positive heights. *)
Definition bodies_ok (f opp : Fighter) : Prop :=
  0 < rw (rect f) /\ 0 < rh (rect f) /\ 0 < rh (rect opp)
  /\ rw (rect opp) = rw (rect f).

(** The rectangles are apart, or what they share is at least as wide as it
    is tall (the case the push-apart step leaves alone). *)
Definition apart_or_stacked (a b : Rect) : Prop :=
  RectOps.colliderect a b = false
  \/ rh (RectOps.clip a b) <= rw (RectOps.clip a b).

(** [update] reaches [start_attack] with a press and [start_attack] passes
    its guard: a new attack instance begins this tick. *)
Definition starts_attack (keys : Keys) (f : Fighter) : bool :=
  negb (hitstop f >? 0)
  && attack_intent keys (name f)
  && negb ((attack_cooldown f >? 0) || (hitstop f >? 0)).

(** What happens in a tick: which player starts an attack, and for which
    attacker [handle_hits] calls the defender's [receive_hit]. *)
Record Events : Type := mkEvents {
  start_p1 : bool;
  start_p2 : bool;
  hit_p1 : bool;
  hit_p2 : bool
}.

Definition tick_events (keys : Keys) (g : Game) : option Events :=
  if in_combat g then
    g1 <- update_fighters keys g ;;
    '(a, d) <- resolve_hit (p1 g1) (p2 g1) ;;
    Some {| start_p1 := starts_attack keys (p1 g);
            start_p2 := starts_attack keys (p2 g);
            hit_p1 := hit_lands (p1 g1) (p2 g1);
            hit_p2 := hit_lands d a |}
  else Some (mkEvents false false false false).

(** [run_ticks], with the events of each tick. *)
Fixpoint run_events (inputs : list (Keys * F64.float)) (g : Game)
  : option (Game * list Events) :=
  match inputs with
  | [] => Some (g, [])
  | (keys, dt) :: tl =>
      e <- tick_events keys g ;;
      g' <- game_update keys dt g ;;
      '(g'', es) <- run_events tl g' ;;
      Some (g'', e :: es)
  end.

Definition count (p : Events -> bool) (es : list Events) : Z :=
  Z.of_nat (length (filter p es)).

(** The hits the current swing of a fighter may still register: one, or
    none once [hit_this_attack] is set. *)
Definition pending (f : Fighter) : Z := if hit_this_attack f then 0 else 1.

(** What the fighter updates and the hit resolution leave alone in a game. *)
Definition same_clock (g g' : Game) : Prop :=
  bounds g' = bounds g /\ round_time g' = round_time g
  /\ freeze_timer g' = freeze_timer g /\ match_end g' = match_end g
  /\ paused g' = paused g.

(** Scenario: after the intro hold, player 1 walks up to player 2 (82
    ticks), presses punch for one tick and lets 30 ticks pass. *)
Definition walk_and_punch : list (Keys * F64.float) :=
  intro_hold ++ ticks 82 (hold [K_d]) ++ ticks 1 (hold [K_j])
  ++ ticks 30 no_keys.

(** The games after each tick of a run of [Game.update] calls. *)
Fixpoint run_states (inputs : list (Keys * F64.float)) (g : Game)
  : option (list Game) :=
  match inputs with
  | [] => Some []
  | (keys, dt) :: tl =>
      g' <- game_update keys dt g ;;
      gs <- run_states tl g' ;;
      Some (g' :: gs)
  end.

(** Scenario: after the intro hold, player 1 walks up to player 2. *)
Definition walk_up : list (Keys * F64.float) :=
  intro_hold ++ ticks 82 (hold [K_d]).

(** Scenario: player 1 presses punch, the punch lands three ticks later;
    when the hitstop of the hit is over, with the punch still under way,
    player 1 presses punch again. *)
Definition punch_again : list (Keys * F64.float) :=
  ticks 1 (hold [K_j]) ++ ticks 7 no_keys ++ ticks 1 (hold [K_j])
  ++ ticks 3 no_keys.

(** The attack fields that [round_over] does not touch. *)
Definition stale_state (f : Fighter) : Z * Z * Z * bool :=
  (attack_timer f, attack_cooldown f, hitstop f, hit_this_attack f).

(** What holds of a fighter from [__init__] on. *)
Definition fighter_inv (f : Fighter) : Prop :=
  w f = 56 /\ h f = 98 /\ rw (rect f) = 56 /\ rh (rect f) = 98
  /\ max_hp f = 100 /\ 0 <= hp f <= 100.

(** What holds of a game from [__init__] on; while the round clock is
    positive, the match is undecided. *)
Definition game_inv (g : Game) : Prop :=
  fighter_inv (p1 g) /\ fighter_inv (p2 g)
  /\ name (p1 g) = Name_p1 /\ name (p2 g) = Name_p2
  /\ bounds g = mkRect 40 0 920 560
  /\ (F64.ltb (F64.of_Z 0) (round_time g) = true ->
      rounds_won (p1 g) < needed /\ rounds_won (p2 g) < needed).

(** The games [Game.run] goes through: ticks of [Game.update] (skipped while
    paused), the pause toggle (Esc) and the restart of the match (R). *)
Inductive reachable : Game -> Prop :=
| reach_new : reachable new_game
| reach_update (g g' : Game) (keys : Keys) (dt : F64.float) :
    reachable g -> paused g = false ->
    game_update keys dt g = Some g' -> reachable g'
| reach_pause (g : Game) :
    reachable g -> reachable (set_paused g (negb (paused g)))
| reach_restart (g : Game) :
    reachable g -> reachable (reset_match g).

(** The state of a combat tick after the fighter updates and the hit
    resolution, where the round clock and the healths are then examined. *)
Definition after_hits (keys : Keys) (g : Game) : option Game :=
  g <- update_fighters keys g ;;
  handle_hits g.

(** Scenario: after the intro hold the players walk into each other (41
    ticks); then, twelve times over, both press punch on the same tick, let
    the exchange play out (26 ticks) and step back in (2 ticks); both are
    down to 4 health.  They press punch once more and two ticks pass: the
    next tick is the one where both punches become active. *)
Definition exchange : list (Keys * F64.float) :=
  ticks 1 (hold [K_j; K_KP1]) ++ ticks 26 no_keys
  ++ ticks 2 (hold [K_d; K_LEFT]).

Definition before_double_ko : list (Keys * F64.float) :=
  intro_hold ++ ticks 41 (hold [K_d; K_LEFT])
  ++ concat (repeat exchange 12)
  ++ ticks 1 (hold [K_j; K_KP1]) ++ ticks 2 no_keys.


(** The rounds a resolution adds to a player: one to the winner. *)
Definition rounds_added (winner_name : option PlayerName) (n : PlayerName) : Z :=
  match winner_name, n with
  | Some Name_p1, Name_p1 | Some Name_p2, Name_p2 => 1
  | _, _ => 0
  end.

(** A fighter as [round_over] leaves it when a new round begins: health at
    [max_hp], on its start position with zero velocity, no attack set. *)
Definition round_reset (f f' : Fighter) (x : Z) : Prop :=
  hp f' = max_hp f
  /\ rect f' = mkRect x (GROUND_Y - h f) (rw (rect f)) (rh (rect f))
  /\ velocity f' = (F64.of_Z 0, F64.of_Z 0)
  /\ attack_type f' = None.

(** ** Further predicates of the properties *)

(** The stance flags of a fighter. *)
Definition stance (f : Fighter) : bool * bool * bool :=
  (on_ground f, crouching f, blocking f).

(** What a call [receive_hit(dmg, direction, blocked)] takes off the health
    of [f] before the clamp: the chip damage when [f] blocks a hit flagged
    blocked, the full damage otherwise. *)
Definition damage_taken (f : Fighter) (hit : Z * Z * bool) : option Z :=
  let '(dmg, _, blocked) := hit in
  if blocking f && blocked
  then match chip_floor dmg with
       | Some q => Some (Z.max 1 q)
       | None => None
       end
  else Some dmg.

(** The sum of [damage_taken] over a sequence of calls. *)
Fixpoint total_damage (f : Fighter) (hits : list (Z * Z * bool)) : option Z :=
  match hits with
  | [] => Some 0
  | hit :: tl =>
      d <- damage_taken f hit ;;
      t <- total_damage f tl ;;
      Some (d + t)
  end.

(** A fighter of the size [__init__] gives: body 56 by 98, [w] and [h] the
    same. *)
Definition standard_size (f : Fighter) : Prop :=
  w f = 56 /\ h f = 98 /\ rw (rect f) = 56 /\ rh (rect f) = 98.
(** Scenario: player 1 walks up to player 2 and knocks it out with thirteen
    punches, stepping back in after each; in the second round it lands
    twelve more and starts a thirteenth, which will become active on the
    next tick. *)
Definition strike : list (Keys * F64.float) :=
  ticks 1 (hold [K_j]) ++ ticks 26 no_keys ++ ticks 2 (hold [K_d]).

Definition before_match_point : list (Keys * F64.float) :=
  intro_hold ++ ticks 82 (hold [K_d]) ++ concat (repeat strike 13)
  ++ intro_hold ++ ticks 83 (hold [K_d]) ++ concat (repeat strike 12)
  ++ ticks 1 (hold [K_j]) ++ ticks 2 no_keys.

(** Both fighters have their feet on the ground line or above it. *)
Definition feet_above_ground (g : Game) : Prop :=
  RectOps.bottom (rect (p1 g)) <= GROUND_Y
  /\ RectOps.bottom (rect (p2 g)) <= GROUND_Y.

(** Healths within [0, 100]; rounds won within [0, 3], and at most 1 each
    while a round is being fought. *)
Definition score_in_range (g : Game) : Prop :=
  (0 <= hp (p1 g) <= 100 /\ 0 <= hp (p2 g) <= 100)
  /\ (0 <= rounds_won (p1 g) <= 3 /\ 0 <= rounds_won (p2 g) <= 3)
  /\ (in_combat g = true ->
      rounds_won (p1 g) <= 1 /\ rounds_won (p2 g) <= 1).

(** ** Banners ([Game.render])

    The texts [render] hands to [banner_text], in the order of the calls;
    [getattr(self, "match_end", False)] is the [match_end] field. *)
Definition banners (g : Game) : list String.string :=
  (if (freeze_timer g >? 0)
      && SFeqb (round_time g) (F64.of_Z ROUND_TIME)
      && negb (match_end g)
   then ["READY... FIGHT!"%string] else [])
  ++
  (if match_end g then
     if rounds_won (p1 g) >? rounds_won (p2 g)
     then ["P1 WINS THE MATCH!"%string]
     else if rounds_won (p2 g) >? rounds_won (p1 g)
     then ["P2 WINS THE MATCH!"%string]
     else ["DRAW GAME!"%string]
   else []).

(** At most one player has reached the two rounds that win the match; a
    game flagged [match_end] has such a player, or is a match restarted
    after its end, at 0 to 0. *)
Definition match_decided_once (g : Game) : Prop :=
  (rounds_won (p1 g) <= 1 \/ rounds_won (p2 g) <= 1)
  /\ (match_end g = true ->
      2 <= rounds_won (p1 g) \/ 2 <= rounds_won (p2 g)
      \/ (rounds_won (p1 g) = 0 /\ rounds_won (p2 g) = 0)).


(** A fighter in the first active tick of a punch. *)
Definition punching (x facing0 : Z) (nm : PlayerName) : Fighter :=
  set_attack_timer (set_attack_type (new_fighter x facing0 nm) (Some punch)) 4.

(** Both fighters in the first active tick of a punch, 92 apart. *)
Definition trade_at_92 : Game :=
  set_p2 (set_p1 new_game (punching 400 1 Name_p1))
    (punching 492 (-1) Name_p2).

(** ** Health bars *)

(** An integer as a float operand without rounding (mantissa [|n|],
    exponent 0). *)
Definition exact_int (n : Z) : F64.float :=
  match n with
  | Z0 => S754_zero false
  | Zpos p => S754_finite false p 0
  | Zneg p => S754_finite true p 0
  end.

(** [a / b] at two ints: the correctly rounded quotient; [ZeroDivisionError]
    and the [OverflowError] of a quotient too large for a float are
    [None]. *)
Definition true_div (a b : Z) : option F64.float :=
  if b =? 0 then None
  else
    let q := F64.div (exact_int a) (exact_int b) in
    if F64.is_finite q then Some q else None.

(** [float(n)] as [w * ratio] does it at an int and a float;
    [OverflowError] is [None]. *)
Definition float_of_int (n : Z) : option F64.float :=
  let x := F64.of_Z n in
  if F64.is_finite x then Some x else None.

(** A value that is an int or a float. *)
Inductive Num : Type :=
| NInt (n : Z)
| NFloat (x : F64.float).

(** [clamp(v, lo, hi)] at a float [v] with int bounds, the result keeping
    the type of the operand that wins: [min(hi, v)] is [v] only when
    [v < hi], [max(lo, m)] is [m] only when [m > lo]. *)
Definition clamp_num (v : F64.float) (lo hi : Z) : Num :=
  if F64.ltb v (F64.of_Z hi)
  then if F64.ltb (F64.of_Z lo) v then NFloat v else NInt lo
  else if hi >? lo then NInt hi else NInt lo.

(** [w * r] at an int [w]. *)
Definition mul_num (w : Z) (r : Num) : option Num :=
  match r with
  | NInt n => Some (NInt (w * n))
  | NFloat x => fw <- float_of_int w ;; Some (NFloat (F64.mul fw x))
  end.

(** [int(v)] *)
Definition int_num (v : Num) : option Z :=
  match v with
  | NInt n => Some n
  | NFloat x => F64.to_int x
  end.

(** The filled rectangle [draw_health_bar] draws. *)
Definition draw_health_bar (x y w h hp max_hp : Z) (align_right : bool)
  : option Rect :=
  ratio <- true_div hp max_hp ;;
  let ratio := clamp_num ratio 0 1 in
  p <- mul_num w ratio ;;
  filled <- int_num p ;;
  Some (if align_right then mkRect (x + (w - filled)) y filled h
        else mkRect x y filled h).

(** The two health bars of [render]: player 1's, then player 2's. *)
Definition render_health_bars (g : Game) : option Rect * option Rect :=
  (draw_health_bar 40 20 360 18 (hp (p1 g)) (max_hp (p1 g)) false,
   draw_health_bar (WIDTH - 400) 20 360 18 (hp (p2 g)) (max_hp (p2 g)) true).

(** What a health bar of width 360 shows of a health of [hp] out of 100:
    the fill is 3.6 times [hp] rounded down, or one less; empty only at 0,
    full only at 100. *)
Definition bar_shows (left_edge : Z) (r : Rect) (hp : Z) : Prop :=
  rx r = left_edge /\ ry r = 20 /\ rh r = 18
  /\ 360 * hp / 100 - 1 <= rw r <= 360 * hp / 100
  /\ (rw r = 0 <-> hp = 0)
  /\ (rw r = 360 <-> hp = 100).

(** The vertical state of a fighter. *)
Definition vertical (f : Fighter) : Z * Z * F64.float * bool :=
  (ry (rect f), rh (rect f), snd (velocity f), on_ground f).

(** A fighter faces left or right, and while [on_ground] is set it stands on
    the ground line with no vertical speed. *)
Definition grounded_level (f : Fighter) : Prop :=
  (facing f = 1 \/ facing f = -1)
  /\ (on_ground f = true ->
      RectOps.bottom (rect f) = GROUND_Y /\ snd (velocity f) = F64.of_Z 0).

(** The attack of [atk] is in its active window, has not hit yet, and the
    left edge of [dfd] lies in front of [atk] within reach. *)
Definition connects (atk dfd : Fighter) : Prop :=
  exists k,
    attack_type atk = Some k
    /\ in_active_window k (attack_timer atk)
    /\ hit_this_attack atk = false
    /\ -4 < facing atk * (rx (rect dfd) - rx (rect atk))
         < 52 + fst (attack_range k).

(** Scenario: player 1 walks up to player 2 and presses punch; two ticks
    later the punch is one tick before its active window. *)
Definition walk_and_start_punch : list (Keys * F64.float) :=
  intro_hold ++ ticks 82 (hold [K_d]) ++ ticks 1 (hold [K_j])
  ++ ticks 2 no_keys.
(** ** Properties *)

(** C1: [attack_box] returns a rectangle if and only if an attack is active
    and [attack_timer] lies in the active window of its kind (punch: ticks
    4 to 8, kick: ticks 6 to 11); before the window, at or after its end, and
    whenever no attack is set, it returns [None]. *)
Theorem attack_box_active_window :
  forall f : Fighter,
    ((exists r, attack_box f = Some r) <->
     (exists k, attack_type f = Some k /\ in_active_window k (attack_timer f)))
    /\ (attack_type f = None -> attack_box f = None)
    /\ (forall k, attack_type f = Some k ->
          ~ in_active_window k (attack_timer f) -> attack_box f = None).
Proof.
  intros f.
  assert (Hk : forall k, attack_type f = Some k ->
             (in_active_window k (attack_timer f) ->
              exists r, attack_box f = Some r)
             /\ (~ in_active_window k (attack_timer f) -> attack_box f = None)).
  { intros k Hk. unfold attack_box. rewrite Hk.
    destruct k; cbn [attack_range attack_frames PUNCH_RANGE KICK_RANGE
                     in_active_window];
      match goal with
      | |- context [if ?c then None else Some ?r] =>
          destruct c eqn:Hc; split; intros Hw;
          try (exists r; reflexivity); try reflexivity; exfalso
      end;
      try (apply orb_true_iff in Hc; destruct Hc as [Hc | Hc];
           [apply Z.ltb_lt in Hc | apply Z.geb_le in Hc]; lia);
      try (apply orb_false_iff in Hc; destruct Hc as [Hc1 Hc2];
           apply Z.ltb_ge in Hc1; rewrite Z.geb_leb in Hc2;
           apply Z.leb_gt in Hc2; apply Hw; lia). }
  split; [split|split].
  - intros [r Hr]. destruct (attack_type f) as [k|] eqn:Ht.
    + exists k. split; [reflexivity|].
      destruct (Hk k eq_refl) as [_ Hout].
      destruct k; cbn [in_active_window] in *;
        match goal with
        | |- ?a <= ?t < ?b =>
            destruct (Z_le_dec a t); [destruct (Z_lt_dec t b)|]; try lia;
            rewrite Hout in Hr by lia; discriminate
        end.
    + unfold attack_box in Hr. rewrite Ht in Hr. discriminate.
  - intros [k [Ht Hw]]. exact (proj1 (Hk k Ht) Hw).
  - intros Ht. unfold attack_box. rewrite Ht. reflexivity.
  - intros k Ht Hw. exact (proj2 (Hk k Ht) Hw).
Qed.

(** *** Proof support *)

#[global] Arguments F64.add : simpl never.
#[global] Arguments F64.sub : simpl never.
#[global] Arguments F64.mul : simpl never.
#[global] Arguments F64.div : simpl never.
#[global] Arguments F64.of_Z : simpl never.
#[global] Arguments F64.lit : simpl never.
#[global] Arguments F64.ltb : simpl never.
#[global] Arguments F64.leb : simpl never.
#[global] Arguments F64.to_int : simpl never.
#[global] Arguments clamp_float : simpl never.
#[global] Opaque GRAVITY FRICTION MOVE_SPEED JUMP_SPEED BLOCK_CHIP.

Ltac break_if :=
  match goal with
  | |- context [if ?c then _ else _] => destruct c eqn:?
  | |- context [match ?c with Some _ => _ | None => _ end] => destruct c eqn:?
  end.

Ltac break_if_in H :=
  match type of H with
  | context [if ?c then _ else _] => destruct c eqn:?
  | context [match ?c with Some _ => _ | None => _ end] => destruct c eqn:?
  end.

(** Reduction of record projections over the field updates, and nothing
    else. *)
Ltac fields :=
  cbn [w h rect velocity on_ground crouching blocking facing name max_hp hp
       rounds_won attack_cooldown attack_type attack_timer hitstop
       hit_this_attack
       set_rect set_velocity set_on_ground set_crouching set_blocking
       set_facing set_hp set_rounds_won set_attack_cooldown set_attack_type
       set_attack_timer set_hitstop set_hit_this_attack
       p1 p2 bounds round_time freeze_timer match_end paused
       set_p1 set_p2 set_round_time set_freeze_timer set_match_end set_paused
       rx ry rw rh RectOps.set_x RectOps.set_y RectOps.set_left
       RectOps.set_right RectOps.set_bottom RectOps.set_topleft
       RectOps.set_topright RectOps.left RectOps.right RectOps.top
       RectOps.bottom fst snd bind] in *.

Ltac rect_ops :=
  unfold RectOps.set_left, RectOps.set_right, RectOps.set_bottom,
    RectOps.set_topleft, RectOps.set_topright, RectOps.set_x, RectOps.set_y,
    RectOps.left, RectOps.right, RectOps.top, RectOps.bottom in *;
  fields.

(** Boolean comparisons in the context, as propositions for [lia]. *)
Ltac prop_tests :=
  repeat match goal with
         | H : (_ <? _) = true |- _ => apply Z.ltb_lt in H
         | H : (_ <? _) = false |- _ => apply Z.ltb_ge in H
         | H : (_ <=? _) = true |- _ => apply Z.leb_le in H
         | H : (_ <=? _) = false |- _ => apply Z.leb_gt in H
         | H : (_ >? _) = true |- _ =>
             rewrite Z.gtb_ltb in H; apply Z.ltb_lt in H
         | H : (_ >? _) = false |- _ =>
             rewrite Z.gtb_ltb in H; apply Z.ltb_ge in H
         | H : (_ >=? _) = true |- _ =>
             rewrite Z.geb_leb in H; apply Z.leb_le in H
         | H : (_ >=? _) = false |- _ =>
             rewrite Z.geb_leb in H; apply Z.leb_gt in H
         | H : (_ =? _) = true |- _ => apply Z.eqb_eq in H
         | H : (_ =? _) = false |- _ => apply Z.eqb_neq in H
         | H : (_ && _) = true |- _ => apply andb_true_iff in H; destruct H
         | H : (_ || _) = false |- _ => apply orb_false_iff in H; destruct H
         | H : negb _ = true |- _ => apply negb_true_iff in H
         | H : negb _ = false |- _ => apply negb_false_iff in H
         end.

Lemma same_body_refl (f : Fighter) : same_body f f.
Proof. unfold same_body. tauto. Qed.

Lemma same_body_trans (f1 f2 f3 : Fighter) :
  same_body f1 f2 -> same_body f2 f3 -> same_body f1 f3.
Proof. unfold same_body. intuition congruence. Qed.

Ltac solve_frame :=
  unfold same_body, attack_state, score;
  repeat break_if; cbn; repeat split; reflexivity.

Lemma face_opponent_frame (f opp : Fighter) :
  same_body f (face_opponent f opp)
  /\ attack_state (face_opponent f opp) = attack_state f
  /\ score (face_opponent f opp) = score f
  /\ rect (face_opponent f opp) = rect f.
Proof. unfold face_opponent. solve_frame. Qed.

Lemma basic_movement_frame (keys : Keys) (f : Fighter) :
  same_body f (basic_movement keys f)
  /\ attack_state (basic_movement keys f) = attack_state f
  /\ score (basic_movement keys f) = score f
  /\ rect (basic_movement keys f) = rect f.
Proof. unfold basic_movement. cbn. solve_frame. Qed.

Lemma start_attack_frame (f : Fighter) (k : AttackKind) :
  same_body f (start_attack f k)
  /\ score (start_attack f k) = score f
  /\ rect (start_attack f k) = rect f.
Proof. unfold start_attack. solve_frame. Qed.

Lemma attacks_frame (keys : Keys) (f : Fighter) :
  same_body f (attacks keys f)
  /\ score (attacks keys f) = score f
  /\ rect (attacks keys f) = rect f.
Proof.
  unfold attacks.
  repeat break_if; try apply start_attack_frame.
  unfold same_body, score. tauto.
Qed.

Lemma advance_attack_timer_frame (f : Fighter) :
  same_body f (advance_attack_timer f)
  /\ score (advance_attack_timer f) = score f
  /\ rect (advance_attack_timer f) = rect f
  /\ hitstop (advance_attack_timer f) = hitstop f
  /\ hit_this_attack (advance_attack_timer f) = hit_this_attack f.
Proof. unfold advance_attack_timer. cbn. solve_frame. Qed.

Lemma apply_gravity_frame (f : Fighter) :
  same_body f (apply_gravity f)
  /\ attack_state (apply_gravity f) = attack_state f
  /\ score (apply_gravity f) = score f
  /\ rect (apply_gravity f) = rect f.
Proof. unfold apply_gravity. solve_frame. Qed.

Lemma move_and_collide_frame (f f' : Fighter) (b : Rect) :
  move_and_collide f b = Some f' ->
  same_body f f' /\ attack_state f' = attack_state f /\ score f' = score f.
Proof.
  unfold move_and_collide. intros H.
  destruct (F64.to_int _) as [x|]; [|discriminate]. cbn [bind] in H.
  destruct (F64.to_int _) as [y|]; [|discriminate]. cbn [bind] in H.
  injection H as <-. cbn. solve_frame.
Qed.

Lemma push_apart_frame (f opp : Fighter) :
  same_body f (fst (push_apart f opp))
  /\ same_body opp (snd (push_apart f opp))
  /\ attack_state (fst (push_apart f opp)) = attack_state f
  /\ attack_state (snd (push_apart f opp)) = attack_state opp
  /\ score (fst (push_apart f opp)) = score f
  /\ score (snd (push_apart f opp)) = score opp.
Proof. unfold push_apart. solve_frame. Qed.

Lemma gtb_false (x y : Z) : x <= y -> (x >? y) = false.
Proof. intros H. rewrite Z.gtb_ltb. apply Z.ltb_ge. exact H. Qed.

Lemma gtb_true (x y : Z) : y < x -> (x >? y) = true.
Proof. intros H. rewrite Z.gtb_ltb. apply Z.ltb_lt. exact H. Qed.

(** [int(x)] fails exactly on the NaN and the infinities. *)
Lemma to_int_finite (x : F64.float) :
  F64.is_finite x = true <-> exists z, F64.to_int x = Some z.
Proof.
  destruct x; cbn; split; intros H; try discriminate; try reflexivity;
    try (eexists; reflexivity); destruct H as [z H]; discriminate.
Qed.

Lemma attack_steps_congr (keys : Keys) (f1 f2 : Fighter) :
  name f1 = name f2 ->
  attack_state f1 = attack_state f2 ->
  attack_state (advance_attack_timer (attacks keys f1))
  = attack_state (advance_attack_timer (attacks keys f2)).
Proof.
  destruct f1, f2. unfold attack_state. cbn. intros Hn Hs.
  injection Hs as -> -> -> -> ->. subst.
  unfold attacks, start_attack, advance_attack_timer. cbn.
  repeat break_if; cbn in *; congruence.
Qed.

(** [update] on a fighter out of hitstop: the attack state is what the two
    attack steps make of it; nothing else of the frame changes. *)
Lemma update_frame (keys : Keys) (f opp f' o' : Fighter) (b : Rect) :
  update keys f opp b = Some (f', o') ->
  same_body f f' /\ same_body opp o'
  /\ score f' = score f /\ score o' = score opp
  /\ attack_state o' = attack_state opp
  /\ attack_state f' =
     (if hitstop f >? 0
      then (attack_type f, attack_timer f, attack_cooldown f, hitstop f - 1,
            hit_this_attack f)
      else attack_state (advance_attack_timer (attacks keys f))).
Proof.
  unfold update. intros H.
  destruct (hitstop f >? 0) eqn:Hh.
  - injection H as <- <-. unfold same_body, score, attack_state. cbn. tauto.
  - destruct (move_and_collide _ b) as [fm|] eqn:Em; [|discriminate].
    cbn [bind] in H.
    destruct (move_and_collide_frame _ _ _ Em) as [Bm [Am Sm]].
    destruct (push_apart_frame fm opp) as [B1 [B2 [A1 [A2 [S1 S2]]]]].
    rewrite (surjective_pairing (push_apart fm opp)) in H.
    injection H as <- <-.
    set (f1 := face_opponent f opp) in *.
    set (f2 := basic_movement keys f1) in *.
    set (f3 := attacks keys f2) in *.
    set (f4 := advance_attack_timer f3) in *.
    set (f5 := apply_gravity f4) in *.
    destruct (face_opponent_frame f opp) as [Ba [Aa [Sa _]]].
    destruct (basic_movement_frame keys f1) as [Bb [Ab [Sb _]]].
    destruct (attacks_frame keys f2) as [Bc [Sc _]].
    destruct (advance_attack_timer_frame f3) as [Bd [Sd _]].
    destruct (apply_gravity_frame f4) as [Be [Ae [Se _]]].
    fold f1 in Ba, Aa, Sa. fold f2 in Bb, Ab, Sb. fold f3 in Bc, Sc.
    fold f4 in Bd, Sd. fold f5 in Be, Ae, Se.
    assert (Bf : same_body f fm).
    { apply (same_body_trans _ f1); [assumption|].
      apply (same_body_trans _ f2); [assumption|].
      apply (same_body_trans _ f3); [assumption|].
      apply (same_body_trans _ f4); [assumption|].
      apply (same_body_trans _ f5); assumption. }
    split; [apply (same_body_trans _ fm); assumption|].
    split; [assumption|].
    split; [congruence|].
    split; [assumption|].
    split; [assumption|].
    rewrite A1, Am, Ae. unfold f4, f3.
    apply attack_steps_congr.
    + destruct Ba as (_ & _ & _ & _ & Hn & _).
      destruct Bb as (_ & _ & _ & _ & Hn' & _). congruence.
    + congruence.
Qed.

(** *** Damage and health *)

(** Projections of [receive_hit]: what a call leaves in each field. *)
Lemma receive_hit_unblocked (f : Fighter) (dmg direction : Z) (blocked : bool) :
  blocking f && blocked = false ->
  exists f', receive_hit f dmg direction blocked = Some f'
             /\ hp f' = clamp (hp f - dmg) 0 (max_hp f)
             /\ max_hp f' = max_hp f.
Proof.
  intros Hb. unfold receive_hit. rewrite Hb. cbn [bind].
  destruct (on_ground f) eqn:Hg; cbn; rewrite Hg; eexists;
    (split; [reflexivity|]); cbn; auto.
Qed.

Lemma receive_hit_blocked (f : Fighter) (dmg direction q : Z) (blocked : bool) :
  blocking f && blocked = true ->
  chip_floor dmg = Some q ->
  exists f', receive_hit f dmg direction blocked = Some f'
             /\ hp f' = clamp (hp f - Z.max 1 q) 0 (max_hp f)
             /\ max_hp f' = max_hp f.
Proof.
  intros Hb Hq. unfold receive_hit. rewrite Hb, Hq. cbn [bind].
  destruct (on_ground f) eqn:Hg; cbn; rewrite Hg; eexists;
    (split; [reflexivity|]); cbn; auto.
Qed.

Lemma receive_hit_hp (f f' : Fighter) (dmg direction : Z) (blocked : bool) :
  receive_hit f dmg direction blocked = Some f' ->
  max_hp f' = max_hp f
  /\ exists v, hp f' = clamp v 0 (max_hp f).
Proof.
  intros H.
  destruct (blocking f && blocked) eqn:Hb.
  - destruct (chip_floor dmg) as [q|] eqn:Hq.
    + destruct (receive_hit_blocked f dmg direction q blocked Hb Hq)
        as [f'' [E [Hhp Hm]]].
      rewrite E in H. injection H as <-. split; [assumption|eauto].
    + unfold receive_hit in H. rewrite Hb, Hq in H. discriminate.
  - destruct (receive_hit_unblocked f dmg direction blocked Hb)
      as [f'' [E [Hhp Hm]]].
    rewrite E in H. injection H as <-. split; [assumption|eauto].
Qed.

Lemma clamp_range (v lo hi : Z) : lo <= hi -> lo <= clamp v lo hi <= hi.
Proof. unfold clamp. lia. Qed.

Lemma chip_floor_exact_from_sound (n : nat) :
  forall d, chip_floor_exact_from n d = true ->
  forall k, d <= k < d + Z.of_nat n -> chip_floor k = Some (k / 5).
Proof.
  induction n as [|n IH]; intros d H k Hk.
  - simpl in Hk. lia.
  - cbn [chip_floor_exact_from] in H. apply andb_true_iff in H.
    destruct H as [H1 H2].
    destruct (Z.eq_dec k d) as [->|Hne].
    + destruct (chip_floor d) as [q|]; [|discriminate].
      apply Z.eqb_eq in H1. now subst.
    + apply (IH (d + 1) H2). lia.
Qed.

Lemma chip_floor_small (dmg : Z) :
  1 <= dmg <= 10000 -> chip_floor dmg = Some (dmg / 5).
Proof.
  intros H.
  apply (chip_floor_exact_from_sound (Z.to_nat 10000) 1);
    [vm_compute; reflexivity|rewrite Z2Nat.id; lia].
Qed.

(** *** The binary64 product by 0.2

    [int(dmg * 0.2)] is the exact [floor(dmg / 5)] for every positive damage
    below 3 * 2^51; the rounding of [SpecFloat] is followed through the two
    operations. *)

Lemma digits2_pos_bounds (p : positive) :
  2 ^ (Zpos (digits2_pos p) - 1) <= Zpos p < 2 ^ Zpos (digits2_pos p).
Proof.
  induction p as [p IH|p IH|]; cbn [digits2_pos].
  - rewrite Pos2Z.inj_succ. replace (Z.succ (Zpos (digits2_pos p)) - 1)
      with (Z.succ (Zpos (digits2_pos p) - 1)) by lia.
    rewrite !Z.pow_succ_r by lia. lia.
  - rewrite Pos2Z.inj_succ. replace (Z.succ (Zpos (digits2_pos p)) - 1)
      with (Z.succ (Zpos (digits2_pos p) - 1)) by lia.
    rewrite !Z.pow_succ_r by lia. lia.
  - cbn. lia.
Qed.

Lemma digits2_pos_unique (p : positive) (d : Z) :
  2 ^ (d - 1) <= Zpos p < 2 ^ d -> Zpos (digits2_pos p) = d.
Proof.
  intros [Hlo Hhi]. pose proof (digits2_pos_bounds p) as [Blo Bhi].
  set (d' := Zpos (digits2_pos p)) in *.
  assert (Hd' : 0 < d') by (unfold d'; lia).
  destruct (Z_lt_le_dec d' d) as [Hlt|Hge].
  - assert (2 ^ d' <= 2 ^ (d - 1)) by (apply Z.pow_le_mono_r; lia). lia.
  - destruct (Z_lt_le_dec d d') as [Hlt|Hle]; [|lia].
    assert (2 ^ d <= 2 ^ (d' - 1)) by (apply Z.pow_le_mono_r; lia). lia.
Qed.

Lemma iter_pos_nat (A : Type) (f : A -> A) (p : positive) :
  forall x : A, iter_pos f p x = Nat.iter (Pos.to_nat p) f x.
Proof.
  induction p as [p IH|p IH|]; intros x; cbn [iter_pos].
  - rewrite !IH, Pos2Nat.inj_xI.
    replace (S (2 * Pos.to_nat p)) with (Pos.to_nat p + S (Pos.to_nat p))%nat
      by lia.
    rewrite Nat.iter_add. f_equal. cbn [Nat.iter nat_rect].
    apply Nat.iter_swap.
  - rewrite !IH, Pos2Nat.inj_xO.
    replace (2 * Pos.to_nat p)%nat with (Pos.to_nat p + Pos.to_nat p)%nat
      by lia.
    rewrite Nat.iter_add. reflexivity.
  - reflexivity.
Qed.

Lemma shr_1_nonneg (m : Z) (r s : bool) :
  0 <= m ->
  shr_1 (Build_shr_record m r s) = Build_shr_record (m / 2) (Z.odd m) (r || s).
Proof.
  intros Hm. destruct m as [|p|p]; [reflexivity| |lia].
  destruct p as [p|p|]; cbn [shr_1 Z.odd]; f_equal.
  - apply (Z.div_unique _ _ _ 1); lia.
  - apply (Z.div_unique _ _ _ 0); lia.
Qed.

Lemma shr_steps_iter (m : Z) (k : nat) :
  0 <= m ->
  Nat.iter k shr_1 (Build_shr_record m false false) = shr_steps m k.
Proof.
  intros Hm. induction k as [|k IH]; [reflexivity|].
  change (shr_1 (Nat.iter k shr_1 (Build_shr_record m false false))
          = shr_steps m (S k)).
  rewrite IH.
  assert (Hp : forall j : nat, 0 < 2 ^ Z.of_nat j)
    by (intros j; apply Z.pow_pos_nonneg; lia).
  assert (Hs : forall j : nat, 2 ^ Z.of_nat (S j) = 2 ^ Z.of_nat j * 2)
    by (intros j; rewrite Nat2Z.inj_succ, Z.pow_succ_r by lia; lia).
  destruct k as [|k]; cbn [shr_steps].
  - rewrite shr_1_nonneg by lia. cbn [orb].
    change (2 ^ Z.of_nat 0) with 1. change (2 ^ Z.of_nat 1) with 2.
    rewrite Z.div_1_r, Z.mod_1_r. reflexivity.
  - rewrite shr_1_nonneg by (apply Z.div_pos; [lia|apply Hp]).
    f_equal.
    + rewrite (Hs (S k)), Z.div_div by (try apply Z.lt_le_incl; try apply Hp; lia).
      reflexivity.
    + rewrite (Hs k).
      rewrite Z.rem_mul_r by (try lia; pose proof (Hp k); lia).
      pose proof (Z.mod_pos_bound m (2 ^ Z.of_nat k) (Hp k)) as Hb.
      pose proof (Hp k) as Hk.
      rewrite Zmod_odd.
      destruct (Z.odd (m / 2 ^ Z.of_nat k)); cbn [orb].
      * symmetry. apply negb_true_iff, Z.eqb_neq. nia.
      * rewrite Z.mul_0_r, Z.add_0_r. reflexivity.
Qed.

Lemma round_steps_bounds (m : Z) (k : nat) :
  0 <= m ->
  m / 2 ^ Z.of_nat (S k) <= round_steps m (S k) <= m / 2 ^ Z.of_nat (S k) + 1
  /\ (round_steps m (S k) = m / 2 ^ Z.of_nat (S k) + 1 ->
      2 ^ Z.of_nat k <= m mod 2 ^ Z.of_nat (S k)).
Proof.
  intros Hm. unfold round_steps. cbn [shr_steps shr_m loc_of_shr_record].
  set (q := m / 2 ^ Z.of_nat (S k)).
  assert (Hp : 0 < 2 ^ Z.of_nat k) by (apply Z.pow_pos_nonneg; lia).
  assert (Hs : 2 ^ Z.of_nat (S k) = 2 ^ Z.of_nat k * 2)
    by (rewrite Nat2Z.inj_succ, Z.pow_succ_r by lia; lia).
  destruct (Z.odd (m / 2 ^ Z.of_nat k)) eqn:Hr.
  - assert (Hrem : 2 ^ Z.of_nat k <= m mod 2 ^ Z.of_nat (S k)).
    { rewrite Hs, Z.rem_mul_r by lia. rewrite Zmod_odd, Hr.
      pose proof (Z.mod_pos_bound m (2 ^ Z.of_nat k) Hp). lia. }
    destruct (negb (m mod 2 ^ Z.of_nat k =? 0)); cbn [round_nearest_even].
    + split; [lia|intros _; exact Hrem].
    + destruct (Z.even q); split; try lia; intros _; exact Hrem.
  - destruct (negb (m mod 2 ^ Z.of_nat k =? 0)); cbn [round_nearest_even];
      split; lia.
Qed.

Lemma fexp_normal (d : Z) :
  -1021 <= d -> fexp F64.prec F64.emax d = d - 53.
Proof. unfold fexp, emin, F64.prec, F64.emax. lia. Qed.

(** A mantissa of 53 bits is left as it is. *)
Lemma binary_round_aux_canonical (m : positive) (e : Z) :
  Zpos (digits2_pos m) = 53 -> -1074 <= e <= 971 ->
  binary_round_aux F64.prec F64.emax false (Zpos m) e loc_Exact
  = S754_finite false m e.
Proof.
  intros Hd He. unfold binary_round_aux, shr_fexp.
  cbn [Zdigits2 shr_record_of_loc]. rewrite Hd.
  rewrite fexp_normal by lia.
  replace (53 + e - 53 - e) with 0 by lia.
  cbn [shr shr_m loc_of_shr_record round_nearest_even Zdigits2
       shr_record_of_loc].
  rewrite Hd, fexp_normal by lia.
  replace (53 + e - 53 - e) with 0 by lia. cbn [shr shr_m].
  replace (e <=? F64.emax - F64.prec) with true
    by (symmetry; apply Z.leb_le; unfold F64.emax, F64.prec; lia).
  reflexivity.
Qed.

(** A mantissa of [53 + n] bits is shifted by [n] and rounded. *)
Lemma binary_round_aux_shift (P n : positive) (e : Z) :
  Zpos (digits2_pos P) = 53 + Zpos n ->
  -1074 <= e + Zpos n <= 971 ->
  round_steps (Zpos P) (Pos.to_nat n) < 2 ^ 53 ->
  binary_round_aux F64.prec F64.emax false (Zpos P) e loc_Exact
  = S754_finite false (Z.to_pos (round_steps (Zpos P) (Pos.to_nat n)))
      (e + Zpos n).
Proof.
  intros Hd He HR. unfold binary_round_aux, shr_fexp.
  cbn [Zdigits2 shr_record_of_loc]. rewrite Hd.
  rewrite fexp_normal by lia.
  replace (53 + Zpos n + e - 53 - e) with (Zpos n) by lia.
  cbn [shr]. rewrite iter_pos_nat, shr_steps_iter by lia.
  fold (round_steps (Zpos P) (Pos.to_nat n)).
  set (R := round_steps (Zpos P) (Pos.to_nat n)) in *.
  destruct (Pos2Nat.is_succ n) as [k Hk].
  assert (HkZ : Z.of_nat (S k) = Zpos n) by (rewrite <- Hk; apply positive_nat_Z).
  pose proof (round_steps_bounds (Zpos P) k ltac:(lia)) as [[Rlo Rhi] _].
  rewrite <- Hk in Rlo, Rhi. fold R in Rlo, Rhi. rewrite Hk, HkZ in Rlo, Rhi.
  pose proof (digits2_pos_bounds P) as [Plo _]. rewrite Hd in Plo.
  assert (Hq : 2 ^ 52 <= Zpos P / 2 ^ Zpos n).
  { apply Z.div_le_lower_bound; [apply Z.pow_pos_nonneg; lia|].
    rewrite <- Z.pow_add_r by lia.
    replace (Zpos n + 52) with (53 + Zpos n - 1) by lia. exact Plo. }
  assert (HRpos : 0 < R) by lia.
  destruct R as [|Rp|Rp] eqn:ER; try lia.
  assert (HdR : Zpos (digits2_pos Rp) = 53)
    by (apply digits2_pos_unique; change (53 - 1) with 52; lia).
  cbn [Zdigits2]. rewrite HdR, fexp_normal by lia.
  replace (53 + (e + Zpos n) - 53 - (e + Zpos n)) with 0 by lia.
  cbn [shr shr_record_of_loc shr_m Z.to_pos].
  replace (e + Zpos n <=? F64.emax - F64.prec) with true
    by (symmetry; apply Z.leb_le; unfold F64.emax, F64.prec; lia).
  reflexivity.
Qed.

Lemma iter_xO_pow (p k : positive) :
  Zpos (Pos.iter xO p k) = Zpos p * 2 ^ Zpos k.
Proof.
  induction k as [|k IH] using Pos.peano_ind.
  - cbn. lia.
  - rewrite Pos.iter_succ, Pos2Z.inj_xO, IH, Pos2Z.inj_succ,
      Z.pow_succ_r by lia. lia.
Qed.

(** [float(n)] for a positive [n] of at most 53 bits: the mantissa is [n]
    shifted to 53 bits. *)
Lemma of_Z_normal (p : positive) :
  Zpos (digits2_pos p) <= 53 ->
  F64.of_Z (Zpos p)
  = S754_finite false
      (Z.to_pos (Zpos p * 2 ^ (53 - Zpos (digits2_pos p))))
      (Zpos (digits2_pos p) - 53).
Proof.
  intros Hd. unfold F64.of_Z, binary_normalize, binary_round, shl_align.
  rewrite Z.add_0_r, fexp_normal by lia. rewrite Z.sub_0_r.
  pose proof (digits2_pos_bounds p) as [Plo Phi].
  destruct (Zpos (digits2_pos p) - 53) as [|k|k] eqn:Ek; try lia.
  - replace (53 - Zpos (digits2_pos p)) with 0 by lia.
    rewrite Z.mul_1_r. cbn [Z.to_pos].
    apply binary_round_aux_canonical; lia.
  - replace (53 - Zpos (digits2_pos p)) with (Zpos k) by lia.
    rewrite <- iter_xO_pow. cbn [Z.to_pos].
    apply binary_round_aux_canonical; [|lia].
    apply digits2_pos_unique. rewrite iter_xO_pow.
    change (53 - 1) with 52.
    assert (E1 : 2 ^ 52 = 2 ^ (Zpos (digits2_pos p) - 1) * 2 ^ Zpos k)
      by (rewrite <- Z.pow_add_r by lia; f_equal; lia).
    assert (E2 : 2 ^ 53 = 2 ^ Zpos (digits2_pos p) * 2 ^ Zpos k)
      by (rewrite <- Z.pow_add_r by lia; f_equal; lia).
    rewrite E1, E2.
    assert (0 < 2 ^ Zpos k) by (apply Z.pow_pos_nonneg; lia).
    split; [apply Z.mul_le_mono_nonneg_r; lia
           |apply Z.mul_lt_mono_pos_r; lia].
Qed.

Lemma BLOCK_CHIP_value :
  BLOCK_CHIP = S754_finite false 7205759403792794 (-55).
Proof. vm_compute. reflexivity. Qed.

Lemma to_int_shift (R t : positive) :
  F64.to_int (S754_finite false R (Zneg t)) = Some (Zpos R / 2 ^ Zpos t).
Proof.
  unfold F64.to_int. rewrite Z.shiftr_div_pow2 by lia. reflexivity.
Qed.

(** The truncated binary64 product [int(dmg * 0.2)] is [floor(dmg / 5)] for
    every positive [dmg] below 3 * 2^51 = 6755399441055744. *)
Lemma chip_floor_exact (dmg : Z) :
  0 < dmg < 6755399441055744 -> chip_floor dmg = Some (dmg / 5).
Proof.
  intros [Hpos Hlt]. destruct dmg as [|p|p]; try lia.
  pose proof (digits2_pos_bounds p) as [Dlo Dhi].
  set (d := Zpos (digits2_pos p)) in *.
  assert (Hd1 : 1 <= d) by (unfold d; lia).
  assert (Hd : d <= 53).
  { destruct (Z_le_gt_dec d 53) as [H|H]; [exact H|].
    assert (H53 : 2 ^ 53 <= 2 ^ (d - 1)) by (apply Z.pow_le_mono_r; lia).
    change (2 ^ 53) with 9007199254740992 in H53. lia. }
  unfold chip_floor. rewrite of_Z_normal by exact Hd. fold d.
  rewrite BLOCK_CHIP_value.
  set (A := 2 ^ (53 - d)).
  assert (HA : 1 <= A) by (unfold A; pose proof (Z.pow_pos_nonneg 2 (53 - d)); lia).
  set (u := Zpos p * A).
  assert (Hu : 4503599627370496 <= u < 9007199254740992).
  { change 4503599627370496 with (2 ^ 52).
    change 9007199254740992 with (2 ^ 53).
    assert (E1 : 2 ^ 52 = 2 ^ (d - 1) * A)
      by (unfold A; rewrite <- Z.pow_add_r by lia; f_equal; lia).
    assert (E2 : 2 ^ 53 = 2 ^ d * A)
      by (unfold A; rewrite <- Z.pow_add_r by lia; f_equal; lia).
    rewrite E1, E2. unfold u.
    split; [apply Z.mul_le_mono_nonneg_r; lia
           |apply Z.mul_lt_mono_pos_r; lia]. }
  assert (HA1 : A = 1 -> u < 6755399441055744) by (intros E; unfold u; lia).
  (* the quotient and the remainder of [dmg] by 5, scaled *)
  set (k := Zpos p / 5).
  set (w := k * A).
  assert (Hk : 0 <= k) by (apply Z.div_pos; lia).
  assert (Hw : exists z, u = 5 * w + z /\ 0 <= z <= 4 * A).
  { exists ((Zpos p mod 5) * A). unfold u, w, k.
    pose proof (Z.mod_pos_bound (Zpos p) 5 ltac:(lia)).
    pose proof (Z_div_mod_eq_full (Zpos p) 5). nia. }
  destruct Hw as (z & Huw & Hz).
  unfold F64.mul, SFmul. cbn [xorb].
  set (P := (Z.to_pos u * 7205759403792794)%positive).
  assert (HP : Zpos P = 7205759403792794 * u)
    by (unfold P; rewrite Pos2Z.inj_mul, Z2Pos.id by lia; lia).
  assert (Ht : forall j : Z, 0 <= j -> 2 ^ (53 - d + j) = A * 2 ^ j)
    by (intros j Hj; unfold A; apply Z.pow_add_r; lia).
  destruct (Z_lt_le_dec (Zpos P) (2 ^ 105)) as [H105|H105].
  - (* 105 bits: shift by 52 *)
    assert (HdP : Zpos (digits2_pos P) = 53 + 52).
    { apply digits2_pos_unique. change (53 + 52 - 1) with 104.
      change (2 ^ 104) with 20282409603651670423947251286016.
      change (53 + 52) with 105. split; [lia|exact H105]. }
    change (2 ^ 105) with 40564819207303340847894502572032 in H105.
    pose proof (round_steps_bounds (Zpos P) 51 ltac:(lia)) as [[Rlo Rhi] Rup].
    change (Z.of_nat 52) with 52 in *. change (Z.of_nat 51) with 51 in *.
    change (2 ^ 52) with 4503599627370496 in *.
    change (2 ^ 51) with 2251799813685248 in *.
    set (R := round_steps (Zpos P) 52) in *.
    pose proof (Z_div_mod_eq_full (Zpos P) 4503599627370496) as Hdm.
    pose proof (Z.mod_pos_bound (Zpos P) 4503599627370496 ltac:(lia)) as Hm.
    set (q := Zpos P / 4503599627370496) in *.
    set (rem := Zpos P mod 4503599627370496) in *.
    assert (HR53 : R < 2 ^ 53)
      by (change (2 ^ 53) with 9007199254740992; lia).
    rewrite (binary_round_aux_shift P 52 (d - 53 + -55) HdP ltac:(lia) HR53).
    change (Pos.to_nat 52) with 52%nat. fold R.
    assert (HRpos : 0 < R) by lia.
    destruct (d - 53 + -55 + 52) as [|t|t] eqn:Et; try lia.
    destruct R as [|Rp|Rp] eqn:ER; try lia. cbn [Z.to_pos].
    rewrite to_int_shift. f_equal.
    replace (Zpos t) with (53 - d + 3) by lia. rewrite Ht by lia.
    change (2 ^ 3) with 8.
    symmetry. apply (Z.div_unique _ _ _ (Zpos Rp - 8 * w)).
    + left. assert (Hup : Zpos Rp = q + 1 -> 2251799813685248 <= rem)
        by exact Rup.
      destruct (Z.eq_dec (Zpos Rp) (q + 1)) as [E|E];
        [specialize (Hup E)|]; lia.
    + fold k. unfold w. ring.
  - (* 106 bits: shift by 53 *)
    assert (HdP : Zpos (digits2_pos P) = 53 + 53).
    { apply digits2_pos_unique. change (53 + 53 - 1) with 105.
      change (53 + 53) with 106.
      change (2 ^ 106) with 81129638414606681695789005144064.
      split; [exact H105|lia]. }
    change (2 ^ 105) with 40564819207303340847894502572032 in H105.
    pose proof (round_steps_bounds (Zpos P) 52 ltac:(lia)) as [[Rlo Rhi] Rup].
    change (Z.of_nat 53) with 53 in *. change (Z.of_nat 52) with 52 in *.
    change (2 ^ 53) with 9007199254740992 in *.
    change (2 ^ 52) with 4503599627370496 in *.
    set (R := round_steps (Zpos P) 53) in *.
    pose proof (Z_div_mod_eq_full (Zpos P) 9007199254740992) as Hdm.
    pose proof (Z.mod_pos_bound (Zpos P) 9007199254740992 ltac:(lia)) as Hm.
    set (q := Zpos P / 9007199254740992) in *.
    set (rem := Zpos P mod 9007199254740992) in *.
    assert (HR53 : R < 9007199254740992) by lia.
    rewrite (binary_round_aux_shift P 53 (d - 53 + -55) HdP ltac:(lia) HR53).
    change (Pos.to_nat 53) with 53%nat. fold R.
    assert (HRpos : 0 < R) by lia.
    destruct (d - 53 + -55 + 53) as [|t|t] eqn:Et; try lia.
    destruct R as [|Rp|Rp] eqn:ER; try lia. cbn [Z.to_pos].
    rewrite to_int_shift. f_equal.
    replace (Zpos t) with (53 - d + 2) by lia. rewrite Ht by lia.
    change (2 ^ 2) with 4.
    symmetry. apply (Z.div_unique _ _ _ (Zpos Rp - 4 * w)).
    + left. assert (Hup : Zpos Rp = q + 1 -> 4503599627370496 <= rem)
        by exact Rup.
      assert (HA2 : A = 1 \/ 2 <= A) by lia.
      destruct (Z.eq_dec (Zpos Rp) (q + 1)) as [E|E];
        [specialize (Hup E)|]; destruct HA2 as [HA2|HA2];
        try specialize (HA1 HA2); lia.
    + fold k. unfold w. ring.
Qed.


(** C2 (amended): with a positive integer damage below 3 * 2^51 =
    6755399441055744, a hit flagged blocked on a blocking defender takes
    [max(1, floor(dmg / 5))] off the health (the binary64 product
    [dmg * 0.2] of the program truncates to the exact floor there; a blocked
    kick of 12 deals 2, a blocked punch of 8 deals 1); any other hit takes
    the full damage; in both cases the health is then clamped into
    [0, max_hp]. *)
Theorem receive_hit_damage :
  forall (f : Fighter) (dmg direction : Z) (blocked : bool),
    0 < dmg < 6755399441055744 ->
    (exists f',
       receive_hit f dmg direction blocked = Some f'
       /\ hp f'
          = clamp (hp f - (if blocking f && blocked
                           then Z.max 1 (dmg / 5) else dmg))
              0 (max_hp f))
    /\ chip_floor dmg = Some (dmg / 5)
    /\ Z.max 1 (KICK_DMG / 5) = 2 /\ Z.max 1 (PUNCH_DMG / 5) = 1.
Proof.
  intros f dmg direction blocked Hdmg.
  pose proof (chip_floor_exact dmg Hdmg) as Hq.
  split; [|split; [exact Hq|split; reflexivity]].
  destruct (blocking f && blocked) eqn:Hb.
  - destruct (receive_hit_blocked f dmg direction _ blocked Hb Hq)
      as [f' [E [Hhp _]]]. eauto.
  - destruct (receive_hit_unblocked f dmg direction blocked Hb)
      as [f' [E [Hhp _]]]. eauto.
Qed.

(** A blocking fighter takes a blocked kick: 100 - 2 = 98. *)
Lemma receive_hit_damage_witness :
  exists f',
    receive_hit (set_blocking (new_fighter 200 1 Name_p1) true) 12 1 true
    = Some f'
    /\ hp f' = 98.
Proof.
  destruct (receive_hit_damage
              (set_blocking (new_fighter 200 1 Name_p1) true) 12 1 true)
    as [[f' [E Hhp]] _]; [lia|].
  exists f'. split; [exact E|]. rewrite Hhp. vm_compute. reflexivity.
Defined.

(** C2 (as stated) fails: at a damage of 3 * 2^51 the binary64 product
    [dmg * 0.2] is rounded up to the next integer, and the blocked hit takes
    1351079888211149, one more than [max(1, floor(dmg / 5))]; on a blocking
    fighter with health to spare the difference shows after the clamp. *)
Lemma chip_damage_above_floor :
  Z.max 1 (6755399441055744 / 5) = 1351079888211148
  /\ chip_floor 6755399441055744 = Some 1351079888211149
  /\ exists f',
       receive_hit sturdy_blocker 6755399441055744 1 true = Some f'
       /\ hp sturdy_blocker = 2000000000000000
       /\ hp f' = 2000000000000000 - 1351079888211149
       /\ clamp (hp sturdy_blocker - Z.max 1 (6755399441055744 / 5)) 0
            (max_hp sturdy_blocker)
          = 2000000000000000 - 1351079888211148.
Proof.
  split; [reflexivity|]. split; [vm_compute; reflexivity|].
  eexists. split; [vm_compute; reflexivity|].
  split; [reflexivity|]. split; vm_compute; reflexivity.
Qed.

(** C3: along every sequence of [receive_hit] calls on a fighter (whose
    [max_hp] is not negative; it is 100 from [__init__] on), the health after
    each call lies in [0, max_hp]; the calls all return when their damages
    are between 1 and 10000. *)
Theorem receive_hits_health_range :
  forall (f : Fighter) (hits : list (Z * Z * bool)),
    0 <= max_hp f ->
    (forall fs, receive_hits f hits = Some fs ->
       length fs = length hits
       /\ Forall (fun f' => 0 <= hp f' <= max_hp f' /\ max_hp f' = max_hp f) fs)
    /\ (Forall (fun hit => 1 <= fst (fst hit) <= 10000) hits ->
        exists fs, receive_hits f hits = Some fs).
Proof.
  intros f hits. revert f.
  induction hits as [|[[dmg direction] blocked] tl IH]; intros f Hmax.
  - split.
    + intros fs H. injection H as <-. split; [reflexivity|constructor].
    + intros _. exists []. reflexivity.
  - split.
    + intros fs H. cbn [receive_hits] in H.
      destruct (receive_hit f dmg direction blocked) as [f'|] eqn:E;
        [|discriminate].
      cbn [bind] in H.
      destruct (receive_hit_hp _ _ _ _ _ E) as [Hm [v Hv]].
      destruct (receive_hits f' tl) as [fs'|] eqn:E'; [|discriminate].
      cbn [bind] in H. injection H as <-.
      destruct (IH f') as [IH1 _]; [lia|].
      destruct (IH1 fs' E') as [Hlen Hall].
      split; [cbn; lia|].
      constructor.
      * split; [|assumption]. rewrite Hv, Hm. apply clamp_range. lia.
      * eapply Forall_impl; [|exact Hall].
        cbn. intros a [Ha1 Ha2]. split; [assumption|congruence].
    + intros Hall. inversion Hall as [|x l Hd Htl]; subst. cbn in Hd.
      assert (E : exists f', receive_hit f dmg direction blocked = Some f'
                             /\ max_hp f' = max_hp f).
      { destruct (blocking f && blocked) eqn:Hb.
        - destruct (receive_hit_blocked f dmg direction (dmg / 5) blocked Hb)
            as [f' [E [_ Hm]]]; [apply chip_floor_small; lia|eauto].
        - destruct (receive_hit_unblocked f dmg direction blocked Hb)
            as [f' [E [_ Hm]]]; eauto. }
      destruct E as [f' [E Hm]].
      destruct (IH f') as [_ IH2]; [lia|].
      destruct (IH2 Htl) as [fs' E'].
      exists (f' :: fs'). cbn [receive_hits]. rewrite E. cbn [bind].
      rewrite E'. reflexivity.
Qed.

(** A knock-out blow leaves the health at 0, not below. *)
Lemma receive_hits_health_range_witness :
  exists fs,
    receive_hits (new_fighter 200 1 Name_p1) [(60, 1, false); (60, 1, false)]
    = Some fs
    /\ Forall (fun f' => 0 <= hp f' <= max_hp f' /\ max_hp f' = 100) fs.
Proof.
  destruct (receive_hits_health_range (new_fighter 200 1 Name_p1)
              [(60, 1, false); (60, 1, false)]) as [H1 H2];
    [vm_compute; discriminate|].
  destruct H2 as [fs E].
  - repeat constructor; cbn; lia.
  - exists fs. split; [exact E|]. exact (proj2 (H1 fs E)).
Defined.

(** *** Attack timing *)

Lemma attack_steps_no_intent (keys : Keys) (f : Fighter) (k : AttackKind) :
  attack_intent keys (name f) = false ->
  attack_type f = Some k ->
  attack_state (advance_attack_timer (attacks keys f)) =
  if attack_timer f + 1 >=? end_frame k
  then (None, 0, 7, hitstop f, hit_this_attack f)
  else (Some k, attack_timer f + 1,
        (if attack_cooldown f >? 0 then attack_cooldown f - 1
         else attack_cooldown f),
        hitstop f, hit_this_attack f).
Proof.
  unfold attack_intent. intros Hi Hk.
  apply orb_false_iff in Hi. destruct Hi as [Hp Hq].
  unfold attacks. rewrite Hp, Hq.
  unfold advance_attack_timer, attack_state. rewrite Hk. cbn.
  destruct (attack_timer f + 1 >=? end_frame k); cbn; [reflexivity|].
  destruct (attack_cooldown f >? 0); cbn; rewrite ?Hk; reflexivity.
Qed.

(** A press that passes the guard of [start_attack]: the pressed attack is
    set, with the timer at 1 after the advance of the same [update]. *)
Lemma attack_steps_restart (keys : Keys) (f : Fighter) :
  attack_intent keys (name f) = true ->
  attack_cooldown f <= 0 -> hitstop f <= 0 ->
  attack_state (advance_attack_timer (attacks keys f))
  = (Some (if punch_pressed keys (name f) then punch else kick), 1, 0,
     hitstop f, false).
Proof.
  unfold attack_intent. intros Hi Hc Hh.
  unfold attacks, start_attack.
  rewrite (gtb_false _ _ Hc), (gtb_false _ _ Hh). cbn [orb].
  destruct (punch_pressed keys (name f)) eqn:Hp.
  - unfold advance_attack_timer, attack_state. reflexivity.
  - cbn [orb] in Hi. rewrite Hi.
    unfold advance_attack_timer, attack_state. reflexivity.
Qed.

Lemma attack_timer_run :
  forall (b : Rect) (inputs : list (Keys * Fighter)) (f f' : Fighter)
         (k : AttackKind),
    attack_type f = Some k ->
    hitstop f <= 0 ->
    Forall (fun i => attack_intent (fst i) (name f) = false) inputs ->
    update_ticks b inputs f = Some f' ->
    (attack_timer f + Z.of_nat (length inputs) < end_frame k ->
     attack_type f' = Some k
     /\ attack_timer f' = attack_timer f + Z.of_nat (length inputs))
    /\ (attack_timer f + Z.of_nat (length inputs) = end_frame k ->
        inputs <> [] ->
        attack_type f' = None /\ attack_timer f' = 0
        /\ attack_cooldown f' = 7).
Proof.
  intros b inputs. induction inputs as [|[keys opp] tl IH];
    intros f f' k Hk Hh Hall Hrun.
  - cbn in Hrun. injection Hrun as <-. cbn [length Z.of_nat].
    rewrite Z.add_0_r. split; [tauto|]. intros _ Hne. now elim Hne.
  - cbn [update_ticks] in Hrun.
    destruct (update keys f opp b) as [[f1 o1]|] eqn:Eu; [|discriminate].
    cbn [bind] in Hrun.
    inversion Hall as [|x l Hi Htl]; subst. cbn [fst] in Hi.
    destruct (update_frame _ _ _ _ _ _ Eu) as (Bf & _ & _ & _ & _ & Ha).
    assert (Hh' : (hitstop f >? 0) = false) by (apply gtb_false; lia).
    rewrite Hh', (attack_steps_no_intent keys f k Hi Hk) in Ha.
    assert (Hn : name f1 = name f) by apply Bf.
    cbn [length]. rewrite Nat2Z.inj_succ.
    destruct (attack_timer f + 1 >=? end_frame k) eqn:Hend;
      unfold attack_state in Ha; injection Ha as Ht Htm Hc Hs Hf.
    + rewrite Z.geb_leb in Hend. apply Z.leb_le in Hend.
      split; [intros; lia|].
      intros Heq _.
      assert (tl = []) by (destruct tl; [reflexivity|cbn in Heq; lia]).
      subst tl. cbn in Hrun. injection Hrun as <-. auto.
    + rewrite Z.geb_leb in Hend. apply Z.leb_gt in Hend.
      destruct (IH f1 f' k Ht) as [IH1 IH2]; try assumption.
      * lia.
      * eapply Forall_impl; [|exact Htl]. cbn. intros a. now rewrite Hn.
      * rewrite Htm in IH1, IH2.
        split.
        -- intros Hlt. destruct IH1 as [I1 I2]; [lia|]. split; [exact I1|lia].
        -- intros Heq _. apply IH2; [lia|].
           destruct tl; [cbn in Heq; lia|discriminate].
Qed.

(** C5 (amended): along ticks of [update] with the fighter out of hitstop and
    no punch or kick pressed, the timer of a set attack goes up by one each
    tick while it stays below the total duration of the move (punch 14, kick
    18); at the tick it reaches the duration the attack is cleared, the timer
    is back at 0 and the cooldown is set (to 8, already 7 when the tick
    ends).  A punch or kick pressed on a tick where the fighter is out of
    hitstop and its cooldown is 0 starts the pressed attack anew, also when
    an attack is already set: the tick ends with that attack set (the punch
    when both are pressed), the timer at 1 and [hit_this_attack] false. *)
Theorem attack_timer_progress :
  (forall (b : Rect) (inputs : list (Keys * Fighter)) (f f' : Fighter)
          (k : AttackKind),
     attack_type f = Some k ->
     hitstop f <= 0 ->
     Forall (fun i => attack_intent (fst i) (name f) = false) inputs ->
     update_ticks b inputs f = Some f' ->
     (attack_timer f + Z.of_nat (length inputs) < end_frame k ->
      attack_type f' = Some k
      /\ attack_timer f' = attack_timer f + Z.of_nat (length inputs))
     /\ (attack_timer f + Z.of_nat (length inputs) = end_frame k ->
         inputs <> [] ->
         attack_type f' = None /\ attack_timer f' = 0
         /\ attack_cooldown f' = 7))
  /\ (forall (keys : Keys) (f opp f' o' : Fighter) (b : Rect),
        hitstop f <= 0 ->
        attack_cooldown f <= 0 ->
        attack_intent keys (name f) = true ->
        update keys f opp b = Some (f', o') ->
        attack_type f'
        = Some (if punch_pressed keys (name f) then punch else kick)
        /\ attack_timer f' = 1
        /\ attack_cooldown f' = 0
        /\ hit_this_attack f' = false).
Proof.
  split; [exact attack_timer_run|].
  intros keys f opp f' o' b Hh Hc Hi Hu.
  destruct (update_frame _ _ _ _ _ _ Hu) as (_ & _ & _ & _ & _ & Ha).
  rewrite (gtb_false _ _ Hh) in Ha.
  rewrite (attack_steps_restart keys f Hi Hc Hh) in Ha.
  unfold attack_state in Ha. injection Ha as A1 A2 A3 _ A5.
  repeat split; assumption.
Qed.

(** A punch started and left alone for thirteen more ticks ends on the
    fourteenth. *)
Lemma attack_timer_progress_witness :
  exists f',
    update_ticks (mkRect 40 0 920 560)
      (repeat (no_keys, new_fighter 740 (-1) Name_p2) 14)
      (set_attack_type (new_fighter 200 1 Name_p1) (Some punch)) = Some f'
    /\ attack_type f' = None /\ attack_timer f' = 0 /\ attack_cooldown f' = 7.
Proof.
  assert (E : exists f',
    update_ticks (mkRect 40 0 920 560)
      (repeat (no_keys, new_fighter 740 (-1) Name_p2) 14)
      (set_attack_type (new_fighter 200 1 Name_p1) (Some punch)) = Some f').
  { eexists. vm_compute. reflexivity. }
  destruct E as [f' E]. exists f'. split; [exact E|].
  refine (proj2 (proj1 attack_timer_progress _ _ _ f' punch _ _ _ E) _ _).
  - reflexivity.
  - vm_compute. discriminate.
  - repeat constructor.
  - reflexivity.
  - discriminate.
Defined.

(** C5 (as stated) fails: four ticks into a punch, a second press of punch
    restarts the same attack, and the timer falls from 4 to 1 while
    [attack_type] stays set to the punch. *)
Lemma attack_timer_reset_by_second_press :
  exists g f' o',
    run_ticks punch_then_wait new_game = Some g
    /\ attack_type (p1 g) = Some punch
    /\ attack_timer (p1 g) = 4
    /\ hitstop (p1 g) = 0
    /\ update (hold [K_j]) (p1 g) (p2 g) (bounds g) = Some (f', o')
    /\ attack_type f' = Some punch
    /\ attack_timer f' = 1.
Proof.
  eexists. eexists. eexists.
  split; [vm_compute; reflexivity|].
  split; [reflexivity|]. split; [reflexivity|]. split; [reflexivity|].
  split; [vm_compute; reflexivity|].
  split; reflexivity.
Qed.

(** *** Staying in the arena *)

(** The integration step of [update] leaves the fighter inside the
    horizontal bounds and its feet on or above the ground. *)
Lemma move_and_collide_in_arena (f f' : Fighter) (b : Rect) :
  rw (rect f) <= rw b ->
  move_and_collide f b = Some f' ->
  RectOps.left b <= RectOps.left (rect f')
  /\ RectOps.right (rect f') <= RectOps.right b
  /\ RectOps.bottom (rect f') <= GROUND_Y.
Proof.
  unfold move_and_collide. intros Hw H.
  destruct (F64.to_int _) as [x|]; [|discriminate]. cbn [bind] in H.
  destruct (F64.to_int _) as [y|]; [|discriminate]. cbn [bind] in H.
  injection H as <-.
  rect_ops. repeat (break_if; rect_ops); prop_tests; lia.
Qed.

(** C4 fails on the code: the push-apart step and the pushback of
    [receive_hit] move a fighter after (or without) the clamp to the bounds.
    With both players walking right, player 2 stands at the right wall
    (right edge 960) when player 1 runs into it; the tick ends with player
    2's right edge at 962.  A hit taken at the wall pushes the fighter to
    right edge 967. *)
Theorem fighter_pushed_out_of_arena :
  (exists g,
     run_ticks both_walk_right new_game = Some g
     /\ RectOps.right (bounds g) = 960
     /\ RectOps.right (rect (p2 g)) = 962)
  /\ (exists f',
        receive_hit (new_fighter 904 (-1) Name_p2) PUNCH_DMG 1 false = Some f'
        /\ RectOps.right (rect (new_fighter 904 (-1) Name_p2)) = 960
        /\ RectOps.right (rect f') = 967).
Proof.
  split.
  - eexists. split; [vm_compute; reflexivity|]. split; reflexivity.
  - eexists. split; [vm_compute; reflexivity|]. split; reflexivity.
Qed.

(** *** Overlap resolution *)

Lemma colliderect_pos (a b : Rect) :
  0 < rw a -> 0 < rh a -> 0 < rw b -> 0 < rh b ->
  RectOps.colliderect a b = true <->
  (rx a < rx b + rw b /\ rx b < rx a + rw a
   /\ ry a < ry b + rh b /\ ry b < ry a + rh a).
Proof.
  intros Ha1 Ha2 Hb1 Hb2. unfold RectOps.colliderect.
  assert (E : (rw a =? 0) || (rh a =? 0) || (rw b =? 0) || (rh b =? 0) = false).
  { repeat (apply orb_false_iff; split); apply Z.eqb_neq; lia. }
  rewrite E. rewrite !andb_true_iff, !Z.ltb_lt, !Z.gtb_ltb, !Z.ltb_lt. lia.
Qed.

Lemma colliderect_sym (a b : Rect) :
  RectOps.colliderect a b = RectOps.colliderect b a.
Proof.
  unfold RectOps.colliderect.
  destruct (rw a =? 0), (rh a =? 0), (rw b =? 0), (rh b =? 0); cbn;
    try reflexivity.
  rewrite !Z.gtb_ltb.
  repeat match goal with
         | |- context [?x <? ?y] =>
             let H := fresh in destruct (x <? y) eqn:H
         end; reflexivity.
Qed.

Lemma clip_axis_overlap (a wa b wb : Z) :
  0 < wa -> 0 < wb -> a < b + wb -> b < a + wa ->
  RectOps.clip_axis a wa b wb
  = Some (Z.max a b, Z.min (a + wa) (b + wb) - Z.max a b).
Proof.
  intros Hwa Hwb H1 H2. unfold RectOps.clip_axis.
  destruct (Z_le_dec b a) as [Hba|Hba].
  - replace ((a >=? b) && (a <? b + wb)) with true
      by (symmetry; apply andb_true_iff; split;
          [rewrite Z.geb_leb; apply Z.leb_le|apply Z.ltb_lt]; lia).
    destruct (Z_le_dec (a + wa) (b + wb)).
    + replace ((a + wa >? b) && (a + wa <=? b + wb)) with true
        by (symmetry; apply andb_true_iff; split;
            [apply gtb_true|apply Z.leb_le]; lia).
      f_equal. f_equal; lia.
    + replace ((a + wa >? b) && (a + wa <=? b + wb)) with false
        by (symmetry; apply andb_false_iff; right; apply Z.leb_gt; lia).
      replace ((b + wb >? a) && (b + wb <=? a + wa)) with true
        by (symmetry; apply andb_true_iff; split;
            [apply gtb_true|apply Z.leb_le]; lia).
      f_equal. f_equal; lia.
  - replace ((a >=? b) && (a <? b + wb)) with false
      by (symmetry; apply andb_false_iff; left; rewrite Z.geb_leb;
          apply Z.leb_gt; lia).
    replace ((b >=? a) && (b <? a + wa)) with true
      by (symmetry; apply andb_true_iff; split;
          [rewrite Z.geb_leb; apply Z.leb_le|apply Z.ltb_lt]; lia).
    destruct (Z_le_dec (a + wa) (b + wb)).
    + replace ((a + wa >? b) && (a + wa <=? b + wb)) with true
        by (symmetry; apply andb_true_iff; split;
            [apply gtb_true|apply Z.leb_le]; lia).
      f_equal. f_equal; lia.
    + replace ((a + wa >? b) && (a + wa <=? b + wb)) with false
        by (symmetry; apply andb_false_iff; right; apply Z.leb_gt; lia).
      replace ((b + wb >? a) && (b + wb <=? a + wa)) with true
        by (symmetry; apply andb_true_iff; split;
            [apply gtb_true|apply Z.leb_le]; lia).
      f_equal. f_equal; lia.
Qed.

(** The intersection of two overlapping rectangles of positive size. *)
Lemma clip_overlap (a b : Rect) :
  0 < rw a -> 0 < rh a -> 0 < rw b -> 0 < rh b ->
  RectOps.colliderect a b = true ->
  RectOps.clip a b
  = mkRect (Z.max (rx a) (rx b)) (Z.max (ry a) (ry b))
      (Z.min (rx a + rw a) (rx b + rw b) - Z.max (rx a) (rx b))
      (Z.min (ry a + rh a) (ry b + rh b) - Z.max (ry a) (ry b)).
Proof.
  intros Ha1 Ha2 Hb1 Hb2 Hc.
  apply colliderect_pos in Hc; try assumption.
  destruct Hc as (X1 & X2 & Y1 & Y2).
  unfold RectOps.clip.
  rewrite (clip_axis_overlap (rx a) (rw a) (rx b) (rw b)) by assumption.
  rewrite (clip_axis_overlap (ry a) (rh a) (ry b) (rh b)) by assumption.
  reflexivity.
Qed.

Lemma apart_or_stacked_sym (a b : Rect) :
  0 < rw a -> 0 < rh a -> 0 < rw b -> 0 < rh b ->
  apart_or_stacked a b -> apart_or_stacked b a.
Proof.
  intros Ha1 Ha2 Hb1 Hb2 [H|H].
  - left. now rewrite colliderect_sym.
  - destruct (RectOps.colliderect a b) eqn:Hc.
    + right. rewrite clip_overlap in H by assumption.
      rewrite clip_overlap by (try assumption; now rewrite colliderect_sym).
      cbn [rw rh] in *. lia.
    + left. now rewrite colliderect_sym.
Qed.

(** The push-apart step, case by case. *)
Lemma push_apart_spec (f opp : Fighter) :
  bodies_ok f opp ->
  let ov := RectOps.clip (rect f) (rect opp) in
  let shift := rw ov / 2 + 1 in
  let f' := fst (push_apart f opp) in
  let o' := snd (push_apart f opp) in
  (RectOps.colliderect (rect f) (rect opp) = true -> rw ov < rh ov ->
   RectOps.colliderect (rect f') (rect o') = false
   /\ 0 < rw ov
   /\ ((rx (rect f') = rx (rect f) - shift
        /\ rx (rect o') = rx (rect opp) + shift)
       \/ (rx (rect f') = rx (rect f) + shift
           /\ rx (rect o') = rx (rect opp) - shift))
   /\ ry (rect f') = ry (rect f) /\ ry (rect o') = ry (rect opp))
  /\ (RectOps.colliderect (rect f) (rect opp) = false \/ rh ov <= rw ov ->
      f' = f /\ o' = opp).
Proof.
  intros (Hw & Hh & Hho & Hwo) ov shift f' o'.
  assert (Hwo' : 0 < rw (rect opp)) by lia.
  split.
  - intros Hc Hlt.
    pose proof (clip_overlap _ _ Hw Hh Hwo' Hho Hc) as Hov.
    fold ov in Hov.
    pose proof (proj1 (colliderect_pos _ _ Hw Hh Hwo' Hho) Hc)
      as (X1 & X2 & Y1 & Y2).
    assert (Hrw : rw ov = Z.min (rx (rect f) + rw (rect f))
                            (rx (rect opp) + rw (rect opp))
                          - Z.max (rx (rect f)) (rx (rect opp)))
      by (rewrite Hov; reflexivity).
    assert (Hs : rw ov <= 2 * shift - 1 /\ 2 * shift <= rw ov + 2).
    { unfold shift. pose proof (Z.div_mod (rw ov) 2 ltac:(lia)).
      pose proof (Z.mod_pos_bound (rw ov) 2 ltac:(lia)). lia. }
    assert (Hcx : (RectOps.centerx (rect f) <? RectOps.centerx (rect opp))
                  = (rx (rect f) <? rx (rect opp))).
    { unfold RectOps.centerx. rewrite Hwo.
      destruct (rx (rect f) <? rx (rect opp)) eqn:E.
      - apply Z.ltb_lt. apply Z.ltb_lt in E. lia.
      - apply Z.ltb_ge. apply Z.ltb_ge in E. lia. }
    subst f' o'. unfold push_apart. rewrite Hc. fold ov.
    replace (rw ov <? rh ov) with true by (symmetry; apply Z.ltb_lt; lia).
    rewrite Hcx. fold shift. clear Hcx Hc.
    destruct (rx (rect f) <? rx (rect opp)) eqn:E; rect_ops; prop_tests;
      (split;
       [match goal with
        | |- RectOps.colliderect ?a ?b = false =>
            destruct (RectOps.colliderect a b) eqn:Hc';
            [exfalso; apply colliderect_pos in Hc'; cbn [rx ry rw rh] in *; lia
            |reflexivity]
        end|]).
    + split; [lia|split; [left; split; reflexivity|split; reflexivity]].
    + split; [lia|split; [right; split; reflexivity|split; reflexivity]].
  - intros Hno. subst f' o'. unfold push_apart.
    destruct (RectOps.colliderect (rect f) (rect opp)) eqn:Hc.
    + destruct Hno as [Hno|Hno]; [discriminate|]. fold ov.
      replace (rw ov <? rh ov) with false by (symmetry; apply Z.ltb_ge; lia).
      split; reflexivity.
    + split; reflexivity.
Qed.

Lemma bodies_ok_same (f opp f' o' : Fighter) :
  same_body f f' -> same_body opp o' -> bodies_ok f opp -> bodies_ok f' o'.
Proof.
  unfold same_body, bodies_ok.
  intros (_ & _ & A & B & _) (_ & _ & C & D & _) (H1 & H2 & H3 & H4).
  rewrite A, B, C, D. auto.
Qed.

Lemma bodies_ok_sym (f opp : Fighter) : bodies_ok f opp -> bodies_ok opp f.
Proof. unfold bodies_ok. intros (H1 & H2 & H3 & H4). rewrite H4. auto. Qed.

Lemma push_apart_apart_or_stacked (f opp : Fighter) :
  bodies_ok f opp ->
  apart_or_stacked (rect (fst (push_apart f opp)))
    (rect (snd (push_apart f opp))).
Proof.
  intros Hb. destruct (push_apart_spec f opp Hb) as [Hpush Hkeep].
  destruct (RectOps.colliderect (rect f) (rect opp)) eqn:Hc.
  - destruct (Z_lt_dec (rw (RectOps.clip (rect f) (rect opp)))
                (rh (RectOps.clip (rect f) (rect opp)))) as [Hlt|Hge].
    + left. apply Hpush; [reflexivity|assumption].
    + destruct Hkeep as [-> ->]; [right; lia|]. right. lia.
  - destruct Hkeep as [-> ->]; [left; reflexivity|]. left. assumption.
Qed.

(** After the [update] of a fighter out of hitstop, the two rectangles are
    apart or stacked. *)
Lemma update_apart_or_stacked (keys : Keys) (f opp f' o' : Fighter) (b : Rect) :
  bodies_ok f opp -> hitstop f <= 0 ->
  update keys f opp b = Some (f', o') ->
  apart_or_stacked (rect f') (rect o').
Proof.
  intros Hb Hh H. unfold update in H.
  rewrite (gtb_false _ _ Hh) in H.
  destruct (move_and_collide _ b) as [fm|] eqn:Em; [|discriminate].
  cbn [bind] in H.
  rewrite (surjective_pairing (push_apart fm opp)) in H.
  injection H as <- <-.
  apply push_apart_apart_or_stacked.
  apply (bodies_ok_same f opp); [|apply same_body_refl|assumption].
  destruct (move_and_collide_frame _ _ _ Em) as [Bm _].
  eapply same_body_trans; [|exact Bm].
  eapply same_body_trans; [apply (face_opponent_frame f opp)|].
  eapply same_body_trans; [apply basic_movement_frame|].
  eapply same_body_trans; [apply attacks_frame|].
  eapply same_body_trans; [apply advance_attack_timer_frame|].
  apply apply_gravity_frame.
Qed.

Lemma update_frozen (keys : Keys) (f opp : Fighter) (b : Rect) :
  0 < hitstop f ->
  update keys f opp b = Some (set_hitstop f (hitstop f - 1), opp).
Proof. intros H. unfold update. now rewrite (gtb_true _ _ H). Qed.

(** X19: what the push-apart step of [update] does.  When the rectangles of
    the two fighters (same width) overlap with an overlap narrower than
    tall, the step moves both horizontally, in opposite directions, by half
    the overlap width plus one each, and they no longer overlap; an overlap
    at least as wide as tall is left as it is.  So after the two [update]
    calls of a tick, unless both fighters were in hitstop, the rectangles
    are apart or share an area at least as wide as tall. *)
Theorem push_apart_resolution :
  (forall f opp : Fighter,
     bodies_ok f opp ->
     RectOps.colliderect (rect f) (rect opp) = true ->
     let ov := RectOps.clip (rect f) (rect opp) in
     let shift := rw ov / 2 + 1 in
     let f' := fst (push_apart f opp) in
     let o' := snd (push_apart f opp) in
     (rw ov < rh ov ->
      RectOps.colliderect (rect f') (rect o') = false
      /\ ((rx (rect f') = rx (rect f) - shift
           /\ rx (rect o') = rx (rect opp) + shift)
          \/ (rx (rect f') = rx (rect f) + shift
              /\ rx (rect o') = rx (rect opp) - shift))
      /\ ry (rect f') = ry (rect f) /\ ry (rect o') = ry (rect opp))
     /\ (rh ov <= rw ov -> f' = f /\ o' = opp))
  /\ (forall (keys : Keys) (g g' : Game),
        bodies_ok (p1 g) (p2 g) ->
        hitstop (p1 g) <= 0 \/ hitstop (p2 g) <= 0 ->
        update_fighters keys g = Some g' ->
        apart_or_stacked (rect (p1 g')) (rect (p2 g'))).
Proof.
  split.
  - intros f opp Hb Hc ov shift f' o'.
    destruct (push_apart_spec f opp Hb) as [Hpush Hkeep].
    split.
    + intros Hlt. destruct (Hpush Hc Hlt) as (A & _ & B & C & D). auto.
    + intros Hge. apply Hkeep. right. exact Hge.
  - intros keys g g' Hb Hh H. unfold update_fighters in H.
    destruct (update keys (p1 g) (p2 g) (bounds g)) as [[a b]|] eqn:E1;
      [|discriminate].
    cbn [bind] in H. fields.
    destruct (update keys b a (bounds g)) as [[b' a']|] eqn:E2;
      [|discriminate].
    cbn [bind] in H. injection H as <-. fields.
    destruct (update_frame _ _ _ _ _ _ E1) as (B1 & B2 & _ & _ & A2 & _).
    assert (Hb' : bodies_ok a b) by (apply (bodies_ok_same _ _ _ _ B1 B2 Hb)).
    assert (Hs2 : hitstop b = hitstop (p2 g))
      by (unfold attack_state in A2; congruence).
    destruct (Z_le_dec (hitstop b) 0) as [Hle|Hgt].
    + destruct (update_frame _ _ _ _ _ _ E2) as (C1 & C2 & _).
      pose proof (bodies_ok_same _ _ _ _ C1 C2 (bodies_ok_sym _ _ Hb')) as Hb''.
      destruct Hb'' as (W1 & W2 & W3 & W4).
      apply apart_or_stacked_sym; try lia.
      apply (update_apart_or_stacked keys b a b' a' (bounds g));
        [apply bodies_ok_sym|..]; assumption.
    + rewrite update_frozen in E2 by lia. injection E2 as <- <-. fields.
      apply (update_apart_or_stacked keys (p1 g) (p2 g) a b (bounds g));
        [assumption|lia|assumption].
Qed.

(** Two fighters created overlapping by 6, both out of hitstop: the tick
    ends with them apart. *)
Lemma push_apart_resolution_witness :
  exists g',
    update_fighters no_keys
      (set_p2 (set_freeze_timer new_game 0) (new_fighter 250 (-1) Name_p2))
    = Some g'
    /\ apart_or_stacked (rect (p1 g')) (rect (p2 g')).
Proof.
  assert (E : exists g',
    update_fighters no_keys
      (set_p2 (set_freeze_timer new_game 0) (new_fighter 250 (-1) Name_p2))
    = Some g') by (eexists; vm_compute; reflexivity).
  destruct E as [g' E]. exists g'. split; [exact E|].
  refine (proj2 push_apart_resolution no_keys _ g' _ _ E).
  - unfold bodies_ok. cbn. lia.
  - left. cbn. lia.
Defined.

(** C7 fails on the code: the step under the comment "Prevent overlapping
    fighters" pushes only when the overlap is narrower than tall.  Player 1,
    jumping forward, comes down on player 2; after the two [update] calls of
    the tick the rectangles overlap, over an area 8 wide and 4 tall, and no
    push was applied. *)
Theorem landing_leaves_overlap :
  exists g g',
    run_ticks jump_onto_opponent new_game = Some g
    /\ hitstop (p1 g) = 0 /\ hitstop (p2 g) = 0
    /\ update_fighters (hold [K_d; K_w]) g = Some g'
    /\ RectOps.colliderect (rect (p1 g')) (rect (p2 g')) = true
    /\ RectOps.clip (rect (p1 g')) (rect (p2 g')) = mkRect 740 372 8 4.
Proof.
  eexists. eexists.
  split; [vm_compute; reflexivity|].
  split; [reflexivity|]. split; [reflexivity|].
  split; [vm_compute; reflexivity|].
  split; vm_compute; reflexivity.
Qed.

(** *** One hit per attack *)

Lemma attack_steps_flag (keys : Keys) (f : Fighter) :
  hit_this_attack (advance_attack_timer (attacks keys f))
  = if attack_intent keys (name f)
       && negb ((attack_cooldown f >? 0) || (hitstop f >? 0))
    then false else hit_this_attack f.
Proof.
  destruct (advance_attack_timer_frame (attacks keys f)) as (_ & _ & _ & _ & ->).
  unfold attacks, attack_intent, start_attack.
  destruct (punch_pressed keys (name f)), (kick_pressed keys (name f)),
    ((attack_cooldown f >? 0) || (hitstop f >? 0)); reflexivity.
Qed.

Lemma update_flag (keys : Keys) (f opp f' o' : Fighter) (b : Rect) :
  update keys f opp b = Some (f', o') ->
  hit_this_attack f'
  = (if starts_attack keys f then false else hit_this_attack f)
  /\ hit_this_attack o' = hit_this_attack opp.
Proof.
  intros H.
  destruct (update_frame _ _ _ _ _ _ H) as (_ & _ & _ & _ & Ao & Af).
  split; [|unfold attack_state in Ao; congruence].
  unfold starts_attack.
  destruct (hitstop f >? 0) eqn:Hh; unfold attack_state in Af.
  - injection Af as _ _ _ _ ->. reflexivity.
  - injection Af as _ _ _ _ ->. rewrite attack_steps_flag, Hh. reflexivity.
Qed.

Lemma receive_hit_frame (f f' : Fighter) (dmg direction : Z) (blocked : bool) :
  receive_hit f dmg direction blocked = Some f' ->
  same_body f f'
  /\ rounds_won f' = rounds_won f
  /\ attack_type f' = attack_type f
  /\ attack_timer f' = attack_timer f
  /\ attack_cooldown f' = attack_cooldown f
  /\ hit_this_attack f' = hit_this_attack f
  /\ hitstop f' = HITSTOP.
Proof.
  unfold receive_hit. intros H.
  destruct (blocking f && blocked).
  - destruct (chip_floor dmg) as [q|]; [|discriminate]. cbn [bind] in H.
    injection H as <-. unfold same_body. repeat break_if; fields; tauto.
  - cbn [bind] in H. injection H as <-.
    unfold same_body. repeat break_if; fields; tauto.
Qed.

Lemma hit_lands_flag (atk dfd : Fighter) :
  hit_lands atk dfd = true -> hit_this_attack atk = false.
Proof.
  unfold hit_lands. destruct (attack_box atk); [|discriminate].
  destruct (hit_this_attack atk); [|reflexivity].
  rewrite andb_false_r. discriminate.
Qed.

Lemma resolve_hit_frame (atk dfd a d : Fighter) :
  resolve_hit atk dfd = Some (a, d) ->
  same_body atk a /\ same_body dfd d
  /\ rounds_won a = rounds_won atk /\ rounds_won d = rounds_won dfd
  /\ hit_this_attack a
     = (if hit_lands atk dfd then true else hit_this_attack atk)
  /\ hit_this_attack d = hit_this_attack dfd
  /\ hp a = hp atk.
Proof.
  unfold resolve_hit. intros H.
  destruct (hit_lands atk dfd).
  - destruct (receive_hit dfd _ _ _) as [d'|] eqn:E; [|discriminate].
    cbn [bind] in H. injection H as <- <-.
    destruct (receive_hit_frame _ _ _ _ _ E) as (B & R & _ & _ & _ & F & _).
    unfold same_body in *. fields. tauto.
  - injection H as <- <-. unfold same_body. tauto.
Qed.

Lemma round_over_frame (g : Game) (wn : option PlayerName) :
  same_body (p1 g) (p1 (round_over g wn))
  /\ same_body (p2 g) (p2 (round_over g wn))
  /\ stale_state (p1 (round_over g wn)) = stale_state (p1 g)
  /\ stale_state (p2 (round_over g wn)) = stale_state (p2 g)
  /\ bounds (round_over g wn) = bounds g
  /\ paused (round_over g wn) = paused g.
Proof.
  unfold round_over, same_body, stale_state.
  destruct wn as [[|]|]; break_if; fields; tauto.
Qed.

Lemma timer_check_frame (dt : F64.float) (g : Game) :
  same_body (p1 g) (p1 (timer_check dt g))
  /\ same_body (p2 g) (p2 (timer_check dt g))
  /\ stale_state (p1 (timer_check dt g)) = stale_state (p1 g)
  /\ stale_state (p2 (timer_check dt g)) = stale_state (p2 g)
  /\ bounds (timer_check dt g) = bounds g
  /\ paused (timer_check dt g) = paused g.
Proof.
  unfold timer_check.
  repeat break_if; fields;
    try apply (round_over_frame (set_round_time g _));
    unfold same_body, stale_state; tauto.
Qed.

Lemma ko_check_frame (g : Game) :
  same_body (p1 g) (p1 (ko_check g))
  /\ same_body (p2 g) (p2 (ko_check g))
  /\ stale_state (p1 (ko_check g)) = stale_state (p1 g)
  /\ stale_state (p2 (ko_check g)) = stale_state (p2 g)
  /\ bounds (ko_check g) = bounds g
  /\ paused (ko_check g) = paused g.
Proof.
  unfold ko_check.
  repeat break_if; try apply round_over_frame;
    unfold same_body, stale_state; tauto.
Qed.

Lemma update_fighters_frame (keys : Keys) (g g1 : Game) :
  update_fighters keys g = Some g1 ->
  same_clock g g1
  /\ same_body (p1 g) (p1 g1) /\ same_body (p2 g) (p2 g1)
  /\ score (p1 g1) = score (p1 g) /\ score (p2 g1) = score (p2 g)
  /\ hit_this_attack (p1 g1)
     = (if starts_attack keys (p1 g) then false else hit_this_attack (p1 g))
  /\ hit_this_attack (p2 g1)
     = (if starts_attack keys (p2 g) then false else hit_this_attack (p2 g)).
Proof.
  unfold update_fighters. intros H.
  destruct (update keys (p1 g) (p2 g) (bounds g)) as [[a b]|] eqn:E1;
    [|discriminate].
  cbn [bind] in H. fields.
  destruct (update keys b a (bounds g)) as [[b' a']|] eqn:E2; [|discriminate].
  cbn [bind] in H. injection H as <-. fields.
  destruct (update_frame _ _ _ _ _ _ E1) as (B1 & B2 & S1 & S2 & A2 & _).
  destruct (update_frame _ _ _ _ _ _ E2) as (C1 & C2 & T1 & T2 & A1 & _).
  destruct (update_flag _ _ _ _ _ _ E1) as [F1 F2].
  destruct (update_flag _ _ _ _ _ _ E2) as [G1 G2].
  split; [unfold same_clock; tauto|].
  split; [eapply same_body_trans; eassumption|].
  split; [eapply same_body_trans; eassumption|].
  split; [congruence|]. split; [congruence|].
  split; [congruence|].
  rewrite G1, F2. unfold starts_attack.
  unfold attack_state in A2. injection A2 as _ _ Hc Hs _.
  destruct B2 as (_ & _ & _ & _ & Hn & _).
  rewrite Hc, Hs, Hn. reflexivity.
Qed.

Lemma handle_hits_frame (g g' : Game) :
  handle_hits g = Some g' ->
  exists a d,
    resolve_hit (p1 g) (p2 g) = Some (a, d)
    /\ same_clock g g'
    /\ same_body (p1 g) (p1 g') /\ same_body (p2 g) (p2 g')
    /\ rounds_won (p1 g') = rounds_won (p1 g)
    /\ rounds_won (p2 g') = rounds_won (p2 g)
    /\ hit_this_attack (p1 g')
       = (if hit_lands (p1 g) (p2 g) then true else hit_this_attack (p1 g))
    /\ hit_this_attack (p2 g')
       = (if hit_lands d a then true else hit_this_attack (p2 g)).
Proof.
  unfold handle_hits. intros H.
  destruct (resolve_hit (p1 g) (p2 g)) as [[a d]|] eqn:E1; [|discriminate].
  cbn [bind] in H. fields.
  destruct (resolve_hit d a) as [[a' d']|] eqn:E2; [|discriminate].
  cbn [bind] in H. injection H as <-. fields.
  destruct (resolve_hit_frame _ _ _ _ E1) as (B1 & B2 & R1 & R2 & F1 & F2 & _).
  destruct (resolve_hit_frame _ _ _ _ E2) as (C1 & C2 & T1 & T2 & G1 & G2 & _).
  exists a, d. split; [reflexivity|].
  split; [unfold same_clock; tauto|].
  split; [eapply same_body_trans; eassumption|].
  split; [eapply same_body_trans; eassumption|].
  split; [congruence|]. split; [congruence|]. split; [congruence|].
  rewrite G1, F2. reflexivity.
Qed.

(** What one tick does to [hit_this_attack], in terms of its events. *)
Lemma tick_flags (keys : Keys) (dt : F64.float) (g g' : Game) (e : Events) :
  tick_events keys g = Some e ->
  game_update keys dt g = Some g' ->
  (hit_this_attack (p1 g')
   = (if hit_p1 e then true
      else if start_p1 e then false else hit_this_attack (p1 g))
   /\ (hit_p1 e = true -> start_p1 e = true \/ hit_this_attack (p1 g) = false))
  /\ (hit_this_attack (p2 g')
      = (if hit_p2 e then true
         else if start_p2 e then false else hit_this_attack (p2 g))
      /\ (hit_p2 e = true ->
          start_p2 e = true \/ hit_this_attack (p2 g) = false)).
Proof.
  unfold tick_events, game_update. intros He Hg.
  destruct (in_combat g).
  - destruct (update_fighters keys g) as [g1|] eqn:E1; [|discriminate].
    cbn [bind] in He, Hg.
    destruct (handle_hits g1) as [g2|] eqn:E2; [|discriminate].
    cbn [bind] in Hg. injection Hg as <-.
    destruct (handle_hits_frame _ _ E2)
      as (a & d & Er & _ & _ & _ & _ & _ & F1 & F2).
    rewrite Er in He. cbn [bind] in He. injection He as <-.
    cbn [hit_p1 hit_p2 start_p1 start_p2].
    destruct (update_fighters_frame _ _ _ E1) as (_ & _ & _ & _ & _ & U1 & U2).
    destruct (ko_check_frame (timer_check dt g2)) as (_ & _ & K1 & K2 & _).
    destruct (timer_check_frame dt g2) as (_ & _ & T1 & T2 & _).
    unfold stale_state in K1, K2, T1, T2.
    injection K1 as _ _ _ K1. injection K2 as _ _ _ K2.
    injection T1 as _ _ _ T1. injection T2 as _ _ _ T2.
    rewrite K1, K2, T1, T2, F1, F2, U1, U2.
    split; (split; [reflexivity|]).
    + intros Hl. apply hit_lands_flag in Hl. rewrite U1 in Hl.
      destruct (starts_attack keys (p1 g)); auto.
    + intros Hl. apply hit_lands_flag in Hl.
      destruct (resolve_hit_frame _ _ _ _ Er) as (_ & _ & _ & _ & _ & Fd & _).
      rewrite Fd, U2 in Hl.
      destruct (starts_attack keys (p2 g)); auto.
  - injection He as <-. injection Hg as <-.
    cbn [hit_p1 hit_p2 start_p1 start_p2].
    destruct (freeze_timer g >? 0); fields;
      (split; (split; [reflexivity|discriminate])).
Qed.

Lemma count_cons (p : Events -> bool) (e : Events) (es : list Events) :
  count p (e :: es) = (if p e then 1 else 0) + count p es.
Proof.
  unfold count. cbn [filter]. destruct (p e); cbn [length]; lia.
Qed.

Lemma hits_bounded_by_starts :
  forall (inputs : list (Keys * F64.float)) (g g' : Game) (es : list Events),
    run_events inputs g = Some (g', es) ->
    (count hit_p1 es + pending (p1 g') <= count start_p1 es + pending (p1 g)
     /\ count hit_p2 es + pending (p2 g') <= count start_p2 es + pending (p2 g))
    /\ 0 <= pending (p1 g') /\ 0 <= pending (p2 g')
    /\ pending (p1 g) <= 1 /\ pending (p2 g) <= 1
    /\ run_ticks inputs g = Some g'.
Proof.
  intros inputs. induction inputs as [|[keys dt] tl IH]; intros g g' es H.
  - cbn in H. injection H as <- <-. unfold count, pending. cbn.
    destruct (hit_this_attack (p1 g)), (hit_this_attack (p2 g));
      repeat split; try lia.
  - cbn [run_events] in H.
    destruct (tick_events keys g) as [e|] eqn:Ee; [|discriminate].
    cbn [bind] in H.
    destruct (game_update keys dt g) as [g1|] eqn:Eg; [|discriminate].
    cbn [bind] in H.
    destruct (run_events tl g1) as [[g2 es']|] eqn:Er; [|discriminate].
    cbn [bind] in H. injection H as <- <-.
    destruct (IH _ _ _ Er) as ((I1 & I2) & Q1 & Q2 & _ & _ & Irun).
    destruct (tick_flags _ _ _ _ _ Ee Eg) as ((F1 & H1) & (F2 & H2)).
    assert (P1 : (if hit_p1 e then 1 else 0) + pending (p1 g1)
                 <= (if start_p1 e then 1 else 0) + pending (p1 g)).
    { unfold pending. rewrite F1.
      destruct (hit_p1 e), (start_p1 e), (hit_this_attack (p1 g));
        try lia; destruct H1 as [?|?]; try reflexivity; discriminate. }
    assert (P2 : (if hit_p2 e then 1 else 0) + pending (p2 g1)
                 <= (if start_p2 e then 1 else 0) + pending (p2 g)).
    { unfold pending. rewrite F2.
      destruct (hit_p2 e), (start_p2 e), (hit_this_attack (p2 g));
        try lia; destruct H2 as [?|?]; try reflexivity; discriminate. }
    rewrite !count_cons.
    assert (R1 : pending (p1 g) <= 1)
      by (unfold pending; destruct (hit_this_attack (p1 g)); lia).
    assert (R2 : pending (p2 g) <= 1)
      by (unfold pending; destruct (hit_this_attack (p2 g)); lia).
    split; [split; lia|].
    split; [assumption|]. split; [assumption|].
    split; [assumption|]. split; [assumption|].
    cbn [run_ticks]. rewrite Eg. cbn [bind]. exact Irun.
Qed.

(** From the tick an attack starts on, with no further start, at most one
    hit of the attacker is resolved. *)
Lemma one_hit_per_start :
  forall (keys : Keys) (dt : F64.float) (tl : list (Keys * F64.float))
         (g g' : Game) (e : Events) (es : list Events),
    run_events ((keys, dt) :: tl) g = Some (g', e :: es) ->
    (count start_p1 es = 0 -> count hit_p1 (e :: es) <= 1)
    /\ (count start_p2 es = 0 -> count hit_p2 (e :: es) <= 1).
Proof.
  intros keys dt tl g g' e es H. cbn [run_events] in H.
  destruct (tick_events keys g) as [e0|] eqn:Ee; [|discriminate].
  cbn [bind] in H.
  destruct (game_update keys dt g) as [g1|] eqn:Eg; [|discriminate].
  cbn [bind] in H.
  destruct (run_events tl g1) as [[g2 es']|] eqn:Er; [|discriminate].
  cbn [bind] in H. injection H as <- <- <-.
  destruct (hits_bounded_by_starts _ _ _ _ Er)
    as ((I1 & I2) & Q1 & Q2 & R1 & R2 & _).
  destruct (tick_flags _ _ _ _ _ Ee Eg) as ((F1 & _) & (F2 & _)).
  rewrite !count_cons. unfold pending in *.
  split; intros Hz.
  - destruct (hit_p1 e0); [rewrite F1 in I1, R1|]; lia.
  - destruct (hit_p2 e0); [rewrite F2 in I2, R2|]; lia.
Qed.

(** C6 (amended): an attack instance runs from one start of an attack (a
    press that passes the guard of [start_attack], also one made while an
    attack is under way) to the next start.  In every tick,
    [hit_this_attack] of an attacker becomes true when [handle_hits]
    resolves its hit, false when it starts an attack (and does not hit in
    that same tick), and is otherwise unchanged; a hit is resolved only
    while it is false.  Hence along any run of ticks the hits of an attacker
    that [handle_hits] resolves (each one call of the defender's
    [receive_hit]) number at most the attacks it started, plus one for the
    swing already under way if that had not hit yet; and from the tick of a
    start on, as long as no new attack starts, at most one hit is resolved,
    however long the box stays over the defender. *)
Theorem single_hit_per_attack :
  (forall (keys : Keys) (dt : F64.float) (g g' : Game) (e : Events),
     tick_events keys g = Some e ->
     game_update keys dt g = Some g' ->
     (hit_this_attack (p1 g')
      = (if hit_p1 e then true
         else if start_p1 e then false else hit_this_attack (p1 g))
      /\ (hit_p1 e = true ->
          start_p1 e = true \/ hit_this_attack (p1 g) = false))
     /\ (hit_this_attack (p2 g')
         = (if hit_p2 e then true
            else if start_p2 e then false else hit_this_attack (p2 g))
         /\ (hit_p2 e = true ->
             start_p2 e = true \/ hit_this_attack (p2 g) = false)))
  /\ (forall (inputs : list (Keys * F64.float)) (g g' : Game)
             (es : list Events),
        run_events inputs g = Some (g', es) ->
        run_ticks inputs g = Some g'
        /\ count hit_p1 es + pending (p1 g')
           <= count start_p1 es + pending (p1 g)
        /\ count hit_p2 es + pending (p2 g')
           <= count start_p2 es + pending (p2 g)
        /\ (count start_p1 es = 0 -> count hit_p1 es <= pending (p1 g) <= 1)
        /\ (count start_p2 es = 0 -> count hit_p2 es <= pending (p2 g) <= 1))
  /\ (forall (keys : Keys) (dt : F64.float) (tl : list (Keys * F64.float))
             (g g' : Game) (e : Events) (es : list Events),
        run_events ((keys, dt) :: tl) g = Some (g', e :: es) ->
        (start_p1 e = true -> count start_p1 es = 0 ->
         count hit_p1 (e :: es) <= 1)
        /\ (start_p2 e = true -> count start_p2 es = 0 ->
            count hit_p2 (e :: es) <= 1)).
Proof.
  split; [|split].
  - exact tick_flags.
  - intros inputs g g' es H.
    destruct (hits_bounded_by_starts inputs g g' es H)
      as ((I1 & I2) & Q1 & Q2 & R1 & R2 & Hrun).
    split; [exact Hrun|]. split; [exact I1|]. split; [exact I2|].
    split; intros Hz; lia.
  - intros keys dt tl g g' e es H.
    destruct (one_hit_per_start keys dt tl g g' e es H) as [H1 H2].
    split; intros _; assumption.
Qed.

(** Player 1 walks up to player 2 and punches once: one attack started, one
    hit resolved, although the box stays over the defender for the rest of
    the active window. *)
Lemma single_hit_per_attack_witness :
  exists g' es,
    run_events walk_and_punch new_game = Some (g', es)
    /\ count start_p1 es = 1
    /\ count hit_p1 es + pending (p1 g') <= 1 + pending (p1 new_game)
    /\ hp (p2 g') = 92.
Proof.
  assert (E : exists g' es,
    run_events walk_and_punch new_game = Some (g', es)
    /\ count start_p1 es = 1 /\ hp (p2 g') = 92).
  { eexists. eexists. split; [vm_compute; reflexivity|].
    split; vm_compute; reflexivity. }
  destruct E as (g' & es & E & Hs & Hhp).
  exists g', es. split; [exact E|]. split; [exact Hs|].
  split; [|exact Hhp].
  rewrite <- Hs.
  exact (proj1 (proj2 (proj1 (proj2 single_hit_per_attack) _ _ _ _ E))).
Defined.

(** C6 (as stated) fails: player 1 punches and the punch lands; when the
    hitstop of the hit is over, with the punch still under way, player 1
    presses punch again, and three ticks later the punch lands a second
    time.  [attack_type] of player 1 is the punch after each of the twelve
    ticks, and player 2's health goes from 100 to 92 and to 84. *)
Lemma two_hits_before_attack_clears :
  exists g0 gs,
    run_ticks walk_up new_game = Some g0
    /\ attack_type (p1 g0) = None
    /\ run_states punch_again g0 = Some gs
    /\ map (fun g => attack_type (p1 g)) gs = repeat (Some punch) 12
    /\ map (fun g => hp (p2 g)) gs
       = [100; 100; 100; 92; 92; 92; 92; 92; 92; 92; 92; 84].
Proof.
  eexists. eexists.
  split; [vm_compute; reflexivity|].
  split; [reflexivity|].
  split; [vm_compute; reflexivity|].
  split; reflexivity.
Qed.

(** *** Reachable games *)

Lemma fighter_inv_same (f f' : Fighter) :
  same_body f f' -> 0 <= hp f' <= 100 -> fighter_inv f -> fighter_inv f'.
Proof.
  unfold same_body, fighter_inv.
  intros (A & B & C & D & _ & E) Hhp (H1 & H2 & H3 & H4 & H5 & _).
  rewrite A, B, C, D, E. tauto.
Qed.

Lemma new_fighter_inv (x fc : Z) (n : PlayerName) :
  fighter_inv (new_fighter x fc n).
Proof. unfold fighter_inv. cbn. lia. Qed.

Lemma resolve_hit_hp (atk dfd a d : Fighter) :
  max_hp dfd = 100 -> 0 <= hp dfd <= 100 ->
  resolve_hit atk dfd = Some (a, d) -> 0 <= hp d <= 100.
Proof.
  unfold resolve_hit. intros Hm Hhp H.
  destruct (hit_lands atk dfd).
  - destruct (receive_hit dfd _ _ _) as [d'|] eqn:E; [|discriminate].
    cbn [bind] in H. injection H as <- <-.
    destruct (receive_hit_hp _ _ _ _ _ E) as [_ [v ->]].
    rewrite Hm. apply clamp_range. lia.
  - injection H as <- <-. assumption.
Qed.

Lemma handle_hits_inv (g g' : Game) :
  fighter_inv (p1 g) -> fighter_inv (p2 g) ->
  handle_hits g = Some g' ->
  fighter_inv (p1 g') /\ fighter_inv (p2 g').
Proof.
  intros I1 I2 H.
  destruct (handle_hits_frame _ _ H) as (a & d & Er & _ & B1 & B2 & _).
  unfold handle_hits in H. rewrite Er in H. cbn [bind] in H. fields.
  destruct (resolve_hit d a) as [[a' d']|] eqn:E2; [|discriminate].
  cbn [bind] in H. injection H as <-. fields.
  destruct (resolve_hit_frame _ _ _ _ Er) as (Ba & Bd & _ & _ & _ & _ & Ha).
  destruct (resolve_hit_frame _ _ _ _ E2) as (Ba' & Bd' & _ & _ & _ & _ & Ha').
  assert (Hd : 0 <= hp d <= 100)
    by (apply (resolve_hit_hp _ _ _ _ (proj1 (proj2 (proj2 (proj2 (proj2 I2)))))
                 (proj2 (proj2 (proj2 (proj2 (proj2 I2))))) Er)).
  assert (Ia : fighter_inv a)
    by (apply (fighter_inv_same _ _ Ba); [rewrite Ha; apply I1|exact I1]).
  assert (Id : fighter_inv d) by (apply (fighter_inv_same _ _ Bd); assumption).
  split.
  - apply (fighter_inv_same _ _ Bd'); [|exact Ia].
    apply (resolve_hit_hp _ _ _ _ (proj1 (proj2 (proj2 (proj2 (proj2 Ia)))))
             (proj2 (proj2 (proj2 (proj2 (proj2 Ia))))) E2).
  - apply (fighter_inv_same _ _ Ba'); [rewrite Ha'; apply Id|exact Id].
Qed.

Lemma ltb_zero_zero : F64.ltb (F64.of_Z 0) (F64.of_Z 0) = false.
Proof. reflexivity. Qed.

(** Whatever the game, after [round_over] the fighter invariants hold again
    and a positive round clock means an undecided match. *)
Lemma round_over_inv (g : Game) (wn : option PlayerName) :
  fighter_inv (p1 g) -> fighter_inv (p2 g) ->
  fighter_inv (p1 (round_over g wn)) /\ fighter_inv (p2 (round_over g wn))
  /\ (F64.ltb (F64.of_Z 0) (round_time (round_over g wn)) = true ->
      rounds_won (p1 (round_over g wn)) < needed
      /\ rounds_won (p2 (round_over g wn)) < needed).
Proof.
  intros I1 I2. unfold fighter_inv in *. unfold round_over.
  destruct wn as [[|]|]; fields; break_if; fields;
    (split; [|split]); try tauto; try lia;
    try (rewrite ltb_zero_zero; discriminate);
    intros _; prop_tests; lia.
Qed.

Lemma game_update_inv (keys : Keys) (dt : F64.float) (g g' : Game) :
  game_inv g -> game_update keys dt g = Some g' -> game_inv g'.
Proof.
  intros (I1 & I2 & N1 & N2 & Hb & Hr) H. unfold game_update in H.
  destruct (in_combat g) eqn:Hc.
  - destruct (update_fighters keys g) as [g1|] eqn:E1; [|discriminate].
    cbn [bind] in H.
    destruct (handle_hits g1) as [g2|] eqn:E2; [|discriminate].
    cbn [bind] in H. injection H as <-.
    unfold in_combat in Hc. apply andb_true_iff in Hc. destruct Hc as [_ Hrt].
    destruct (Hr Hrt) as [R1 R2].
    destruct (update_fighters_frame _ _ _ E1)
      as (C1 & B1 & B2 & S1 & S2 & _).
    unfold score in S1, S2. injection S1 as Hp1 Hw1. injection S2 as Hp2 Hw2.
    assert (J1 : fighter_inv (p1 g1))
      by (apply (fighter_inv_same _ _ B1); [rewrite Hp1; apply I1|exact I1]).
    assert (J2 : fighter_inv (p2 g1))
      by (apply (fighter_inv_same _ _ B2); [rewrite Hp2; apply I2|exact I2]).
    destruct (handle_hits_inv _ _ J1 J2 E2) as [L1 L2].
    destruct (handle_hits_frame _ _ E2)
      as (_ & _ & _ & C2 & D1 & D2 & W1 & W2 & _).
    assert (T : fighter_inv (p1 (timer_check dt g2))
                /\ fighter_inv (p2 (timer_check dt g2))
                /\ (F64.ltb (F64.of_Z 0) (round_time (timer_check dt g2)) = true
                    -> rounds_won (p1 (timer_check dt g2)) < needed
                       /\ rounds_won (p2 (timer_check dt g2)) < needed)).
    { unfold timer_check.
      repeat break_if;
        try (apply (round_over_inv (set_round_time g2 _)); assumption).
      fields. split; [assumption|]. split; [assumption|].
      intros _. lia. }
    destruct T as (T1 & T2 & T3).
    assert (K : fighter_inv (p1 (ko_check (timer_check dt g2)))
                /\ fighter_inv (p2 (ko_check (timer_check dt g2)))
                /\ (F64.ltb (F64.of_Z 0)
                      (round_time (ko_check (timer_check dt g2))) = true
                    -> rounds_won (p1 (ko_check (timer_check dt g2))) < needed
                       /\ rounds_won (p2 (ko_check (timer_check dt g2)))
                          < needed)).
    { unfold ko_check.
      repeat break_if; try (apply round_over_inv; assumption). tauto. }
    destruct K as (K1 & K2 & K3).
    destruct (ko_check_frame (timer_check dt g2)) as (Y1 & Y2 & _ & _ & Yb & _).
    destruct (timer_check_frame dt g2) as (Z1 & Z2 & _ & _ & Zb & _).
    unfold game_inv. split; [assumption|]. split; [assumption|].
    destruct Y1 as (_ & _ & _ & _ & Yn1 & _).
    destruct Y2 as (_ & _ & _ & _ & Yn2 & _).
    destruct Z1 as (_ & _ & _ & _ & Zn1 & _).
    destruct Z2 as (_ & _ & _ & _ & Zn2 & _).
    destruct D1 as (_ & _ & _ & _ & Dn1 & _).
    destruct D2 as (_ & _ & _ & _ & Dn2 & _).
    destruct B1 as (_ & _ & _ & _ & Bn1 & _).
    destruct B2 as (_ & _ & _ & _ & Bn2 & _).
    destruct C1 as (Cb1 & _). destruct C2 as (Cb2 & _).
    split; [congruence|]. split; [congruence|]. split; [congruence|].
    assumption.
  - injection H as <-. unfold game_inv.
    destruct (freeze_timer g >? 0); fields; tauto.
Qed.

Lemma new_game_inv : game_inv new_game.
Proof.
  unfold game_inv. repeat split;
    try apply new_fighter_inv; try reflexivity; try (cbn; lia);
    intros _; vm_compute; reflexivity.
Qed.

Lemma reset_match_inv (g : Game) : game_inv g -> game_inv (reset_match g).
Proof.
  unfold game_inv, reset_match. fields.
  intros (_ & _ & _ & _ & Hb & _).
  repeat split; try apply new_fighter_inv; try reflexivity; try assumption;
    try (cbn; lia); intros _; vm_compute; reflexivity.
Qed.

(** Every game the program goes through satisfies [game_inv]. *)
Lemma reachable_inv (g : Game) : reachable g -> game_inv g.
Proof.
  induction 1 as [|g g' keys dt _ IH _ H|g _ IH|g _ IH].
  - apply new_game_inv.
  - exact (game_update_inv keys dt g g' IH H).
  - exact IH.
  - apply reset_match_inv. exact IH.
Qed.

Lemma game_update_paused (keys : Keys) (dt : F64.float) (g g' : Game) :
  game_update keys dt g = Some g' -> paused g' = paused g.
Proof.
  unfold game_update. intros H.
  destruct (in_combat g).
  - destruct (update_fighters keys g) as [g1|] eqn:E1; [|discriminate].
    cbn [bind] in H.
    destruct (handle_hits g1) as [g2|] eqn:E2; [|discriminate].
    cbn [bind] in H. injection H as <-.
    destruct (update_fighters_frame _ _ _ E1) as ((_ & _ & _ & _ & P1) & _).
    destruct (handle_hits_frame _ _ E2)
      as (_ & _ & _ & (_ & _ & _ & _ & P2) & _).
    destruct (ko_check_frame (timer_check dt g2)) as (_ & _ & _ & _ & _ & P4).
    destruct (timer_check_frame dt g2) as (_ & _ & _ & _ & _ & P3).
    congruence.
  - injection H as <-. destruct (freeze_timer g >? 0); reflexivity.
Qed.

(** A run of ticks from a reachable game that is not paused stays among the
    reachable games. *)
Lemma reachable_run_ticks (inputs : list (Keys * F64.float)) :
  forall g g',
    reachable g -> paused g = false ->
    run_ticks inputs g = Some g' -> reachable g'.
Proof.
  induction inputs as [|[keys dt] tl IH]; intros g g' Hr Hp H.
  - cbn in H. injection H as <-. exact Hr.
  - cbn [run_ticks] in H.
    destruct (game_update keys dt g) as [g1|] eqn:E; [|discriminate].
    cbn [bind] in H. apply (IH g1 g'); [| |exact H].
    + exact (reach_update g g1 keys dt Hr Hp E).
    + rewrite (game_update_paused _ _ _ _ E). exact Hp.
Qed.

(** *** Round resolution *)

(** [round_over], by its two branches. *)
Lemma round_over_cases (g : Game) (wn : option PlayerName) :
  rounds_won (p1 (round_over g wn)) = rounds_won (p1 g) + rounds_added wn Name_p1
  /\ rounds_won (p2 (round_over g wn))
     = rounds_won (p2 g) + rounds_added wn Name_p2
  /\ ((match_end (round_over g wn) = true
       /\ (needed <= rounds_won (p1 (round_over g wn))
           \/ needed <= rounds_won (p2 (round_over g wn)))
       /\ hp (p1 (round_over g wn)) = hp (p1 g)
       /\ hp (p2 (round_over g wn)) = hp (p2 g)
       /\ freeze_timer (round_over g wn) = 120
       /\ round_time (round_over g wn) = F64.of_Z 0)
      \/ (match_end (round_over g wn) = false
          /\ rounds_won (p1 (round_over g wn)) < needed
          /\ rounds_won (p2 (round_over g wn)) < needed
          /\ round_reset (p1 g) (p1 (round_over g wn)) 200
          /\ round_reset (p2 g) (p2 (round_over g wn))
               (WIDTH - 200 - rw (rect (p2 g)))
          /\ freeze_timer (round_over g wn) = 60
          /\ round_time (round_over g wn) = F64.of_Z ROUND_TIME)).
Proof.
  unfold round_over, round_reset, rounds_added.
  destruct wn as [[|]|]; fields; break_if; rect_ops;
    (split; [lia|]); (split; [lia|]);
    try (left; prop_tests;
         repeat match goal with H : _ \/ _ |- _ => destruct H end;
         prop_tests; repeat split; try reflexivity; lia);
    right; prop_tests; repeat split; try reflexivity; lia.
Qed.

Lemma after_hits_inv (keys : Keys) (g g1 : Game) :
  game_inv g -> in_combat g = true -> after_hits keys g = Some g1 ->
  fighter_inv (p1 g1) /\ fighter_inv (p2 g1)
  /\ rounds_won (p1 g1) < needed /\ rounds_won (p2 g1) < needed
  /\ round_time g1 = round_time g
  /\ forall dt, game_update keys dt g = Some (ko_check (timer_check dt g1)).
Proof.
  intros (I1 & I2 & _ & _ & _ & Hr) Hc H. unfold after_hits in H.
  destruct (update_fighters keys g) as [g0|] eqn:E1; [|discriminate].
  cbn [bind] in H.
  destruct (update_fighters_frame _ _ _ E1) as (C1 & B1 & B2 & S1 & S2 & _).
  unfold score in S1, S2. injection S1 as Hp1 Hw1. injection S2 as Hp2 Hw2.
  assert (J1 : fighter_inv (p1 g0))
    by (apply (fighter_inv_same _ _ B1); [rewrite Hp1; apply I1|exact I1]).
  assert (J2 : fighter_inv (p2 g0))
    by (apply (fighter_inv_same _ _ B2); [rewrite Hp2; apply I2|exact I2]).
  destruct (handle_hits_inv _ _ J1 J2 H) as [L1 L2].
  destruct (handle_hits_frame _ _ H) as (_ & _ & _ & C2 & _ & _ & W1 & W2 & _).
  pose proof Hc as Hc'. unfold in_combat in Hc'.
  apply andb_true_iff in Hc'. destruct Hc' as [_ Hrt].
  destruct (Hr Hrt) as [R1 R2].
  destruct C1 as (_ & Ct1 & _). destruct C2 as (_ & Ct2 & _).
  split; [assumption|]. split; [assumption|].
  split; [lia|]. split; [lia|]. split; [congruence|].
  intros dt. unfold game_update. rewrite Hc, E1. cbn [bind]. rewrite H.
  reflexivity.
Qed.



(** X20: what [round_over] assigns when the match goes on.  Both fighters
    get their health back ([max_hp]), stand on the fixed start corners with
    zero velocity, and have [attack_type] cleared; [round_over] assigns
    nothing to [attack_timer], [attack_cooldown], [hitstop] and
    [hit_this_attack]; [rounds_won] is kept, with the winner's round added;
    the hold is 60 ticks and the clock is back at [ROUND_TIME]. *)
Theorem round_over_new_round :
  forall (g : Game) (winner_name : option PlayerName),
    match_end (round_over g winner_name) = false ->
    round_reset (p1 g) (p1 (round_over g winner_name)) 200
    /\ round_reset (p2 g) (p2 (round_over g winner_name))
         (WIDTH - 200 - rw (rect (p2 g)))
    /\ stale_state (p1 (round_over g winner_name)) = stale_state (p1 g)
    /\ stale_state (p2 (round_over g winner_name)) = stale_state (p2 g)
    /\ rounds_won (p1 (round_over g winner_name))
       = rounds_won (p1 g) + rounds_added winner_name Name_p1
    /\ rounds_won (p2 (round_over g winner_name))
       = rounds_won (p2 g) + rounds_added winner_name Name_p2
    /\ freeze_timer (round_over g winner_name) = 60
    /\ round_time (round_over g winner_name) = F64.of_Z ROUND_TIME.
Proof.
  intros g wn Hm.
  destruct (round_over_cases g wn)
    as (Q1 & Q2 & [(Hm' & _)|(_ & _ & _ & X1 & X2 & Hf & Ht)]);
    [congruence|].
  destruct (round_over_frame g wn) as (_ & _ & S1 & S2 & _).
  tauto.
Qed.

(** Player 2 takes the first round from a player 1 at zero health. *)
Lemma round_over_new_round_witness :
  hp (p1 (round_over (set_p1 new_game (set_hp (p1 new_game) 0))
            (Some Name_p2))) = 100
  /\ rounds_won (p2 (round_over (set_p1 new_game (set_hp (p1 new_game) 0))
                       (Some Name_p2))) = 1.
Proof.
  destruct (round_over_new_round
              (set_p1 new_game (set_hp (p1 new_game) 0)) (Some Name_p2))
    as ((H1 & _) & _ & _ & _ & _ & H2 & _); [reflexivity|].
  split; [rewrite H1; reflexivity|rewrite H2; reflexivity].
Defined.

(** C9 fails on the code: [round_over] resets the fighters for the new
    round but misses part of the attack state, which [reset_match] clears.
    After thirteen simultaneous punch exchanges both fighters go down on the
    same tick; the round goes to player 2 and a new round is set up, but
    player 1 enters it with [attack_timer] 4, [hitstop] 4 and
    [hit_this_attack] set. *)
Theorem new_round_keeps_attack_state :
  exists g',
    run_ticks (before_double_ko ++ ticks 1 no_keys) new_game = Some g'
    /\ freeze_timer g' = 60 /\ match_end g' = false
    /\ hp (p1 g') = 100 /\ hp (p2 g') = 100
    /\ attack_type (p1 g') = None
    /\ attack_timer (p1 g') = 4
    /\ hitstop (p1 g') = 4
    /\ hit_this_attack (p1 g') = true.
Proof.
  eexists. split; [vm_compute; reflexivity|].
  repeat split; reflexivity.
Qed.

(** C10: when both healths are at or below 0 at the KO check of a tick, the
    check takes its first branch: the round goes to player 2, whose
    [rounds_won] goes up by one, and player 1's stays as it is. *)
Theorem double_ko_awards_p2 :
  forall (keys : Keys) (dt : F64.float) (g g1 : Game),
    in_combat g = true ->
    after_hits keys g = Some g1 ->
    hp (p1 (timer_check dt g1)) <= 0 ->
    hp (p2 (timer_check dt g1)) <= 0 ->
    game_update keys dt g
    = Some (round_over (timer_check dt g1) (Some Name_p2))
    /\ rounds_won (p2 (round_over (timer_check dt g1) (Some Name_p2)))
       = rounds_won (p2 (timer_check dt g1)) + 1
    /\ rounds_won (p1 (round_over (timer_check dt g1) (Some Name_p2)))
       = rounds_won (p1 (timer_check dt g1)).
Proof.
  intros keys dt g g1 Hc Ha H1 H2.
  split.
  - unfold game_update. rewrite Hc. unfold after_hits in Ha.
    destruct (update_fighters keys g) as [g0|]; [|discriminate].
    cbn [bind] in *. rewrite Ha. cbn [bind].
    unfold ko_check.
    replace (hp (p1 (timer_check dt g1)) <=? 0) with true
      by (symmetry; apply Z.leb_le; lia).
    reflexivity.
  - destruct (round_over_cases (timer_check dt g1) (Some Name_p2))
      as (Q1 & Q2 & _).
    cbn [rounds_added] in Q1, Q2. lia.
Qed.

(** The thirteenth exchange: both punches land on the same tick, both
    healths drop from 4 to 0, and the round is player 2's. *)
Lemma double_ko_awards_p2_witness :
  exists g g',
    run_ticks before_double_ko new_game = Some g
    /\ hp (p1 g) = 4 /\ hp (p2 g) = 4
    /\ game_update no_keys dt_frame g = Some g'
    /\ rounds_won (p1 g') = 0 /\ rounds_won (p2 g') = 1.
Proof.
  assert (E : exists g,
    run_ticks before_double_ko new_game = Some g
    /\ hp (p1 g) = 4 /\ hp (p2 g) = 4
    /\ in_combat g = true
    /\ exists g1,
         after_hits no_keys g = Some g1
         /\ hp (p1 (timer_check dt_frame g1)) = 0
         /\ hp (p2 (timer_check dt_frame g1)) = 0
         /\ rounds_won (p1 (timer_check dt_frame g1)) = 0
         /\ rounds_won (p2 (timer_check dt_frame g1)) = 0).
  { eexists. split; [vm_compute; reflexivity|].
    split; [reflexivity|]. split; [reflexivity|].
    split; [vm_compute; reflexivity|].
    eexists. split; [vm_compute; reflexivity|].
    repeat split; vm_compute; reflexivity. }
  destruct E as (g & Erun & Hp1 & Hp2 & Hc & g1 & Ea & K1 & K2 & R1 & R2).
  destruct (double_ko_awards_p2 no_keys dt_frame g g1 Hc Ea)
    as (Eg & Q2 & Q1); [lia|lia|].
  exists g, (round_over (timer_check dt_frame g1) (Some Name_p2)).
  split; [exact Erun|]. split; [exact Hp1|]. split; [exact Hp2|].
  split; [exact Eg|].
  split; [exact (eq_trans Q1 R1)|].
  rewrite Q2. rewrite R2. reflexivity.
Defined.

(** ** Further properties of the fighter *)

(** *** Hitstop and cooldown *)

Lemma update_ticks_frozen (b : Rect) (inputs : list (Keys * Fighter)) :
  forall f : Fighter,
    hitstop f = Z.of_nat (length inputs) ->
    update_ticks b inputs f = Some (set_hitstop f 0).
Proof.
  induction inputs as [|[keys opp] tl IH]; intros f Hh.
  - cbn in *. destruct f; cbn in *. subst. reflexivity.
  - cbn [update_ticks]. cbn [length] in Hh. rewrite Nat2Z.inj_succ in Hh.
    rewrite update_frozen by lia. cbn [bind].
    rewrite IH by (cbn; lia). reflexivity.
Qed.

(** X1: a fighter in hitstop is frozen for exactly that many [update]
    calls: whatever the keys and the opponent, each call only counts
    [hitstop] down, and after [hitstop] calls the fighter is as it was, with
    [hitstop] 0.  Every resolved hit puts both the attacker and the defender
    in a hitstop of [HITSTOP] (4) ticks. *)
Theorem hitstop_freezes_exactly :
  (forall (b : Rect) (inputs : list (Keys * Fighter)) (f : Fighter),
     update_ticks b inputs (set_hitstop f (Z.of_nat (length inputs)))
     = Some (set_hitstop f 0))
  /\ (forall (keys : Keys) (f opp : Fighter) (b : Rect),
        0 < hitstop f ->
        update keys f opp b = Some (set_hitstop f (hitstop f - 1), opp))
  /\ (forall atk dfd a d : Fighter,
        hit_lands atk dfd = true ->
        resolve_hit atk dfd = Some (a, d) ->
        hitstop a = HITSTOP /\ hitstop d = HITSTOP).
Proof.
  split; [|split].
  - intros b inputs f.
    rewrite update_ticks_frozen by reflexivity.
    destruct f; reflexivity.
  - intros keys f opp b H. apply update_frozen. exact H.
  - intros atk dfd a d Hl H. unfold resolve_hit in H. rewrite Hl in H.
    destruct (receive_hit dfd _ _ _) as [d'|] eqn:E; [|discriminate].
    cbn [bind] in H. injection H as <- <-.
    split; [reflexivity|]. apply (receive_hit_frame _ _ _ _ _ E).
Qed.

Lemma attack_steps_cooldown (keys : Keys) (f : Fighter) :
  attack_type f = None -> 0 < attack_cooldown f ->
  attack_state (advance_attack_timer (attacks keys f))
  = (None, attack_timer f, attack_cooldown f - 1, hitstop f,
     hit_this_attack f).
Proof.
  intros Ht Hc.
  assert (E : attacks keys f = f).
  { unfold attacks, start_attack. rewrite (gtb_true _ _ Hc). cbn.
    destruct (punch_pressed keys (name f)), (kick_pressed keys (name f));
      reflexivity. }
  rewrite E. unfold advance_attack_timer, attack_state. rewrite Ht.
  rewrite (gtb_true _ _ Hc). cbn. rewrite Ht. reflexivity.
Qed.

(** X2: while the attack cooldown runs, presses start nothing: for a fighter
    with no attack set, out of hitstop, with cooldown [c], the next [n <= c]
    calls of [update] leave [attack_type] unset whatever keys are pressed,
    and the cooldown goes down by one per call. *)
Theorem cooldown_locks_out_attacks :
  forall (b : Rect) (inputs : list (Keys * Fighter)) (f f' : Fighter),
    attack_type f = None ->
    hitstop f <= 0 ->
    Z.of_nat (length inputs) <= attack_cooldown f ->
    update_ticks b inputs f = Some f' ->
    attack_type f' = None
    /\ attack_cooldown f' = attack_cooldown f - Z.of_nat (length inputs)
    /\ hit_this_attack f' = hit_this_attack f.
Proof.
  intros b inputs. induction inputs as [|[keys opp] tl IH];
    intros f f' Ht Hh Hn Hrun.
  - cbn in Hrun. injection Hrun as <-. cbn. repeat split; try assumption; lia.
  - cbn [update_ticks] in Hrun.
    destruct (update keys f opp b) as [[f1 o1]|] eqn:Eu; [|discriminate].
    cbn [bind] in Hrun. cbn [length] in *. rewrite Nat2Z.inj_succ in *.
    destruct (update_frame _ _ _ _ _ _ Eu) as (_ & _ & _ & _ & _ & Ha).
    rewrite (gtb_false _ _ Hh) in Ha.
    rewrite attack_steps_cooldown in Ha by (assumption || lia).
    unfold attack_state in Ha. injection Ha as A1 A2 A3 A4 A5.
    destruct (IH f1 f' A1) as (I1 & I2 & I3); try assumption; try lia.
    split; [assumption|]. split; [lia|congruence].
Qed.

(** A fighter whose punch has just ended (cooldown 7) keeps punch pressed:
    seven ticks later no attack has started. *)
Lemma cooldown_locks_out_attacks_witness :
  exists f',
    update_ticks (mkRect 40 0 920 560)
      (repeat (hold [K_j], new_fighter 740 (-1) Name_p2) 7)
      (set_attack_cooldown (new_fighter 200 1 Name_p1) 7) = Some f'
    /\ attack_type f' = None /\ attack_cooldown f' = 0.
Proof.
  assert (E : exists f',
    update_ticks (mkRect 40 0 920 560)
      (repeat (hold [K_j], new_fighter 740 (-1) Name_p2) 7)
      (set_attack_cooldown (new_fighter 200 1 Name_p1) 7) = Some f')
    by (eexists; vm_compute; reflexivity).
  destruct E as [f' E]. exists f'. split; [exact E|].
  destruct (cooldown_locks_out_attacks (mkRect 40 0 920 560)
              (repeat (hold [K_j], new_fighter 740 (-1) Name_p2) 7)
              (set_attack_cooldown (new_fighter 200 1 Name_p1) 7) f')
    as (H1 & H2 & _);
    [reflexivity|vm_compute; discriminate|vm_compute; discriminate|exact E|].
  split; [exact H1|exact H2].
Defined.

(** *** Stance *)

Ltac solve_stance :=
  unfold stance; repeat break_if; fields; repeat split; reflexivity.

Lemma face_opponent_stance (f opp : Fighter) :
  stance (face_opponent f opp) = stance f.
Proof. unfold face_opponent. solve_stance. Qed.

Lemma attacks_stance (keys : Keys) (f : Fighter) :
  stance (attacks keys f) = stance f.
Proof. unfold attacks, start_attack. solve_stance. Qed.

Lemma advance_attack_timer_stance (f : Fighter) :
  stance (advance_attack_timer f) = stance f.
Proof. unfold advance_attack_timer. cbn. solve_stance. Qed.

Lemma apply_gravity_stance (f : Fighter) :
  stance (apply_gravity f) = stance f.
Proof. unfold apply_gravity. solve_stance. Qed.

Lemma push_apart_stance (f opp : Fighter) :
  stance (fst (push_apart f opp)) = stance f
  /\ stance (snd (push_apart f opp)) = stance opp.
Proof. unfold push_apart. solve_stance. Qed.

Lemma move_and_collide_stance (f f' : Fighter) (b : Rect) :
  move_and_collide f b = Some f' ->
  crouching f' = crouching f /\ blocking f' = blocking f
  /\ (on_ground f = true -> on_ground f' = true).
Proof.
  unfold move_and_collide. intros H.
  destruct (F64.to_int _) as [x|]; [|discriminate]. cbn [bind] in H.
  destruct (F64.to_int _) as [y|]; [|discriminate]. cbn [bind] in H.
  injection H as <-. repeat break_if; fields; repeat split; auto.
Qed.

Lemma basic_movement_stance (keys : Keys) (f : Fighter) :
  (blocking (basic_movement keys f) = true ->
   crouching (basic_movement keys f) = false
   /\ on_ground (basic_movement keys f) = true
   /\ block_down keys (name f) = true)
  /\ (crouching (basic_movement keys f) = true ->
      on_ground (basic_movement keys f) = true
      /\ pressed keys (name f) b_down = true).
Proof.
  unfold basic_movement. fields.
  destruct (block_down keys (name f)) eqn:Hk, (on_ground f) eqn:Hg,
    (pressed keys (name f) b_down) eqn:Hd, (pressed keys (name f) b_up),
    (pressed keys (name f) b_left), (pressed keys (name f) b_right);
    cbn [andb negb orb]; fields; cbn [andb negb orb];
    repeat (break_if; fields; cbn [andb negb orb] in * );
    rewrite ?andb_false_r, ?andb_true_r in *;
    split; intros; try congruence; repeat split; congruence.
Qed.

(** X3: after the [update] of a fighter out of hitstop, blocking and
    crouching are ground states and exclude each other: a blocking fighter
    is on the ground, not crouching, and its block key is down; a crouching
    fighter is on the ground, not blocking, and its down key is down.  The
    stance of the opponent is not touched. *)
Theorem stance_after_update :
  forall (keys : Keys) (f opp f' o' : Fighter) (b : Rect),
    hitstop f <= 0 ->
    update keys f opp b = Some (f', o') ->
    (blocking f' = true ->
     crouching f' = false /\ on_ground f' = true
     /\ block_down keys (name f) = true)
    /\ (crouching f' = true ->
        blocking f' = false /\ on_ground f' = true
        /\ pressed keys (name f) b_down = true)
    /\ stance o' = stance opp.
Proof.
  intros keys f opp f' o' b Hh H. unfold update in H.
  rewrite (gtb_false _ _ Hh) in H.
  destruct (move_and_collide _ b) as [fm|] eqn:Em; [|discriminate].
  cbn [bind] in H.
  rewrite (surjective_pairing (push_apart fm opp)) in H.
  injection H as <- <-.
  destruct (push_apart_stance fm opp) as [P1 P2].
  destruct (move_and_collide_stance _ _ _ Em) as (M1 & M2 & M3).
  set (f1 := face_opponent f opp) in *.
  set (f2 := basic_movement keys f1) in *.
  pose proof (apply_gravity_stance (advance_attack_timer (attacks keys f2)))
    as G.
  rewrite advance_attack_timer_stance, attacks_stance in G.
  destruct (basic_movement_stance keys f1) as [B1 B2]. fold f2 in B1, B2.
  assert (Hn : name f1 = name f) by apply (face_opponent_frame f opp).
  rewrite Hn in B1, B2.
  unfold stance in P1, G. injection P1 as Pg Pc Pb. injection G as Gg Gc Gb.
  rewrite Pc, Pb, Pg, M1, M2, Gc, Gb.
  split; [|split; [|exact P2]].
  - intros Hb. destruct (B1 Hb) as (C1 & C2 & C3).
    split; [exact C1|]. split; [|exact C3].
    apply M3. rewrite Gg. exact C2.
  - intros Hc. destruct (B2 Hc) as (C1 & C2).
    split; [|split; [|exact C2]].
    + destruct (blocking f2) eqn:Hb; [|reflexivity].
      destruct (B1 eq_refl) as (C3 & _). congruence.
    + apply M3. rewrite Gg. exact C1.
Qed.

(** Player 1, on the ground, holds block and down: after the update it
    blocks and does not crouch. *)
Lemma stance_after_update_witness :
  exists f' o',
    update (hold [K_l; K_s]) (new_fighter 200 1 Name_p1)
      (new_fighter 740 (-1) Name_p2) (mkRect 40 0 920 560) = Some (f', o')
    /\ blocking f' = true /\ crouching f' = false /\ on_ground f' = true.
Proof.
  assert (E : exists f' o',
    update (hold [K_l; K_s]) (new_fighter 200 1 Name_p1)
      (new_fighter 740 (-1) Name_p2) (mkRect 40 0 920 560) = Some (f', o')
    /\ blocking f' = true).
  { eexists. eexists. split; [vm_compute; reflexivity|reflexivity]. }
  destruct E as (f' & o' & E & Hb). exists f', o'.
  split; [exact E|]. split; [exact Hb|].
  destruct (stance_after_update (hold [K_l; K_s]) (new_fighter 200 1 Name_p1)
              (new_fighter 740 (-1) Name_p2) f' o' (mkRect 40 0 920 560))
    as (H1 & _); [vm_compute; discriminate|exact E|].
  destruct (H1 Hb) as (C1 & C2 & _). split; [exact C1|exact C2].
Defined.

(** *** Damage *)

Lemma receive_hit_stance (f f' : Fighter) (dmg direction : Z)
      (blocked : bool) :
  receive_hit f dmg direction blocked = Some f' -> stance f' = stance f.
Proof.
  unfold receive_hit. intros H.
  destruct (blocking f && blocked).
  - destruct (chip_floor dmg) as [q|]; [|discriminate]. cbn [bind] in H.
    injection H as <-. unfold stance. repeat break_if; fields; congruence.
  - cbn [bind] in H. injection H as <-.
    unfold stance. repeat break_if; fields; congruence.
Qed.

Lemma receive_hit_damage_taken (f f' : Fighter) (dmg direction : Z)
      (blocked : bool) :
  receive_hit f dmg direction blocked = Some f' ->
  exists d,
    damage_taken f (dmg, direction, blocked) = Some d
    /\ hp f' = clamp (hp f - d) 0 (max_hp f)
    /\ max_hp f' = max_hp f /\ blocking f' = blocking f
    /\ (0 < dmg -> 0 < d).
Proof.
  intros H. unfold damage_taken.
  pose proof (receive_hit_stance _ _ _ _ _ H) as Hs.
  unfold stance in Hs. injection Hs as _ _ Hbl.
  destruct (blocking f && blocked) eqn:Hb.
  - destruct (chip_floor dmg) as [q|] eqn:Hq.
    + destruct (receive_hit_blocked f dmg direction q blocked Hb Hq)
        as (f'' & E & Hhp & Hm).
      rewrite E in H. injection H as <-.
      exists (Z.max 1 q).
      split; [reflexivity|]. split; [exact Hhp|]. split; [exact Hm|].
      split; [exact Hbl|lia].
    + unfold receive_hit in H. rewrite Hb, Hq in H. discriminate.
  - destruct (receive_hit_unblocked f dmg direction blocked Hb)
      as (f'' & E & Hhp & Hm).
    rewrite E in H. injection H as <-.
    exists dmg.
    split; [reflexivity|]. split; [exact Hhp|]. split; [exact Hm|].
    split; [exact Hbl|tauto].
Qed.

(** X4: a hit of positive damage always costs health, blocked or not: on a
    fighter with health in [1, max_hp] a returning [receive_hit] leaves the
    health strictly lower and not below 0 (a block lets at least 1 through);
    a fighter at 0 stays at 0. *)
Theorem hit_always_costs_health :
  forall (f f' : Fighter) (dmg direction : Z) (blocked : bool),
    0 < dmg ->
    0 <= hp f <= max_hp f ->
    receive_hit f dmg direction blocked = Some f' ->
    0 <= hp f' <= hp f
    /\ (0 < hp f -> hp f' < hp f).
Proof.
  intros f f' dmg direction blocked Hd Hhp H.
  destruct (receive_hit_damage_taken _ _ _ _ _ H) as (d & _ & E & _ & _ & Hpos).
  specialize (Hpos Hd). rewrite E. unfold clamp. lia.
Qed.

(** A blocking fighter at 1 health takes a blocked punch: health 0. *)
Lemma hit_always_costs_health_witness :
  exists f',
    receive_hit (set_hp (set_blocking (new_fighter 200 1 Name_p1) true) 1)
      PUNCH_DMG 1 true = Some f'
    /\ hp f' = 0.
Proof.
  assert (E : exists f',
    receive_hit (set_hp (set_blocking (new_fighter 200 1 Name_p1) true) 1)
      PUNCH_DMG 1 true = Some f') by (eexists; vm_compute; reflexivity).
  destruct E as [f' E]. exists f'. split; [exact E|].
  destruct (hit_always_costs_health
              (set_hp (set_blocking (new_fighter 200 1 Name_p1) true) 1) f'
              PUNCH_DMG 1 true) as (H1 & H2);
    [reflexivity|vm_compute; split; discriminate|exact E|].
  cbn in H1, H2. specialize (H2 ltac:(lia)). lia.
Defined.

Lemma total_damage_blocking (f1 f2 : Fighter) (hits : list (Z * Z * bool)) :
  blocking f1 = blocking f2 -> total_damage f1 hits = total_damage f2 hits.
Proof.
  intros Hb. induction hits as [|[[dm di] bl] tl IH]; [reflexivity|].
  cbn [total_damage]. unfold damage_taken. rewrite Hb, IH. reflexivity.
Qed.

(** X5: hits add up until the health runs out: after any sequence of
    [receive_hit] calls of non-negative damage on a fighter with health in
    [0, max_hp], the health is the starting health minus the sum of what
    each call takes (chip or full damage), or 0 when that is negative. *)
Theorem hits_add_up :
  forall (hits : list (Z * Z * bool)) (f : Fighter) (fs : list Fighter),
    0 <= hp f <= max_hp f ->
    Forall (fun hit => 0 <= fst (fst hit)) hits ->
    receive_hits f hits = Some fs ->
    exists t,
      total_damage f hits = Some t
      /\ 0 <= t
      /\ hp (last fs f) = Z.max 0 (hp f - t).
Proof.
  induction hits as [|[[dmg direction] blocked] tl IH]; intros f fs Hhp Hall H.
  - cbn in H. injection H as <-. exists 0. cbn. repeat split; lia.
  - cbn [receive_hits] in H.
    destruct (receive_hit f dmg direction blocked) as [f1|] eqn:E;
      [|discriminate].
    cbn [bind] in H.
    destruct (receive_hits f1 tl) as [fs'|] eqn:E'; [|discriminate].
    cbn [bind] in H. injection H as <-.
    inversion Hall as [|x l Hd Htl]; subst. cbn [fst] in Hd.
    destruct (receive_hit_damage_taken _ _ _ _ _ E)
      as (d & Ed & Eh & Em & Eb & _).
    assert (Hd0 : 0 <= d).
    { unfold damage_taken in Ed.
      destruct (blocking f && blocked).
      - destruct (chip_floor dmg); [|discriminate]. injection Ed as <-. lia.
      - injection Ed as <-. exact Hd. }
    assert (Hhp1 : 0 <= hp f1 <= max_hp f1)
      by (rewrite Eh, Em; apply clamp_range; lia).
    destruct (IH f1 fs' Hhp1 Htl E') as (t & Et & Ht0 & Hl).
    assert (Et' : total_damage f tl = Some t)
      by (rewrite <- (total_damage_blocking f1 f tl Eb); exact Et).
    exists (d + t). cbn [total_damage]. rewrite Ed. cbn [bind]. rewrite Et'.
    cbn [bind]. split; [reflexivity|]. split; [lia|].
    assert (Hlast : last (f1 :: fs') f = last fs' f1)
      by (clear; revert f1; induction fs' as [|a l IHl]; intros f1;
          [reflexivity|cbn [last] in *; destruct l; [reflexivity|apply IHl]]).
    rewrite Hlast, Hl, Eh. unfold clamp. lia.
Qed.

(** A blocking fighter takes a blocked kick (2), a blocked punch (1) and an
    unblockable 12: 100 - 15 = 85. *)
Lemma hits_add_up_witness :
  exists fs,
    receive_hits (set_blocking (new_fighter 200 1 Name_p1) true)
      [(12, 1, true); (8, 1, true); (12, 1, false)] = Some fs
    /\ hp (last fs (set_blocking (new_fighter 200 1 Name_p1) true)) = 85.
Proof.
  assert (E : exists fs,
    receive_hits (set_blocking (new_fighter 200 1 Name_p1) true)
      [(12, 1, true); (8, 1, true); (12, 1, false)] = Some fs)
    by (eexists; vm_compute; reflexivity).
  destruct E as [fs E]. exists fs. split; [exact E|].
  destruct (hits_add_up [(12, 1, true); (8, 1, true); (12, 1, false)]
              (set_blocking (new_fighter 200 1 Name_p1) true) fs)
    as (t & Et & _ & Hl);
    [vm_compute; split; discriminate
    |repeat constructor; vm_compute; discriminate
    |exact E|].
  rewrite Hl. vm_compute in Et. injection Et as <-. reflexivity.
Defined.

(** *** When an attack lands *)

Lemma hurtbox_standard (f : Fighter) :
  standard_size f ->
  rx (hurtbox f) = rx (rect f) /\ rw (hurtbox f) = 56
  /\ ((ry (hurtbox f) = ry (rect f) /\ rh (hurtbox f) = 98)
      \/ (ry (hurtbox f) = ry (rect f) + 49 /\ rh (hurtbox f) = 49)).
Proof.
  intros (Hw & Hh & Hrw & Hrh). unfold hurtbox.
  destruct (crouching f && on_ground f); rect_ops.
  - rewrite Hw, Hh, Hrh. split; [reflexivity|]. split; [reflexivity|].
    right. split; [|reflexivity].
    change (98 / 2) with 49. lia.
  - rewrite Hrw, Hrh. tauto.
Qed.

(** The attack box exists exactly in the active window of the attack. *)
Lemma attack_box_some_iff (f : Fighter) :
  (exists box, attack_box f = Some box) <->
  (exists k, attack_type f = Some k /\ in_active_window k (attack_timer f)).
Proof.
  unfold attack_box. destruct (attack_type f) as [k|].
  - destruct k; cbn [attack_range attack_frames PUNCH_RANGE KICK_RANGE];
      match goal with
      | |- context [if ?c then None else Some ?r] =>
          destruct c eqn:Hc
      end;
      (split; [intros [box Hb]|intros (k & Hk & Hw)]);
      try discriminate; try (injection Hk as <-);
      cbn [in_active_window] in *;
      try (apply orb_true_iff in Hc; destruct Hc as [Hc|Hc];
           [apply Z.ltb_lt in Hc|apply Z.geb_le in Hc]; lia);
      try (apply orb_false_iff in Hc; destruct Hc as [Hc1 Hc2];
           apply Z.ltb_ge in Hc1; rewrite Z.geb_leb in Hc2;
           apply Z.leb_gt in Hc2);
      try (eexists; reflexivity);
      try (eexists; split; [reflexivity|cbn [in_active_window]; lia]).
  - split; [intros [box Hb]|intros (k & Hk & _)]; discriminate.
Qed.

(** The attack box of a fighter of standard size facing left or right. *)
Lemma attack_box_standard (f : Fighter) (box : Rect) :
  standard_size f ->
  facing f = 1 \/ facing f = -1 ->
  attack_box f = Some box ->
  exists k,
    attack_type f = Some k
    /\ in_active_window k (attack_timer f)
    /\ rw box = fst (attack_range k) /\ rh box = snd (attack_range k)
    /\ (facing f = 1 -> rx box = rx (rect f) + 52)
    /\ (facing f = -1 -> rx box = rx (rect f) + 4 - fst (attack_range k))
    /\ ry (rect f) + 40 <= ry box
    /\ ry (rect f) + 57 <= ry box + rh box <= ry (rect f) + 82.
Proof.
  intros Hs Hf Hb.
  destruct (proj1 (attack_box_some_iff f) (ex_intro _ box Hb))
    as (k & Hk & Hwin).
  exists k. split; [exact Hk|]. split; [exact Hwin|].
  destruct (hurtbox_standard f Hs) as (Hx & Hw & Hy).
  destruct Hs as (Hsw & Hsh & Hrw & Hrh).
  unfold attack_box in Hb. rewrite Hk in Hb.
  unfold RectOps.centerx, RectOps.centery in Hb. rewrite Hx, Hw, Hsw in Hb.
  destruct k; cbn [attack_range attack_frames PUNCH_RANGE KICK_RANGE fst snd]
    in *;
    destruct ((attack_timer f <? _) || (attack_timer f >=? _));
    try discriminate;
    destruct Hy as [(Hy1 & Hy2)|(Hy1 & Hy2)]; rewrite Hy1, Hy2 in Hb;
    destruct Hf as [Hf|Hf]; rewrite Hf in Hb; cbn in Hb;
    injection Hb as <-; rect_ops; repeat split; intros; try lia.
Qed.

Lemma colliderect_iff (a b : Rect) :
  0 < rw a -> 0 < rh a -> 0 < rw b -> 0 < rh b ->
  rx a < rx b + rw b -> rx b < rx a + rw a ->
  ry a < ry b + rh b -> ry b < ry a + rh a ->
  RectOps.colliderect a b = true.
Proof.
  intros. apply colliderect_pos; try assumption. tauto.
Qed.

(** Between fighters of standard size on the same level, [hit_lands] is a
    condition on the attack state and the horizontal distance only. *)
Lemma hit_lands_standard :
  forall atk dfd : Fighter,
    standard_size atk -> standard_size dfd ->
    ry (rect atk) = ry (rect dfd) ->
    facing atk = 1 \/ facing atk = -1 ->
    (hit_lands atk dfd = true <->
     (exists k,
        attack_type atk = Some k
        /\ in_active_window k (attack_timer atk)
        /\ hit_this_attack atk = false
        /\ -4 < facing atk * (rx (rect dfd) - rx (rect atk))
             < 52 + fst (attack_range k))).
Proof.
  intros atk dfd Ha Hd Hy Hf.
  destruct (hurtbox_standard dfd Hd) as (Dx & Dw & Dy).
  split.
  - intros Hl. pose proof (hit_lands_flag _ _ Hl) as Hflag.
    unfold hit_lands in Hl.
    destruct (attack_box atk) as [box|] eqn:Eb; [|discriminate].
    destruct (attack_box_standard atk box Ha Hf Eb)
      as (k & Hk & Hwin & Bw & Bh & Bx1 & Bx2 & By1 & By2).
    exists k. split; [exact Hk|]. split; [exact Hwin|].
    split; [exact Hflag|].
    apply andb_true_iff in Hl. destruct Hl as [_ Hc].
    assert (Hpw : 0 < rw box) by (rewrite Bw; destruct k; cbn; lia).
    assert (Hph : 0 < rh box) by (rewrite Bh; destruct k; cbn; lia).
    assert (Hdw : 0 < rw (hurtbox dfd)) by lia.
    assert (Hdh : 0 < rh (hurtbox dfd))
      by (destruct Dy as [(_ & ->)|(_ & ->)]; lia).
    apply (proj1 (colliderect_pos _ _ Hpw Hph Hdw Hdh)) in Hc.
    destruct Hc as (X1 & X2 & _).
    rewrite Dx, Dw in *. rewrite Bw in X2.
    destruct Hf as [Hf|Hf]; rewrite Hf;
      [rewrite (Bx1 Hf) in *|rewrite (Bx2 Hf) in *]; lia.
  - intros (k & Hk & Hwin & Hflag & Hdist).
    destruct (proj2 (attack_box_some_iff atk)
                (ex_intro _ k (conj Hk Hwin))) as (box & Eb).
    destruct (attack_box_standard atk box Ha Hf Eb)
      as (k' & Hk' & _ & Bw & Bh & Bx1 & Bx2 & By1 & By2).
    assert (k' = k) by congruence. subst k'.
    assert (Hpw : 0 < rw box) by (rewrite Bw; destruct k; cbn; lia).
    assert (Hph : 0 < rh box) by (rewrite Bh; destruct k; cbn; lia).
    unfold hit_lands. rewrite Eb, Hflag.
    assert (Ht : RectOps.truthy box = true).
    { unfold RectOps.truthy.
      replace (rw box =? 0) with false by (symmetry; apply Z.eqb_neq; lia).
      replace (rh box =? 0) with false by (symmetry; apply Z.eqb_neq; lia).
      reflexivity. }
    rewrite Ht. cbn [andb negb].
    assert (Hdw : 0 < rw (hurtbox dfd)) by lia.
    assert (Hdh : 0 < rh (hurtbox dfd))
      by (destruct Dy as [(_ & ->)|(_ & ->)]; lia).
    apply (proj2 (colliderect_pos _ _ Hpw Hph Hdw Hdh)).
    rewrite Dx, Dw, Bw.
    split; [|split].
    + destruct Hf as [Hf|Hf]; rewrite Hf in Hdist;
        [rewrite (Bx1 Hf)|rewrite (Bx2 Hf)]; lia.
    + destruct Hf as [Hf|Hf]; rewrite Hf in Hdist;
        [rewrite (Bx1 Hf)|rewrite (Bx2 Hf)]; lia.
    + destruct Dy as [(-> & ->)|(-> & ->)]; lia.
Qed.

(** X6: between fighters of standard size standing on the same level, an
    attack lands exactly when it is in its active window, has not hit yet,
    and the defender's left edge lies, measured in the attacker's facing
    direction, more than -4 and less than 52 plus the width of the attack
    box (45 for a punch, 60 for a kick) from the attacker's left edge.
    Whether the defender crouches plays no part: crouching halves the hurt
    box but never takes it out of a grounded attack. *)
Theorem grounded_hit_condition :
  forall atk dfd : Fighter,
    standard_size atk -> standard_size dfd ->
    ry (rect atk) = ry (rect dfd) ->
    facing atk = 1 \/ facing atk = -1 ->
    (hit_lands atk dfd = true <->
     (exists k,
        attack_type atk = Some k
        /\ in_active_window k (attack_timer atk)
        /\ hit_this_attack atk = false
        /\ -4 < facing atk * (rx (rect dfd) - rx (rect atk))
             < 52 + fst (attack_range k)))
    /\ hit_lands atk (set_crouching dfd true)
       = hit_lands atk (set_crouching dfd false).
Proof.
  intros atk dfd Ha Hd Hy Hf.
  split; [apply hit_lands_standard; assumption|].
  assert (Hc : forall c, hit_lands atk (set_crouching dfd c) = true <->
                         hit_lands atk dfd = true).
  { intros c. rewrite (hit_lands_standard atk dfd Ha Hd Hy Hf).
    apply (hit_lands_standard atk (set_crouching dfd c)); assumption. }
  destruct (hit_lands atk (set_crouching dfd true)) eqn:E1,
    (hit_lands atk (set_crouching dfd false)) eqn:E2; try reflexivity.
  - apply (Hc true) in E1. apply (Hc false) in E1. congruence.
  - apply (Hc false) in E2. apply (Hc true) in E2. congruence.
Qed.

(** A punch in its fifth tick against a crouching defender 60 to the right:
    it lands. *)
Lemma grounded_hit_condition_witness :
  hit_lands
    (set_attack_timer (set_attack_type (new_fighter 400 1 Name_p1)
                         (Some punch)) 4)
    (set_crouching (new_fighter 460 (-1) Name_p2) true) = true.
Proof.
  apply (proj1 (grounded_hit_condition
           (set_attack_timer (set_attack_type (new_fighter 400 1 Name_p1)
                                (Some punch)) 4)
           (set_crouching (new_fighter 460 (-1) Name_p2) true)
           ltac:(repeat split) ltac:(repeat split) eq_refl
           (or_introl eq_refl))).
  exists punch. cbn. repeat split; lia.
Defined.

(** ** Further properties of the round controller *)

(** *** Holds *)

Lemma game_update_hold (keys : Keys) (dt : F64.float) (g : Game) :
  0 < freeze_timer g ->
  game_update keys dt g = Some (set_freeze_timer g (freeze_timer g - 1)).
Proof.
  intros H. unfold game_update, in_combat.
  replace (freeze_timer g <=? 0) with false by (symmetry; apply Z.leb_gt; lia).
  rewrite andb_false_r. cbn [andb]. rewrite (gtb_true _ _ H). reflexivity.
Qed.

Lemma set_freeze_timer_same (g : Game) : set_freeze_timer g (freeze_timer g) = g.
Proof. destruct g; reflexivity. Qed.

(** X7: while the freeze timer is positive (the intro hold of a round, the
    hold after the end of a match) a tick does nothing but count it down:
    over any [n <= freeze_timer] ticks, whatever the keys and the frame
    times, fighters, round clock and score stay as they are. *)
Theorem hold_ignores_input :
  forall (inputs : list (Keys * F64.float)) (g : Game),
    Z.of_nat (length inputs) <= freeze_timer g ->
    run_ticks inputs g
    = Some (set_freeze_timer g (freeze_timer g - Z.of_nat (length inputs))).
Proof.
  induction inputs as [|[keys dt] tl IH]; intros g H.
  - cbn. rewrite Z.sub_0_r, set_freeze_timer_same. reflexivity.
  - cbn [run_ticks]. cbn [length] in *. rewrite Nat2Z.inj_succ in *.
    rewrite game_update_hold by lia. cbn [bind].
    rewrite IH by (fields; lia). unfold set_freeze_timer. fields.
    f_equal. f_equal. lia.
Qed.

(** Both players mash every key through the 60 ticks of the intro hold: the
    game is the new game with the hold used up. *)
Lemma hold_ignores_input_witness :
  run_ticks (ticks 60 (hold [K_d; K_j; K_w; K_LEFT; K_KP2; K_UP])) new_game
  = Some (set_freeze_timer new_game 0).
Proof.
  rewrite (hold_ignores_input
             (ticks 60 (hold [K_d; K_j; K_w; K_LEFT; K_KP2; K_UP])) new_game)
    by (vm_compute; discriminate).
  reflexivity.
Defined.

Lemma game_update_clock_out (keys : Keys) (dt : F64.float) (g : Game) :
  round_time g = F64.of_Z 0 ->
  game_update keys dt g
  = Some (if freeze_timer g >? 0
          then set_freeze_timer g (freeze_timer g - 1) else g).
Proof.
  intros H. unfold game_update, in_combat. rewrite H.
  change (F64.ltb (F64.of_Z 0) (F64.of_Z 0)) with false.
  rewrite andb_false_r. reflexivity.
Qed.

(** X8: the end of a match is final until the match is restarted: once
    [round_over] has ended the match, any run of ticks, whatever the keys,
    leaves both fighters, the score and the clock as they are; only the
    hold of 120 ticks counts down to 0. *)
Theorem match_end_is_final :
  forall (inputs : list (Keys * F64.float)) (g : Game)
         (winner_name : option PlayerName),
    match_end (round_over g winner_name) = true ->
    run_ticks inputs (round_over g winner_name)
    = Some (set_freeze_timer (round_over g winner_name)
              (Z.max 0 (120 - Z.of_nat (length inputs)))).
Proof.
  intros inputs g wn Hm.
  destruct (round_over_cases g wn)
    as (_ & _ & [(_ & _ & _ & _ & Hf & Ht)|(Hm' & _)]); [|congruence].
  assert (Hgen : forall (l : list (Keys * F64.float)) (g0 : Game),
            round_time g0 = F64.of_Z 0 -> 0 <= freeze_timer g0 ->
            run_ticks l g0
            = Some (set_freeze_timer g0
                      (Z.max 0 (freeze_timer g0 - Z.of_nat (length l))))).
  { induction l as [|[keys dt] tl IH]; intros g0 Hr Hz.
    - cbn. rewrite Z.sub_0_r, Z.max_r by lia.
      rewrite set_freeze_timer_same. reflexivity.
    - cbn [run_ticks]. rewrite game_update_clock_out by exact Hr.
      cbn [bind length]. rewrite Nat2Z.inj_succ.
      destruct (freeze_timer g0 >? 0) eqn:E.
      + prop_tests. rewrite IH by (fields; try assumption; lia).
        unfold set_freeze_timer. fields. f_equal. f_equal. lia.
      + rewrite IH by assumption. prop_tests. f_equal. f_equal. lia. }
  rewrite Hgen by (try exact Ht; lia). rewrite Hf. reflexivity.
Qed.

(** Player 1 wins its second round; 200 ticks of key mashing later the score
    is still 2 to 0 and the hold is over. *)
Lemma match_end_is_final_witness :
  exists g',
    run_ticks (ticks 200 (hold [K_d; K_j; K_LEFT; K_KP1]))
      (round_over (set_p1 new_game (set_rounds_won (p1 new_game) 1))
         (Some Name_p1)) = Some g'
    /\ rounds_won (p1 g') = 2 /\ rounds_won (p2 g') = 0
    /\ freeze_timer g' = 0.
Proof.
  eexists. split.
  - apply (match_end_is_final
             (ticks 200 (hold [K_d; K_j; K_LEFT; K_KP1]))
             (set_p1 new_game (set_rounds_won (p1 new_game) 1))
             (Some Name_p1)).
    reflexivity.
  - repeat split; reflexivity.
Defined.

(** *** A knock-out on the tick the clock runs out *)

Lemma ko_check_no_ko (g : Game) :
  0 < hp (p1 g) -> 0 < hp (p2 g) -> ko_check g = g.
Proof.
  intros H1 H2. unfold ko_check.
  replace (hp (p1 g) <=? 0) with false by (symmetry; apply Z.leb_gt; lia).
  replace (hp (p2 g) <=? 0) with false by (symmetry; apply Z.leb_gt; lia).
  reflexivity.
Qed.

(** X9: when player 1's knock-out blow lands on the very tick the round
    clock runs out, the clock branch awards the round to player 1 (more
    health) and the KO check of the same tick runs after it.  If that round
    decides the match, the fighters are not reset, the KO check still sees
    player 2 at 0 and awards the round a second time: [rounds_won] goes up
    by two.  If it does not, the fighters were reset by the first
    resolution and the round counts once. *)
Theorem knockout_on_timeout_tick :
  forall (keys : Keys) (dt : F64.float) (g g1 : Game),
    in_combat g = true ->
    after_hits keys g = Some g1 ->
    F64.leb (F64.sub (round_time g1) dt) (F64.of_Z 0) = true ->
    hp (p2 g1) <= 0 -> 0 < hp (p1 g1) ->
    0 < max_hp (p1 g1) -> 0 < max_hp (p2 g1) ->
    exists g',
      game_update keys dt g = Some g'
      /\ rounds_won (p2 g') = rounds_won (p2 g1)
      /\ (needed <= rounds_won (p1 g1) + 1 ->
          rounds_won (p1 g') = rounds_won (p1 g1) + 2
          /\ match_end g' = true)
      /\ (rounds_won (p1 g1) + 1 < needed -> rounds_won (p2 g1) < needed ->
          rounds_won (p1 g') = rounds_won (p1 g1) + 1
          /\ match_end g' = false).
Proof.
  intros keys dt g g1 Hc Ha Hleb Hp2 Hp1 Hm1 Hm2.
  exists (ko_check (timer_check dt g1)).
  split.
  { unfold game_update. rewrite Hc. unfold after_hits in Ha.
    destruct (update_fighters keys g) as [g0|]; [|discriminate].
    cbn [bind] in *. rewrite Ha. reflexivity. }
  assert (Et : timer_check dt g1
               = round_over (set_round_time g1 (F64.sub (round_time g1) dt))
                   (Some Name_p1)).
  { unfold timer_check. fields. rewrite Hleb.
    replace (hp (p1 g1) >? hp (p2 g1)) with true
      by (symmetry; apply gtb_true; lia).
    reflexivity. }
  rewrite Et.
  set (g2 := set_round_time g1 (F64.sub (round_time g1) dt)).
  assert (G1 : p1 g2 = p1 g1) by reflexivity.
  assert (G2 : p2 g2 = p2 g1) by reflexivity.
  destruct (round_over_cases g2 (Some Name_p1)) as (Q1 & Q2 & Hcase).
  cbn [rounds_added] in Q1, Q2. rewrite G1 in Q1. rewrite G2 in Q2.
  destruct Hcase
    as [(Hm & Hor & E1 & E2 & _)|(Hm & R1 & R2 & (X1 & _) & (X2 & _) & _)].
  - (* the round decides the match: no reset, the KO check fires *)
    rewrite G1 in E1. rewrite G2 in E2.
    assert (Ek : ko_check (round_over g2 (Some Name_p1))
                 = round_over (round_over g2 (Some Name_p1)) (Some Name_p1)).
    { unfold ko_check. rewrite E1, E2.
      replace (hp (p1 g1) <=? 0) with false by (symmetry; apply Z.leb_gt; lia).
      replace (hp (p2 g1) <=? 0) with true by (symmetry; apply Z.leb_le; lia).
      reflexivity. }
    rewrite Ek.
    destruct (round_over_cases (round_over g2 (Some Name_p1)) (Some Name_p1))
      as (S1 & S2 & Hcase2).
    cbn [rounds_added] in S1, S2.
    split; [lia|]. split.
    + intros Hn. split; [lia|].
      destruct Hcase2 as [(Hme & _)|(_ & T1 & _)]; [exact Hme|lia].
    + intros Hn Hn2. lia.
  - (* a new round was set up: both healths are back at [max_hp] *)
    rewrite G1 in X1. rewrite G2 in X2.
    rewrite ko_check_no_ko by lia.
    split; [lia|]. split.
    + intros Hn. lia.
    + intros Hn Hn2. split; [lia|exact Hm].
Qed.

(** Player 1 has one round and player 2 is down to 4 health when a stall of
    60 seconds ends on the tick the thirteenth punch lands: player 1 ends
    the match with 3 rounds. *)
Lemma knockout_on_timeout_tick_witness :
  exists g g',
    run_ticks before_match_point new_game = Some g
    /\ rounds_won (p1 g) = 1 /\ hp (p2 g) = 4
    /\ game_update no_keys (F64.of_Z 60) g = Some g'
    /\ rounds_won (p1 g') = 3 /\ match_end g' = true.
Proof.
  assert (E : exists g,
    run_ticks before_match_point new_game = Some g
    /\ rounds_won (p1 g) = 1 /\ hp (p2 g) = 4
    /\ in_combat g = true
    /\ exists g1,
         after_hits no_keys g = Some g1
         /\ F64.leb (F64.sub (round_time g1) (F64.of_Z 60)) (F64.of_Z 0) = true
         /\ hp (p2 g1) = 0 /\ hp (p1 g1) = 100
         /\ max_hp (p1 g1) = 100 /\ max_hp (p2 g1) = 100
         /\ rounds_won (p1 g1) = 1).
  { eexists. split; [vm_compute; reflexivity|].
    split; [reflexivity|]. split; [reflexivity|].
    split; [vm_compute; reflexivity|].
    eexists. split; [vm_compute; reflexivity|].
    repeat split; vm_compute; reflexivity. }
  destruct E as (g & Erun & Hr & Hh & Hc & g1 & Ea & Hleb & K2 & K1 & M1 & M2 & R1).
  destruct (knockout_on_timeout_tick no_keys (F64.of_Z 60) g g1 Hc Ea Hleb)
    as (g' & Eg & _ & Hdouble & _); try lia.
  exists g, g'.
  destruct Hdouble as (D1 & D2); [rewrite R1; vm_compute; discriminate|].
  split; [exact Erun|]. split; [exact Hr|]. split; [exact Hh|].
  split; [exact Eg|]. split; [rewrite D1, R1; reflexivity|exact D2].
Defined.

(** *** What every reachable game satisfies *)

Lemma move_and_collide_bottom (f f' : Fighter) (b : Rect) :
  move_and_collide f b = Some f' ->
  RectOps.bottom (rect f') <= GROUND_Y.
Proof.
  unfold move_and_collide. intros H.
  destruct (F64.to_int _) as [x|]; [|discriminate]. cbn [bind] in H.
  destruct (F64.to_int _) as [y|]; [|discriminate]. cbn [bind] in H.
  injection H as <-.
  rect_ops. repeat (break_if; rect_ops); prop_tests; lia.
Qed.

Lemma push_apart_level (f opp : Fighter) :
  RectOps.bottom (rect (fst (push_apart f opp))) = RectOps.bottom (rect f)
  /\ RectOps.bottom (rect (snd (push_apart f opp)))
     = RectOps.bottom (rect opp).
Proof. unfold push_apart. repeat break_if; rect_ops; split; reflexivity. Qed.

Lemma update_bottom (keys : Keys) (f opp f' o' : Fighter) (b : Rect) :
  update keys f opp b = Some (f', o') ->
  RectOps.bottom (rect f) <= GROUND_Y ->
  RectOps.bottom (rect f') <= GROUND_Y
  /\ RectOps.bottom (rect o') = RectOps.bottom (rect opp).
Proof.
  unfold update. intros H Hf.
  destruct (hitstop f >? 0).
  - injection H as <- <-. split; [exact Hf|reflexivity].
  - destruct (move_and_collide _ b) as [fm|] eqn:Em; [|discriminate].
    cbn [bind] in H.
    rewrite (surjective_pairing (push_apart fm opp)) in H.
    injection H as <- <-.
    destruct (push_apart_level fm opp) as [L1 L2].
    rewrite L1, L2. split; [|reflexivity].
    exact (move_and_collide_bottom _ _ _ Em).
Qed.

Lemma receive_hit_level (f f' : Fighter) (dmg direction : Z) (blocked : bool) :
  receive_hit f dmg direction blocked = Some f' ->
  RectOps.bottom (rect f') = RectOps.bottom (rect f).
Proof.
  unfold receive_hit. intros H.
  destruct (blocking f && blocked).
  - destruct (chip_floor dmg) as [q|]; [|discriminate]. cbn [bind] in H.
    injection H as <-. repeat break_if; rect_ops; reflexivity.
  - cbn [bind] in H. injection H as <-.
    repeat break_if; rect_ops; reflexivity.
Qed.

Lemma resolve_hit_level (atk dfd a d : Fighter) :
  resolve_hit atk dfd = Some (a, d) ->
  RectOps.bottom (rect a) = RectOps.bottom (rect atk)
  /\ RectOps.bottom (rect d) = RectOps.bottom (rect dfd).
Proof.
  unfold resolve_hit. intros H.
  destruct (hit_lands atk dfd).
  - destruct (receive_hit dfd _ _ _) as [d'|] eqn:E; [|discriminate].
    cbn [bind] in H. injection H as <- <-.
    split; [reflexivity|exact (receive_hit_level _ _ _ _ _ E)].
  - injection H as <- <-. split; reflexivity.
Qed.

Lemma round_over_feet (g : Game) (wn : option PlayerName) :
  fighter_inv (p1 g) -> fighter_inv (p2 g) ->
  feet_above_ground g -> feet_above_ground (round_over g wn).
Proof.
  intros (_ & H1 & _ & R1 & _) (_ & H2 & _ & R2 & _) (F1 & F2).
  unfold feet_above_ground in *. unfold round_over.
  destruct wn as [[|]|]; break_if; rect_ops; lia.
Qed.

Lemma game_update_feet (keys : Keys) (dt : F64.float) (g g' : Game) :
  game_inv g -> feet_above_ground g ->
  game_update keys dt g = Some g' -> feet_above_ground g'.
Proof.
  intros Hinv (F1 & F2) H. unfold game_update in H.
  destruct (in_combat g) eqn:Hc.
  - destruct (update_fighters keys g) as [g0|] eqn:E0; [|discriminate].
    cbn [bind] in H.
    destruct (handle_hits g0) as [g1|] eqn:E1; [|discriminate].
    cbn [bind] in H. injection H as <-.
    assert (Ea : after_hits keys g = Some g1)
      by (unfold after_hits; rewrite E0; exact E1).
    destruct (after_hits_inv keys g g1 Hinv Hc Ea) as (I1 & I2 & _).
    assert (G0 : feet_above_ground g0).
    { unfold update_fighters in E0.
      destruct (update keys (p1 g) (p2 g) (bounds g)) as [[a b]|] eqn:U1;
        [|discriminate].
      cbn [bind] in E0. fields.
      destruct (update keys b a (bounds g)) as [[b' a']|] eqn:U2;
        [|discriminate].
      cbn [bind] in E0. injection E0 as <-. unfold feet_above_ground. fields.
      destruct (update_bottom _ _ _ _ _ _ U1 F1) as [A1 A2].
      destruct (update_bottom _ _ _ _ _ _ U2 ltac:(rewrite A2; exact F2))
        as [B1 B2].
      split; [rewrite B2; exact A1|exact B1]. }
    assert (G1 : feet_above_ground g1).
    { destruct G0 as (K1 & K2). unfold handle_hits in E1.
      destruct (resolve_hit (p1 g0) (p2 g0)) as [[a d]|] eqn:R1;
        [|discriminate].
      cbn [bind] in E1. fields.
      destruct (resolve_hit d a) as [[a' d']|] eqn:R2; [|discriminate].
      cbn [bind] in E1. injection E1 as <-. unfold feet_above_ground. fields.
      destruct (resolve_hit_level _ _ _ _ R1) as [A1 A2].
      destruct (resolve_hit_level _ _ _ _ R2) as [B1 B2].
      split; [rewrite B2, A1; exact K1|rewrite B1, A2; exact K2]. }
    assert (Hro : forall g3 wn,
              fighter_inv (p1 g3) -> fighter_inv (p2 g3) ->
              feet_above_ground g3 ->
              feet_above_ground (round_over g3 wn)
              /\ fighter_inv (p1 (round_over g3 wn))
              /\ fighter_inv (p2 (round_over g3 wn))).
    { intros g3 wn A B C. split; [apply round_over_feet; assumption|].
      split; apply (round_over_inv g3 wn A B). }
    assert (G2 : feet_above_ground (timer_check dt g1)
                 /\ fighter_inv (p1 (timer_check dt g1))
                 /\ fighter_inv (p2 (timer_check dt g1))).
    { unfold timer_check.
      repeat break_if;
        try (apply (Hro (set_round_time g1 _)); [exact I1|exact I2|exact G1]).
      split; [exact G1|split; assumption]. }
    destruct G2 as (G2 & J1 & J2).
    unfold ko_check. repeat break_if;
      try (apply Hro; assumption). exact G2.
  - injection H as <-. unfold feet_above_ground.
    destruct (freeze_timer g >? 0); fields; split; assumption.
Qed.

(** X10: in every game the program goes through, both fighters have their
    feet on the ground line or above it: no update, push, hit or round reset
    ever leaves a rectangle's bottom below [GROUND_Y]. *)
Theorem feet_never_below_ground :
  forall g : Game, reachable g -> feet_above_ground g.
Proof.
  induction 1 as [|g g' keys dt Hr IH _ H|g _ IH|g _ IH].
  - unfold feet_above_ground. vm_compute. split; discriminate.
  - exact (game_update_feet keys dt g g' (reachable_inv g Hr) IH H).
  - exact IH.
  - unfold feet_above_ground. vm_compute. split; discriminate.
Qed.

(** Player 1 at the top of its forward jump over player 2. *)
Lemma feet_never_below_ground_witness :
  exists g,
    run_ticks jump_onto_opponent new_game = Some g
    /\ RectOps.bottom (rect (p1 g)) = 366
    /\ feet_above_ground g.
Proof.
  assert (E : exists g,
    run_ticks jump_onto_opponent new_game = Some g
    /\ RectOps.bottom (rect (p1 g)) = 366).
  { eexists. split; [vm_compute; reflexivity|reflexivity]. }
  destruct E as (g & E & Hb). exists g. split; [exact E|]. split; [exact Hb|].
  apply feet_never_below_ground.
  exact (reachable_run_ticks _ _ _ reach_new eq_refl E).
Defined.

Lemma round_over_rounds (g : Game) (wn : option PlayerName) :
  rounds_won (p1 g) <= rounds_won (p1 (round_over g wn))
                    <= rounds_won (p1 g) + 1
  /\ rounds_won (p2 g) <= rounds_won (p2 (round_over g wn))
                       <= rounds_won (p2 g) + 1.
Proof.
  destruct (round_over_cases g wn) as (Q1 & Q2 & _).
  rewrite Q1, Q2. destruct wn as [[|]|]; cbn [rounds_added]; lia.
Qed.

Lemma timer_check_rounds (dt : F64.float) (g : Game) :
  rounds_won (p1 g) <= rounds_won (p1 (timer_check dt g))
                    <= rounds_won (p1 g) + 1
  /\ rounds_won (p2 g) <= rounds_won (p2 (timer_check dt g))
                       <= rounds_won (p2 g) + 1.
Proof.
  unfold timer_check.
  repeat break_if; try apply (round_over_rounds (set_round_time g _)).
  fields. lia.
Qed.

Lemma ko_check_rounds (g : Game) :
  rounds_won (p1 g) <= rounds_won (p1 (ko_check g)) <= rounds_won (p1 g) + 1
  /\ rounds_won (p2 g) <= rounds_won (p2 (ko_check g))
                       <= rounds_won (p2 g) + 1.
Proof.
  unfold ko_check. repeat break_if; try apply round_over_rounds. lia.
Qed.

Lemma game_update_rounds (keys : Keys) (dt : F64.float) (g g' : Game) :
  game_inv g ->
  0 <= rounds_won (p1 g) <= 3 /\ 0 <= rounds_won (p2 g) <= 3 ->
  game_update keys dt g = Some g' ->
  0 <= rounds_won (p1 g') <= 3 /\ 0 <= rounds_won (p2 g') <= 3.
Proof.
  intros Hinv Hr H. pose proof H as H0. unfold game_update in H.
  destruct (in_combat g) eqn:Hc.
  - destruct (update_fighters keys g) as [g0|] eqn:E0; [|discriminate].
    cbn [bind] in H.
    destruct (handle_hits g0) as [g1|] eqn:E1; [|discriminate].
    cbn [bind] in H. injection H as <-.
    assert (Ea : after_hits keys g = Some g1)
      by (unfold after_hits; rewrite E0; exact E1).
    destruct (after_hits_inv keys g g1 Hinv Hc Ea) as (_ & _ & R1 & R2 & _).
    destruct (update_fighters_frame _ _ _ E0) as (_ & _ & _ & S1 & S2 & _).
    destruct (handle_hits_frame _ _ E1) as (_ & _ & _ & _ & _ & _ & W1 & W2 & _).
    unfold score in S1, S2. injection S1 as _ S1. injection S2 as _ S2.
    pose proof (timer_check_rounds dt g1) as (T1 & T2).
    pose proof (ko_check_rounds (timer_check dt g1)) as (K1 & K2).
    unfold needed, BEST_OF in R1, R2. change (3 / 2 + 1) with 2 in R1, R2.
    lia.
  - injection H as <-. destruct (freeze_timer g >? 0); fields; exact Hr.
Qed.

Lemma reachable_rounds (g : Game) :
  reachable g ->
  0 <= rounds_won (p1 g) <= 3 /\ 0 <= rounds_won (p2 g) <= 3.
Proof.
  induction 1 as [|g g' keys dt Hr IH _ H|g _ IH|g _ IH].
  - vm_compute. repeat split; discriminate.
  - exact (game_update_rounds keys dt g g' (reachable_inv g Hr) IH H).
  - exact IH.
  - vm_compute. repeat split; discriminate.
Qed.

(** X11: in every game the program goes through, both healths lie in
    [0, 100] and both [rounds_won] in [0, 3]; while a round is being fought
    neither player has more than one round.  (Two rounds end the match; the
    third can only come from the double award of a knock-out on the tick
    the clock runs out.) *)
Theorem score_stays_in_range :
  forall g : Game, reachable g -> score_in_range g.
Proof.
  intros g Hr. pose proof (reachable_inv g Hr) as Hinv.
  destruct Hinv as (I1 & I2 & _ & _ & _ & Hclock).
  split; [split; [apply I1|apply I2]|].
  split; [exact (reachable_rounds g Hr)|].
  intros Hc. unfold in_combat in Hc. apply andb_true_iff in Hc.
  destruct Hc as [_ Hrt]. destruct (Hclock Hrt) as [R1 R2].
  unfold needed, BEST_OF in R1, R2. change (3 / 2 + 1) with 2 in R1, R2. lia.
Qed.

(** The game after the double award: player 1 has 3 rounds. *)
Lemma score_stays_in_range_witness :
  exists g,
    run_ticks (before_match_point ++ [(no_keys, F64.of_Z 60)]) new_game
    = Some g
    /\ rounds_won (p1 g) = 3
    /\ score_in_range g.
Proof.
  assert (E : exists g,
    run_ticks (before_match_point ++ [(no_keys, F64.of_Z 60)]) new_game
    = Some g /\ rounds_won (p1 g) = 3).
  { eexists. split; [vm_compute; reflexivity|reflexivity]. }
  destruct E as (g & E & Hw). exists g. split; [exact E|]. split; [exact Hw|].
  apply score_stays_in_range.
  exact (reachable_run_ticks _ _ _ reach_new eq_refl E).
Defined.

(** *** The banner of the end of a match *)

Lemma tick_single_winner (dt : F64.float) (g : Game) :
  0 <= hp (p1 g) -> 0 <= hp (p2 g) ->
  0 < max_hp (p1 g) -> 0 < max_hp (p2 g) ->
  rounds_won (p1 (ko_check (timer_check dt g))) = rounds_won (p1 g)
  \/ rounds_won (p2 (ko_check (timer_check dt g))) = rounds_won (p2 g).
Proof.
  intros H1 H2 M1 M2.
  set (g2 := set_round_time g (F64.sub (round_time g) dt)).
  assert (G1 : p1 g2 = p1 g) by reflexivity.
  assert (G2 : p2 g2 = p2 g) by reflexivity.
  assert (Hko : forall t : Game,
            rounds_won (p1 (ko_check t)) = rounds_won (p1 t)
            \/ rounds_won (p2 (ko_check t)) = rounds_won (p2 t)).
  { intros t. unfold ko_check. repeat break_if; try (left; reflexivity).
    - left. destruct (round_over_cases t (Some Name_p2)) as (Q & _).
      rewrite Q. cbn [rounds_added]. lia.
    - right. destruct (round_over_cases t (Some Name_p1)) as (_ & Q & _).
      rewrite Q. cbn [rounds_added]. lia. }
  assert (Hfire : forall wn,
            (wn = Some Name_p1 -> hp (p2 g) < hp (p1 g)) ->
            (wn = Some Name_p2 -> hp (p1 g) < hp (p2 g)) ->
            rounds_won (p1 (ko_check (round_over g2 wn))) = rounds_won (p1 g)
            \/ rounds_won (p2 (ko_check (round_over g2 wn)))
               = rounds_won (p2 g)).
  { intros wn W1 W2.
    destruct (round_over_cases g2 wn) as (Q1 & Q2 & Hcase).
    rewrite G1 in Q1. rewrite G2 in Q2.
    destruct Hcase
      as [(_ & _ & E1 & E2 & _)|(_ & _ & _ & (X1 & _) & (X2 & _) & _)].
    - rewrite G1 in E1. rewrite G2 in E2.
      unfold ko_check. rewrite E1, E2.
      destruct wn as [[|]|]; cbn [rounds_added] in Q1, Q2.
      + specialize (W1 eq_refl).
        replace (hp (p1 g) <=? 0) with false
          by (symmetry; apply Z.leb_gt; lia).
        right. destruct (hp (p2 g) <=? 0); [|lia].
        destruct (round_over_cases (round_over g2 (Some Name_p1))
                    (Some Name_p1)) as (_ & S2 & _).
        cbn [rounds_added] in S2. lia.
      + specialize (W2 eq_refl). left.
        replace (hp (p2 g) <=? 0) with false
          by (symmetry; apply Z.leb_gt; lia).
        destruct (hp (p1 g) <=? 0); [|lia].
        destruct (round_over_cases (round_over g2 (Some Name_p2))
                    (Some Name_p2)) as (S1 & _).
        cbn [rounds_added] in S1. lia.
      + destruct (Hko (round_over g2 None)) as [K|K];
          unfold ko_check in K; rewrite E1, E2 in K; [left|right]; lia.
    - rewrite G1 in X1. rewrite G2 in X2.
      rewrite ko_check_no_ko by lia.
      destruct wn as [[|]|]; cbn [rounds_added] in Q1, Q2;
        [right|left|left]; lia. }
  unfold timer_check. fold g2.
  destruct (F64.leb (round_time g2) (F64.of_Z 0)).
  - rewrite G1, G2.
    destruct (hp (p1 g) >? hp (p2 g)) eqn:C1.
    + apply Hfire; intros; prop_tests; try lia; discriminate.
    + destruct (hp (p2 g) >? hp (p1 g)) eqn:C2.
      * apply Hfire; intros; prop_tests; try lia; discriminate.
      * apply Hfire; intros; discriminate.
  - destruct (Hko g2) as [K|K]; [left|right]; exact K.
Qed.

Lemma round_over_match_end (g : Game) (wn : option PlayerName) :
  match_end (round_over g wn) = true ->
  2 <= rounds_won (p1 (round_over g wn))
  \/ 2 <= rounds_won (p2 (round_over g wn)).
Proof.
  intros Hm.
  destruct (round_over_cases g wn) as (_ & _ & [(_ & Hor & _)|(Hm' & _)]);
    [|congruence].
  unfold needed, BEST_OF in Hor. change (3 / 2 + 1) with 2 in Hor. exact Hor.
Qed.

Lemma game_update_decided_once (keys : Keys) (dt : F64.float) (g g' : Game) :
  game_inv g -> match_decided_once g ->
  game_update keys dt g = Some g' -> match_decided_once g'.
Proof.
  intros Hinv (D1 & D2) H. unfold game_update in H.
  destruct (in_combat g) eqn:Hc.
  - destruct (update_fighters keys g) as [g0|] eqn:E0; [|discriminate].
    cbn [bind] in H.
    destruct (handle_hits g0) as [g1|] eqn:E1; [|discriminate].
    cbn [bind] in H. injection H as <-.
    assert (Ea : after_hits keys g = Some g1)
      by (unfold after_hits; rewrite E0; exact E1).
    destruct (after_hits_inv keys g g1 Hinv Hc Ea) as (I1 & I2 & R1 & R2 & _).
    unfold needed, BEST_OF in R1, R2. change (3 / 2 + 1) with 2 in R1, R2.
    destruct (update_fighters_frame _ _ _ E0)
      as ((_ & _ & _ & C0 & _) & _ & _ & S1 & S2 & _).
    destruct (handle_hits_frame _ _ E1)
      as (_ & _ & _ & (_ & _ & _ & C1 & _) & _ & _ & W1 & W2 & _).
    unfold score in S1, S2. injection S1 as _ S1. injection S2 as _ S2.
    destruct I1 as (_ & _ & _ & _ & M1 & Hp1).
    destruct I2 as (_ & _ & _ & _ & M2 & Hp2).
    split.
    + destruct (tick_single_winner dt g1) as [K|K]; try lia.
    + assert (P1 : match_end g1 = true ->
                   2 <= rounds_won (p1 g1) \/ 2 <= rounds_won (p2 g1)
                   \/ (rounds_won (p1 g1) = 0 /\ rounds_won (p2 g1) = 0)).
      { intros Hm. rewrite C1, C0 in Hm. rewrite W1, W2, S1, S2.
        exact (D2 Hm). }
      assert (P2 : match_end (timer_check dt g1) = true ->
                   2 <= rounds_won (p1 (timer_check dt g1))
                   \/ 2 <= rounds_won (p2 (timer_check dt g1))
                   \/ (rounds_won (p1 (timer_check dt g1)) = 0
                       /\ rounds_won (p2 (timer_check dt g1)) = 0)).
      { unfold timer_check.
        repeat break_if; intros Hm;
          try (destruct (round_over_match_end _ _ Hm); tauto).
        exact (P1 Hm). }
      unfold ko_check.
      repeat break_if; intros Hm;
        try (destruct (round_over_match_end _ _ Hm); tauto).
      exact (P2 Hm).
  - injection H as <-. unfold match_decided_once.
    destruct (freeze_timer g >? 0); fields; tauto.
Qed.

Lemma reachable_decided_once (g : Game) :
  reachable g -> match_decided_once g.
Proof.
  induction 1 as [|g g' keys dt Hr IH _ H|g _ IH|g _ IH].
  - split; [left; vm_compute; discriminate|discriminate].
  - exact (game_update_decided_once keys dt g g' (reachable_inv g Hr) IH H).
  - exact IH.
  - split; [left; vm_compute; discriminate|].
    intros _. right. right. split; reflexivity.
Qed.

(** X12: the banner [render] shows for a game the program goes through.
    While [match_end] is set it is the winner's banner, for the one player
    with two rounds or more, the other having at most one; or, when the
    match was restarted after its end, "DRAW GAME!" at 0 to 0, because
    [reset_match] leaves [match_end] set (and "READY... FIGHT!" is then not
    shown).  While [match_end] is not set, nothing or "READY... FIGHT!" is
    shown. *)
Theorem match_banner :
  forall g : Game,
    reachable g ->
    (match_end g = true ->
     (2 <= rounds_won (p1 g) /\ rounds_won (p2 g) <= 1
      /\ banners g = ["P1 WINS THE MATCH!"%string])
     \/ (2 <= rounds_won (p2 g) /\ rounds_won (p1 g) <= 1
         /\ banners g = ["P2 WINS THE MATCH!"%string])
     \/ (rounds_won (p1 g) = 0 /\ rounds_won (p2 g) = 0
         /\ banners g = ["DRAW GAME!"%string]))
    /\ (match_end g = false ->
        banners g = [] \/ banners g = ["READY... FIGHT!"%string])
    /\ (match_end g = true ->
        banners (reset_match g) = ["DRAW GAME!"%string]).
Proof.
  intros g Hr. destruct (reachable_decided_once g Hr) as (D1 & D2).
  split; [|split].
  - intros Hm. unfold banners. rewrite Hm. rewrite andb_false_r.
    cbn [app negb].
    destruct (D2 Hm) as [H|[H|[H1 H2]]].
    + left. split; [exact H|]. split; [lia|].
      replace (rounds_won (p1 g) >? rounds_won (p2 g)) with true
        by (symmetry; apply gtb_true; lia).
      reflexivity.
    + right. left. split; [exact H|]. split; [lia|].
      replace (rounds_won (p1 g) >? rounds_won (p2 g)) with false
        by (symmetry; apply gtb_false; lia).
      replace (rounds_won (p2 g) >? rounds_won (p1 g)) with true
        by (symmetry; apply gtb_true; lia).
      reflexivity.
    + right. right. split; [exact H1|]. split; [exact H2|].
      rewrite H1, H2. reflexivity.
  - intros Hm. unfold banners. rewrite Hm.
    destruct ((freeze_timer g >? 0) && _ && negb false);
      [right|left]; reflexivity.
  - intros Hm. unfold banners, reset_match. fields. rewrite Hm.
    rewrite andb_false_r. reflexivity.
Qed.

(** After the double award player 1's banner is up; the match is restarted
    and the banner reads "DRAW GAME!". *)
Lemma match_banner_witness :
  exists g,
    run_ticks (before_match_point ++ [(no_keys, F64.of_Z 60)]) new_game
    = Some g
    /\ banners g = ["P1 WINS THE MATCH!"%string]
    /\ banners (reset_match g) = ["DRAW GAME!"%string].
Proof.
  assert (E : exists g,
    run_ticks (before_match_point ++ [(no_keys, F64.of_Z 60)]) new_game
    = Some g
    /\ match_end g = true
    /\ banners g = ["P1 WINS THE MATCH!"%string]).
  { eexists. split; [vm_compute; reflexivity|].
    split; vm_compute; reflexivity. }
  destruct E as (g & E & Hm & Hb). exists g.
  split; [exact E|]. split; [exact Hb|].
  exact (proj2 (proj2 (match_banner g
           (reachable_run_ticks _ _ _ reach_new eq_refl E))) Hm).
Defined.

(** *** Gravity *)

Lemma SFcompare_antisym (x y : spec_float) (c : comparison) :
  SFcompare x y = Some c -> SFcompare y x = Some (CompOpp c).
Proof.
  destruct x as [sx|sx| |sx mx ex], y as [sy|sy| |sy my ey];
    cbn; intros H; try discriminate;
    try (injection H as <-;
         repeat match goal with s : bool |- _ => destruct s end;
         reflexivity).
  injection H as <-. f_equal.
  destruct sx, sy; cbn [CompOpp]; try reflexivity;
    rewrite (Z.compare_antisym ex ey);
    destruct (ex ?= ey); cbn [CompOpp]; try reflexivity;
    rewrite (Pos.compare_cont_antisym mx my Eq); reflexivity.
Qed.

Lemma ltb_asym (x y : F64.float) :
  F64.ltb x y = true -> F64.ltb y x = false.
Proof.
  unfold F64.ltb, SFltb.
  destruct (SFcompare x y) as [[| |]|] eqn:E; try discriminate.
  intros _. rewrite (SFcompare_antisym _ _ _ E). reflexivity.
Qed.

Lemma ltb_between_finite (lo hi x : F64.float) :
  F64.is_finite lo = true -> F64.is_finite hi = true ->
  F64.ltb lo x = true -> F64.ltb x hi = true -> F64.is_finite x = true.
Proof.
  unfold F64.ltb, SFltb.
  destruct x as [s|s| |s m e]; try reflexivity;
    destruct lo as [sl|sl| |sl ml el], hi as [sh|sh| |sh mh eh];
    try discriminate; cbn; destruct s; discriminate.
Qed.

(** X13: whatever the velocity of an airborne fighter, NaN and infinities
    included, [apply_gravity] leaves a finite vertical speed that is neither
    above [MAX_FALL] (18) nor below -999; a grounded fighter is not
    touched. *)
Theorem fall_speed_capped :
  forall f : Fighter,
    (on_ground f = false ->
     F64.is_finite (snd (velocity (apply_gravity f))) = true
     /\ F64.ltb (F64.of_Z MAX_FALL) (snd (velocity (apply_gravity f))) = false
     /\ F64.ltb (snd (velocity (apply_gravity f))) (F64.of_Z (-999)) = false
     /\ fst (velocity (apply_gravity f)) = fst (velocity f))
    /\ (on_ground f = true -> apply_gravity f = f).
Proof.
  intros f. split.
  - intros Hg. unfold apply_gravity. rewrite Hg. cbn [negb]. fields.
    generalize (F64.add (snd (velocity f)) GRAVITY). intros v.
    unfold clamp_float.
    assert (C1 : F64.ltb (F64.of_Z (-999)) (F64.of_Z MAX_FALL) = true)
      by reflexivity.
    assert (C2 : F64.ltb (F64.of_Z MAX_FALL) (F64.of_Z MAX_FALL) = false)
      by reflexivity.
    assert (C3 : F64.ltb (F64.of_Z (-999)) (F64.of_Z (-999)) = false)
      by reflexivity.
    assert (C4 : F64.ltb (F64.of_Z MAX_FALL) (F64.of_Z (-999)) = false)
      by reflexivity.
    assert (C5 : F64.is_finite (F64.of_Z MAX_FALL) = true) by reflexivity.
    assert (C6 : F64.is_finite (F64.of_Z (-999)) = true) by reflexivity.
    destruct (F64.ltb v (F64.of_Z MAX_FALL)) eqn:A.
    + destruct (F64.ltb (F64.of_Z (-999)) v) eqn:B.
      * split; [exact (ltb_between_finite _ _ _ C6 C5 B A)|].
        split; [exact (ltb_asym _ _ A)|].
        split; [exact (ltb_asym _ _ B)|reflexivity].
      * repeat split; assumption.
    + rewrite C1. repeat split; assumption.
  - intros Hg. unfold apply_gravity. rewrite Hg. reflexivity.
Qed.

(** An airborne fighter whose vertical speed is NaN falls at 18 after the
    gravity step. *)
Lemma fall_speed_capped_witness :
  snd (velocity (apply_gravity
         (set_velocity (set_on_ground (new_fighter 200 1 Name_p1) false)
            (F64.zero, S754_nan))))
  = F64.of_Z 18
  /\ F64.is_finite (snd (velocity (apply_gravity
         (set_velocity (set_on_ground (new_fighter 200 1 Name_p1) false)
            (F64.zero, S754_nan))))) = true.
Proof.
  split; [vm_compute; reflexivity|].
  exact (proj1 (proj1 (fall_speed_capped
           (set_velocity (set_on_ground (new_fighter 200 1 Name_p1) false)
              (F64.zero, S754_nan))) eq_refl)).
Defined.

(** *** Trades *)

Lemma receive_hit_grounded (f f' : Fighter) (dmg direction : Z) :
  on_ground f = true ->
  receive_hit f dmg direction (blocking f) = Some f' ->
  rect f'
  = RectOps.set_x (rect f)
      (rx (rect f)
       + (if blocking f then BLOCK_PUSHBACK else PUSHBACK) * direction)
  /\ facing f' = facing f /\ w f' = w f /\ h f' = h f
  /\ attack_type f' = attack_type f /\ attack_timer f' = attack_timer f
  /\ hit_this_attack f' = hit_this_attack f.
Proof.
  unfold receive_hit. intros Hg H. rewrite andb_diag in H.
  destruct (blocking f).
  - destruct (chip_floor dmg) as [q|]; [|discriminate]. cbn [bind] in H.
    fields. rewrite Hg in H. injection H as <-. fields. repeat split.
  - cbn [bind] in H. fields. rewrite Hg in H. injection H as <-. fields.
    repeat split.
Qed.

(** X14: [handle_hits] resolves player 1's attack first and checks player
    2's attack afterwards, on the positions the knockback of the first hit
    has left.  When player 1's hit lands on a grounded player 2 whose own
    attack is in its active window, player 2 is first moved by the knockback
    (7, or 4 when blocking) in player 1's facing direction, and its attack
    lands only if the distance condition holds for the moved position;
    otherwise player 1 takes nothing. *)
Theorem trade_checked_after_knockback :
  forall (g g' : Game) (k : AttackKind),
    standard_size (p1 g) -> standard_size (p2 g) ->
    ry (rect (p1 g)) = ry (rect (p2 g)) ->
    on_ground (p2 g) = true ->
    facing (p1 g) = 1 \/ facing (p1 g) = -1 ->
    facing (p2 g) = 1 \/ facing (p2 g) = -1 ->
    hit_lands (p1 g) (p2 g) = true ->
    attack_type (p2 g) = Some k ->
    in_active_window k (attack_timer (p2 g)) ->
    hit_this_attack (p2 g) = false ->
    handle_hits g = Some g' ->
    rx (rect (p2 g'))
    = rx (rect (p2 g))
      + (if blocking (p2 g) then BLOCK_PUSHBACK else PUSHBACK)
        * facing (p1 g)
    /\ (hit_this_attack (p2 g') = true <->
        -4 < facing (p2 g) * (rx (rect (p1 g)) - rx (rect (p2 g')))
           < 52 + fst (attack_range k))
    /\ (hit_this_attack (p2 g') = false ->
        hp (p1 g') = hp (p1 g) /\ rect (p1 g') = rect (p1 g)).
Proof.
  intros g g' k S1 S2 Hy Hg F1 F2 Hl Hk Hwin Hflag H.
  unfold handle_hits in H. unfold resolve_hit at 1 in H. rewrite Hl in H.
  destruct (receive_hit (p2 g) _ _ _) as [d|] eqn:Er; [|discriminate].
  cbn [bind] in H. fields.
  set (a := set_hitstop (set_hit_this_attack (p1 g) true) HITSTOP) in *.
  destruct (receive_hit_grounded _ _ _ _ Hg Er)
    as (Dr & Df & Dw & Dh & Dt & Dtm & Dfl).
  assert (Hs : sign (facing (p1 g)) = facing (p1 g))
    by (destruct F1 as [-> | ->]; reflexivity).
  rewrite Hs in Dr.
  assert (Sd : standard_size d).
  { destruct S2 as (A1 & A2 & A3 & A4). unfold standard_size.
    rewrite Dw, Dh, Dr. rect_ops. tauto. }
  assert (Sa : standard_size a) by exact S1.
  assert (Hy' : ry (rect d) = ry (rect a)).
  { rewrite Dr. rect_ops. symmetry. exact Hy. }
  assert (Fd : facing d = 1 \/ facing d = -1) by (rewrite Df; exact F2).
  pose proof (hit_lands_standard d a Sd Sa Hy' Fd) as Hiff.
  assert (Hx : rx (rect d)
               = rx (rect (p2 g))
                 + (if blocking (p2 g) then BLOCK_PUSHBACK else PUSHBACK)
                   * facing (p1 g))
    by (rewrite Dr; rect_ops; reflexivity).
  assert (Hcond : hit_lands d a = true <->
                  -4 < facing (p2 g) * (rx (rect (p1 g)) - rx (rect d))
                     < 52 + fst (attack_range k)).
  { rewrite Hiff. rewrite Df. split.
    - intros (k' & Hk' & _ & _ & Hd).
      assert (k' = k) by congruence. subst k'. exact Hd.
    - intros Hd. exists k. rewrite Dt, Dtm, Dfl. tauto. }
  unfold resolve_hit in H.
  destruct (hit_lands d a) eqn:El.
  - destruct (receive_hit a _ _ _) as [d2|]; [|discriminate].
    cbn [bind] in H. injection H as <-. fields.
    split; [exact Hx|]. split.
    + split; [intros _; apply Hcond; reflexivity|reflexivity].
    + discriminate.
  - cbn [bind] in H. injection H as <-. fields.
    split; [exact Hx|]. split.
    + rewrite Dfl, Hflag. split; [discriminate|].
      intros Hd. apply Hcond in Hd. discriminate.
    + intros _. split; reflexivity.
Qed.

(** Both fighters punch on the same tick, 92 apart: either punch reaches the
    other, but only player 1's is resolved; it knocks player 2 out of its
    own range. *)
Lemma trade_checked_after_knockback_witness :
  exists g',
    handle_hits trade_at_92 = Some g'
    /\ hit_lands (p2 trade_at_92) (p1 trade_at_92) = true
    /\ hit_this_attack (p2 g') = false
    /\ hp (p2 g') = 92 /\ hp (p1 g') = 100 /\ rx (rect (p2 g')) = 499.
Proof.
  assert (E : exists g',
    handle_hits trade_at_92 = Some g'
    /\ hit_this_attack (p2 g') = false /\ hp (p2 g') = 92)
    by (eexists; split; [vm_compute; reflexivity|split; reflexivity]).
  destruct E as (g' & E & Hf & Hp). exists g'.
  destruct (trade_checked_after_knockback trade_at_92 g' punch)
    as (Hx & _ & Hkeep);
    [repeat split|repeat split|reflexivity|reflexivity|left; reflexivity
    |right; reflexivity|reflexivity|reflexivity|cbn; lia|reflexivity
    |exact E|].
  split; [exact E|]. split; [reflexivity|]. split; [exact Hf|].
  split; [exact Hp|]. split; [exact (proj1 (Hkeep Hf))|exact Hx].
Defined.

(** *** Keys without effect *)

Lemma face_opponent_ground (f opp : Fighter) :
  on_ground (face_opponent f opp) = on_ground f
  /\ name (face_opponent f opp) = name f.
Proof. unfold face_opponent. break_if; split; reflexivity. Qed.

Lemma basic_movement_name (keys : Keys) (f : Fighter) :
  name (basic_movement keys f) = name f.
Proof. apply (basic_movement_frame keys f). Qed.

Lemma basic_movement_airborne (keys keys' : Keys) (f : Fighter) :
  on_ground f = false ->
  pressed keys (name f) b_left = pressed keys' (name f) b_left ->
  pressed keys (name f) b_right = pressed keys' (name f) b_right ->
  basic_movement keys f = basic_movement keys' f.
Proof.
  intros Hg Hl Hr. unfold basic_movement. fields.
  rewrite Hg, Hl, Hr, !andb_false_r. cbn [andb negb].
  destruct (pressed keys' (name f) b_left),
    (pressed keys' (name f) b_right), (F64.ltb _ _);
    cbn [andb negb]; fields; rewrite Hg, !andb_false_r; reflexivity.
Qed.

Lemma basic_movement_blocking (keys keys' : Keys) (f : Fighter) :
  on_ground f = true ->
  block_down keys (name f) = true -> block_down keys' (name f) = true ->
  basic_movement keys f = basic_movement keys' f.
Proof.
  intros Hg Hb Hb'. unfold basic_movement. fields.
  rewrite Hg, Hb, Hb', !andb_false_r. cbn [andb negb]. reflexivity.
Qed.

Lemma update_congr (keys keys' : Keys) (f opp : Fighter) (b : Rect) :
  basic_movement keys (face_opponent f opp)
  = basic_movement keys' (face_opponent f opp) ->
  punch_pressed keys (name f) = punch_pressed keys' (name f) ->
  kick_pressed keys (name f) = kick_pressed keys' (name f) ->
  update keys f opp b = update keys' f opp b.
Proof.
  intros Hm Hp Hk. unfold update. rewrite Hm. unfold attacks.
  rewrite !basic_movement_name, (proj2 (face_opponent_ground f opp)).
  rewrite Hp, Hk. reflexivity.
Qed.

(** X15: keys that have no effect.  For an airborne fighter [update] reads
    only left, right, punch and kick: up, down and block change nothing (no
    second jump, no block or crouch in the air).  For a grounded fighter
    holding block it reads only punch and kick: left, right, up and down
    change nothing (no walking, jumping or crouching while blocking). *)
Theorem keys_without_effect :
  forall (keys keys' : Keys) (f opp : Fighter) (b : Rect),
    punch_pressed keys (name f) = punch_pressed keys' (name f) ->
    kick_pressed keys (name f) = kick_pressed keys' (name f) ->
    (on_ground f = false
     /\ pressed keys (name f) b_left = pressed keys' (name f) b_left
     /\ pressed keys (name f) b_right = pressed keys' (name f) b_right)
    \/ (on_ground f = true
        /\ block_down keys (name f) = true
        /\ block_down keys' (name f) = true) ->
    update keys f opp b = update keys' f opp b.
Proof.
  intros keys keys' f opp b Hp Hk H.
  destruct (face_opponent_ground f opp) as [Eg En].
  apply update_congr; try assumption.
  destruct H as [(Hg & Hl & Hr)|(Hg & Hb & Hb')].
  - apply basic_movement_airborne; rewrite ?Eg, ?En; assumption.
  - apply basic_movement_blocking; rewrite ?Eg, ?En; assumption.
Qed.

(** Player 1, blocking on the ground: holding right and up as well gives the
    same update as holding block alone. *)
Lemma keys_without_effect_witness :
  update (hold [K_l; K_d; K_w]) (new_fighter 200 1 Name_p1)
    (new_fighter 740 (-1) Name_p2) (mkRect 40 0 920 560)
  = update (hold [K_l]) (new_fighter 200 1 Name_p1)
      (new_fighter 740 (-1) Name_p2) (mkRect 40 0 920 560).
Proof.
  apply (keys_without_effect (hold [K_l; K_d; K_w]) (hold [K_l])
           (new_fighter 200 1 Name_p1) (new_fighter 740 (-1) Name_p2)
           (mkRect 40 0 920 560)).
  - reflexivity.
  - reflexivity.
  - right. split; [reflexivity|]. split; reflexivity.
Defined.

(** ** Properties of the display *)

(** *** Health bars *)

Lemma draw_health_bar_range (x y : Z) (align_right : bool) (hp : Z) :
  0 <= hp <= 100 ->
  exists filled,
    draw_health_bar x y 360 18 hp 100 align_right
    = Some (if align_right then mkRect (x + (360 - filled)) y filled 18
            else mkRect x y filled 18)
    /\ 360 * hp / 100 - 1 <= filled <= 360 * hp / 100
    /\ (filled = 0 <-> hp = 0)
    /\ (filled = 360 <-> hp = 100).
Proof.
  intros Hhp.
  set (ok := fun v : Z =>
         match draw_health_bar 0 0 360 18 v 100 false with
         | Some r =>
             (360 * v / 100 - 1 <=? rw r) && (rw r <=? 360 * v / 100)
             && (Bool.eqb (rw r =? 0) (v =? 0))
             && (Bool.eqb (rw r =? 360) (v =? 100))
         | None => false
         end).
  assert (Hall : forallb ok (map Z.of_nat (seq 0 101)) = true)
    by (vm_compute; reflexivity).
  assert (Hin : In hp (map Z.of_nat (seq 0 101))).
  { apply in_map_iff. exists (Z.to_nat hp). split; [lia|].
    apply in_seq. lia. }
  pose proof (proj1 (forallb_forall ok _) Hall hp Hin) as Hok.
  unfold ok in Hok. clear Hall Hin ok.
  unfold draw_health_bar in *.
  destruct (true_div hp 100) as [ratio|]; cbn [bind] in *;
    [|discriminate].
  destruct (mul_num 360 (clamp_num ratio 0 1)) as [p|]; cbn [bind] in *;
    [|discriminate].
  destruct (int_num p) as [filled|]; cbn [bind] in *; [|discriminate].
  cbn [rw] in Hok. exists filled. split; [reflexivity|].
  apply andb_true_iff in Hok. destruct Hok as [Hok H4].
  apply andb_true_iff in Hok. destruct Hok as [Hok H3].
  apply andb_true_iff in Hok. destruct Hok as [H1 H2].
  apply Z.leb_le in H1, H2. apply Bool.eqb_prop in H3, H4.
  split; [lia|]. split.
  - rewrite <- (Z.eqb_eq filled 0), <- (Z.eqb_eq hp 0), H3. tauto.
  - rewrite <- (Z.eqb_eq filled 360), <- (Z.eqb_eq hp 100), H4. tauto.
Qed.

(** X16: in every game [Game.run] goes through, [render] draws both health
    bars: player 1's grows from x = 40, player 2's ends at x = 960; the fill
    is 3.6 times the health rounded down, or one pixel less (the float
    product [360 * (hp / 100)] can fall just below an integer); a bar is
    empty only at health 0 and full (360) only at health 100. *)
Theorem health_bars_show_health :
  forall g : Game,
    reachable g ->
    exists r1 r2,
      render_health_bars g = (Some r1, Some r2)
      /\ bar_shows 40 r1 (hp (p1 g))
      /\ bar_shows (960 - rw r2) r2 (hp (p2 g)).
Proof.
  intros g Hr.
  destruct (reachable_inv g Hr)
    as ((_ & _ & _ & _ & M1 & H1) & (_ & _ & _ & _ & M2 & H2) & _).
  unfold render_health_bars. rewrite M1, M2.
  destruct (draw_health_bar_range 40 20 false (hp (p1 g)) H1)
    as (n1 & E1 & B1 & Z1 & F1).
  destruct (draw_health_bar_range (WIDTH - 400) 20 true (hp (p2 g)) H2)
    as (n2 & E2 & B2 & Z2 & F2).
  rewrite E1, E2. eexists. eexists. split; [reflexivity|].
  unfold bar_shows. cbn [rx ry rw rh]. unfold WIDTH.
  split.
  - split; [reflexivity|]. split; [reflexivity|]. split; [reflexivity|].
    split; [exact B1|]. split; assumption.
  - split; [lia|]. split; [reflexivity|]. split; [reflexivity|].
    split; [exact B2|]. split; assumption.
Qed.

(** Player 1 has landed one punch: player 2, at health 92, has a bar of 331
    pixels that starts at x = 629. *)
Lemma health_bars_show_health_witness :
  exists g r1 r2,
    run_ticks walk_and_punch new_game = Some g
    /\ render_health_bars g = (Some r1, Some r2)
    /\ bar_shows 40 r1 (hp (p1 g))
    /\ bar_shows (960 - rw r2) r2 (hp (p2 g))
    /\ hp (p2 g) = 92 /\ r2 = mkRect 629 20 331 18.
Proof.
  assert (E : exists g,
    run_ticks walk_and_punch new_game = Some g
    /\ hp (p2 g) = 92
    /\ snd (render_health_bars g) = Some (mkRect 629 20 331 18))
    by (eexists; split; [vm_compute; reflexivity|split; reflexivity]).
  destruct E as (g & E & Hp & Hb).
  destruct (health_bars_show_health g
              (reachable_run_ticks walk_and_punch new_game g
                 reach_new eq_refl E))
    as (r1 & r2 & Er & B1 & B2).
  exists g, r1, r2.
  split; [exact E|]. split; [exact Er|]. split; [exact B1|].
  split; [exact B2|]. split; [exact Hp|].
  rewrite Er in Hb. cbn [snd] in Hb. congruence.
Defined.

(** *** Standing on the ground line *)

Ltac solve_vertical :=
  unfold vertical; repeat break_if; rect_ops; repeat split;
  first [reflexivity | congruence].

Lemma face_opponent_vertical (f opp : Fighter) :
  vertical (face_opponent f opp) = vertical f
  /\ (facing f = 1 \/ facing f = -1 ->
      facing (face_opponent f opp) = 1 \/ facing (face_opponent f opp) = -1).
Proof.
  unfold face_opponent, vertical.
  repeat break_if; fields; split; try reflexivity; intros; auto.
Qed.

Lemma basic_movement_vertical (keys : Keys) (f : Fighter) :
  facing (basic_movement keys f) = facing f
  /\ rect (basic_movement keys f) = rect f
  /\ (on_ground (basic_movement keys f) = true ->
      on_ground f = true
      /\ snd (velocity (basic_movement keys f)) = snd (velocity f)).
Proof.
  unfold basic_movement. fields.
  destruct (on_ground f) eqn:Hg;
    repeat (break_if; fields); repeat split; try reflexivity;
    try discriminate; try congruence.
Qed.

Lemma attacks_vertical (keys : Keys) (f : Fighter) :
  vertical (attacks keys f) = vertical f
  /\ facing (attacks keys f) = facing f.
Proof. unfold attacks, start_attack. solve_vertical. Qed.

Lemma advance_attack_timer_vertical (f : Fighter) :
  vertical (advance_attack_timer f) = vertical f
  /\ facing (advance_attack_timer f) = facing f.
Proof. unfold advance_attack_timer. cbn. solve_vertical. Qed.

Lemma apply_gravity_grounded (f : Fighter) :
  facing (apply_gravity f) = facing f
  /\ rect (apply_gravity f) = rect f
  /\ on_ground (apply_gravity f) = on_ground f
  /\ (on_ground f = true -> velocity (apply_gravity f) = velocity f).
Proof.
  unfold apply_gravity. destruct (on_ground f) eqn:Hg; cbn [negb]; fields;
    repeat split; intros; try reflexivity; try assumption; discriminate.
Qed.

Lemma move_and_collide_grounded (f f' : Fighter) (b : Rect) :
  rh (rect f) = 98 ->
  (on_ground f = true ->
   RectOps.bottom (rect f) = GROUND_Y /\ snd (velocity f) = F64.of_Z 0) ->
  move_and_collide f b = Some f' ->
  facing f' = facing f
  /\ (on_ground f' = true ->
      RectOps.bottom (rect f') = GROUND_Y
      /\ snd (velocity f') = F64.of_Z 0).
Proof.
  intros Hh Hinv H. unfold move_and_collide in H.
  destruct (F64.to_int _) as [x|]; [|discriminate]. cbn [bind] in H.
  match type of H with
  | context [F64.to_int ?e] => destruct (F64.to_int e) as [y|] eqn:Ey
  end; [|discriminate].
  cbn [bind] in H. injection H as <-.
  assert (Hy : on_ground f = true -> y = GROUND_Y - 98).
  { intros Hg. destruct (Hinv Hg) as [Hb Hv].
    assert (Hry : ry (rect f) = GROUND_Y - 98)
      by (unfold RectOps.bottom in Hb; lia).
    revert Ey. repeat break_if; rect_ops; rewrite Hry, Hv;
      intros Ey; vm_compute in Ey;
      injection Ey as <-; reflexivity. }
  rect_ops. repeat (break_if; rect_ops); prop_tests;
    (split; [reflexivity|]); intros Hg; try (split; [lia|reflexivity]);
    specialize (Hy Hg); unfold GROUND_Y, HEIGHT in *; lia.
Qed.

Lemma push_apart_vertical (f opp : Fighter) :
  vertical (fst (push_apart f opp)) = vertical f
  /\ facing (fst (push_apart f opp)) = facing f
  /\ vertical (snd (push_apart f opp)) = vertical opp
  /\ facing (snd (push_apart f opp)) = facing opp.
Proof. unfold push_apart. solve_vertical. Qed.

Lemma grounded_level_vertical (f f' : Fighter) :
  vertical f' = vertical f -> facing f' = facing f ->
  grounded_level f -> grounded_level f'.
Proof.
  unfold vertical, grounded_level, RectOps.bottom.
  intros Hv Hf (F & G). injection Hv as -> -> -> ->. rewrite Hf.
  split; assumption.
Qed.

Lemma update_grounded (keys : Keys) (f opp f' o' : Fighter) (b : Rect) :
  rh (rect f) = 98 ->
  grounded_level f ->
  update keys f opp b = Some (f', o') ->
  grounded_level f' /\ (grounded_level opp -> grounded_level o').
Proof.
  intros Hh (Hf & Hg) H. unfold update in H.
  destruct (hitstop f >? 0).
  - injection H as <- <-. split; [|tauto]. split; assumption.
  - destruct (move_and_collide _ b) as [fm|] eqn:Em; [|discriminate].
    cbn [bind] in H.
    rewrite (surjective_pairing (push_apart fm opp)) in H.
    injection H as <- <-.
    destruct (push_apart_vertical fm opp) as (P1 & P2 & P3 & P4).
    split; [|intros Ho; exact (grounded_level_vertical _ _ P3 P4 Ho)].
    apply (grounded_level_vertical _ _ P1 P2).
    set (f1 := face_opponent f opp) in *.
    set (f2 := basic_movement keys f1) in *.
    set (f3 := attacks keys f2) in *.
    set (f4 := advance_attack_timer f3) in *.
    destruct (face_opponent_vertical f opp) as (V1 & F1). fold f1 in V1, F1.
    destruct (basic_movement_vertical keys f1) as (F2 & R2 & G2).
    fold f2 in F2, R2, G2.
    destruct (attacks_vertical keys f2) as (V3 & F3). fold f3 in V3, F3.
    destruct (advance_attack_timer_vertical f3) as (V4 & F4).
    fold f4 in V4, F4.
    destruct (apply_gravity_grounded f4) as (F5 & R5 & G5 & W5).
    unfold vertical in V1, V3, V4.
    injection V1 as A1 B1 C1 D1. injection V3 as A3 B3 C3 D3.
    injection V4 as A4 B4 C4 D4.
    assert (Hh5 : rh (rect (apply_gravity f4)) = 98)
      by (rewrite R5, B4, B3, R2, B1; exact Hh).
    assert (Hinv5 : on_ground (apply_gravity f4) = true ->
                    RectOps.bottom (rect (apply_gravity f4)) = GROUND_Y
                    /\ snd (velocity (apply_gravity f4)) = F64.of_Z 0).
    { rewrite G5. intros Hg4. rewrite (W5 Hg4), R5.
      unfold RectOps.bottom. rewrite A4, B4, C4, A3, B3, C3, R2.
      rewrite D4, D3 in Hg4. destruct (G2 Hg4) as (Hg1 & Hv2).
      rewrite Hv2, A1, B1, C1. rewrite D1 in Hg1. exact (Hg Hg1). }
    destruct (move_and_collide_grounded _ _ _ Hh5 Hinv5 Em) as (Fm & Gm).
    split; [|exact Gm].
    rewrite Fm, F5, F4, F3, F2. exact (F1 Hf).
Qed.

Lemma receive_hit_vertical (f f' : Fighter) (dmg direction : Z) (blocked : bool) :
  receive_hit f dmg direction blocked = Some f' ->
  vertical f' = vertical f /\ facing f' = facing f.
Proof.
  unfold receive_hit. intros H.
  destruct (blocking f && blocked).
  - destruct (chip_floor dmg) as [q|]; [|discriminate]. cbn [bind] in H.
    injection H as <-. solve_vertical.
  - cbn [bind] in H. injection H as <-. solve_vertical.
Qed.

Lemma resolve_hit_grounded (atk dfd a d : Fighter) :
  resolve_hit atk dfd = Some (a, d) ->
  grounded_level atk -> grounded_level dfd ->
  grounded_level a /\ grounded_level d.
Proof.
  unfold resolve_hit. intros H Ha Hd.
  destruct (hit_lands atk dfd).
  - destruct (receive_hit dfd _ _ _) as [d'|] eqn:E; [|discriminate].
    cbn [bind] in H. injection H as <- <-.
    destruct (receive_hit_vertical _ _ _ _ _ E) as (V & F).
    split; [exact Ha|exact (grounded_level_vertical _ _ V F Hd)].
  - injection H as <- <-. split; assumption.
Qed.

Lemma round_over_grounded (g : Game) (wn : option PlayerName) :
  fighter_inv (p1 g) -> fighter_inv (p2 g) ->
  grounded_level (p1 g) -> grounded_level (p2 g) ->
  grounded_level (p1 (round_over g wn))
  /\ grounded_level (p2 (round_over g wn)).
Proof.
  intros (_ & H1 & _ & R1 & _) (_ & H2 & _ & R2 & _) (F1 & G1) (F2 & G2).
  unfold grounded_level in *. unfold round_over.
  destruct wn as [[|]|]; break_if; rect_ops;
    (split; (split; [assumption|])); try assumption;
    intros _; (split; [lia|reflexivity]).
Qed.

Lemma update_fighters_grounded (keys : Keys) (g g0 : Game) :
  game_inv g -> grounded_level (p1 g) -> grounded_level (p2 g) ->
  update_fighters keys g = Some g0 ->
  grounded_level (p1 g0) /\ grounded_level (p2 g0).
Proof.
  intros (J1 & J2 & _) L1 L2 E0. unfold update_fighters in E0.
  destruct (update keys (p1 g) (p2 g) (bounds g)) as [[a b]|] eqn:U1;
    [|discriminate].
  cbn [bind] in E0. fields.
  destruct (update keys b a (bounds g)) as [[b' a']|] eqn:U2;
    [|discriminate].
  cbn [bind] in E0. injection E0 as <-. fields.
  destruct J1 as (_ & _ & _ & Rh1 & _). destruct J2 as (_ & _ & _ & Rh2 & _).
  destruct (update_grounded _ _ _ _ _ _ Rh1 L1 U1) as [A1 A2].
  assert (Rb : rh (rect b) = 98).
  { destruct (update_frame _ _ _ _ _ _ U1) as (_ & Sb & _).
    destruct Sb as (_ & _ & _ & Sb & _). rewrite Sb. exact Rh2. }
  destruct (update_grounded _ _ _ _ _ _ Rb (A2 L2) U2) as [B1 B2].
  split; [exact (B2 A1)|exact B1].
Qed.

Lemma game_update_grounded (keys : Keys) (dt : F64.float) (g g' : Game) :
  game_inv g -> grounded_level (p1 g) -> grounded_level (p2 g) ->
  game_update keys dt g = Some g' ->
  grounded_level (p1 g') /\ grounded_level (p2 g').
Proof.
  intros Hinv L1 L2 H. unfold game_update in H.
  destruct (in_combat g) eqn:Hc.
  - destruct (update_fighters keys g) as [g0|] eqn:E0; [|discriminate].
    cbn [bind] in H.
    destruct (handle_hits g0) as [g1|] eqn:E1; [|discriminate].
    cbn [bind] in H. injection H as <-.
    assert (Ea : after_hits keys g = Some g1)
      by (unfold after_hits; rewrite E0; exact E1).
    destruct (after_hits_inv keys g g1 Hinv Hc Ea) as (I1 & I2 & _).
    pose proof (update_fighters_grounded keys g g0 Hinv L1 L2 E0) as G0.
    assert (G1 : grounded_level (p1 g1) /\ grounded_level (p2 g1)).
    { destruct G0 as (K1 & K2). unfold handle_hits in E1.
      destruct (resolve_hit (p1 g0) (p2 g0)) as [[a d]|] eqn:R1;
        [|discriminate].
      cbn [bind] in E1. fields.
      destruct (resolve_hit d a) as [[a' d']|] eqn:R2; [|discriminate].
      cbn [bind] in E1. injection E1 as <-. fields.
      destruct (resolve_hit_grounded _ _ _ _ R1 K1 K2) as [A1 A2].
      destruct (resolve_hit_grounded _ _ _ _ R2 A2 A1) as [B1 B2].
      split; assumption. }
    assert (Hro : forall g3 wn,
              fighter_inv (p1 g3) -> fighter_inv (p2 g3) ->
              grounded_level (p1 g3) /\ grounded_level (p2 g3) ->
              (grounded_level (p1 (round_over g3 wn))
               /\ grounded_level (p2 (round_over g3 wn)))
              /\ fighter_inv (p1 (round_over g3 wn))
              /\ fighter_inv (p2 (round_over g3 wn))).
    { intros g3 wn A B (C1 & C2).
      split; [apply round_over_grounded; assumption|].
      split; apply (round_over_inv g3 wn A B). }
    assert (G2 : (grounded_level (p1 (timer_check dt g1))
                  /\ grounded_level (p2 (timer_check dt g1)))
                 /\ fighter_inv (p1 (timer_check dt g1))
                 /\ fighter_inv (p2 (timer_check dt g1))).
    { unfold timer_check.
      repeat break_if;
        try (apply (Hro (set_round_time g1 _)); [exact I1|exact I2|exact G1]).
      split; [exact G1|split; assumption]. }
    destruct G2 as (G2 & K1 & K2).
    unfold ko_check. repeat break_if;
      try (apply Hro; assumption). exact G2.
  - injection H as <-.
    destruct (freeze_timer g >? 0); fields; split; assumption.
Qed.

Lemma reachable_grounded (g : Game) :
  reachable g -> grounded_level (p1 g) /\ grounded_level (p2 g).
Proof.
  induction 1 as [|g g' keys dt Hr IH _ H|g _ IH|g _ IH].
  - unfold grounded_level. cbn. repeat split; auto.
  - destruct IH as (I1 & I2).
    exact (game_update_grounded keys dt g g' (reachable_inv g Hr) I1 I2 H).
  - exact IH.
  - unfold grounded_level. cbn. repeat split; auto.
Qed.

(** X17: in every game the program goes through, each fighter faces left
    or right ([facing] is 1 or -1), and a fighter whose [on_ground] flag is
    set stands exactly on the ground line with vertical speed 0: only a
    jump takes a fighter off the ground, and pushes, hits and round resets
    never lift it. *)
Theorem grounded_means_on_ground_line :
  forall g : Game,
    reachable g -> grounded_level (p1 g) /\ grounded_level (p2 g).
Proof. exact reachable_grounded. Qed.

(** Player 1 at the top of its forward jump: it is off the ground, player 2
    stands on the ground line. *)
Lemma grounded_means_on_ground_line_witness :
  exists g,
    run_ticks jump_onto_opponent new_game = Some g
    /\ on_ground (p1 g) = false /\ on_ground (p2 g) = true
    /\ grounded_level (p1 g) /\ grounded_level (p2 g).
Proof.
  assert (E : exists g,
    run_ticks jump_onto_opponent new_game = Some g
    /\ on_ground (p1 g) = false /\ on_ground (p2 g) = true).
  { eexists. split; [vm_compute; reflexivity|split; reflexivity]. }
  destruct E as (g & E & H1 & H2). exists g.
  split; [exact E|]. split; [exact H1|]. split; [exact H2|].
  apply grounded_means_on_ground_line.
  exact (reachable_run_ticks _ _ _ reach_new eq_refl E).
Defined.

(** *** Hits in play *)

Lemma fighter_inv_standard (f : Fighter) : fighter_inv f -> standard_size f.
Proof. unfold fighter_inv, standard_size. tauto. Qed.

Lemma resolve_hit_vertical (atk dfd a d : Fighter) :
  resolve_hit atk dfd = Some (a, d) ->
  vertical a = vertical atk /\ vertical d = vertical dfd
  /\ rx (rect a) = rx (rect atk).
Proof.
  unfold resolve_hit. intros H.
  destruct (hit_lands atk dfd).
  - destruct (receive_hit dfd _ _ _) as [d'|] eqn:E; [|discriminate].
    cbn [bind] in H. injection H as <- <-.
    destruct (receive_hit_vertical _ _ _ _ _ E) as (V & _).
    split; [reflexivity|]. split; [exact V|reflexivity].
  - injection H as <- <-. repeat split.
Qed.

(** X18: the two hit tests of a tick of play, each on the fighters it is
    made on.  After the two [update] calls of a tick of a game the program
    goes through, [handle_hits] tests player 1's attack on the fighters as
    they are, and player 2's attack on the fighters as the resolution of
    player 1's attack leaves them (player 2 knocked back when that hit
    landed).  Between two fighters on the ground each test succeeds exactly
    when the attack is in its active window, has not hit yet, and the
    defender's left edge is more than -4 and less than 52 plus the attack's
    reach ahead of the attacker's; height plays no part, so crouching never
    avoids a punch or a kick. *)
Theorem hit_test_in_play :
  forall (keys : Keys) (g g0 : Game) (a d : Fighter),
    reachable g ->
    update_fighters keys g = Some g0 ->
    resolve_hit (p1 g0) (p2 g0) = Some (a, d) ->
    on_ground (p1 g0) = true -> on_ground (p2 g0) = true ->
    (hit_lands (p1 g0) (p2 g0) = true <-> connects (p1 g0) (p2 g0))
    /\ (hit_lands d a = true <-> connects d a).
Proof.
  intros keys g g0 a d Hr E0 Er G1 G2.
  pose proof (reachable_inv g Hr) as Hinv.
  destruct (reachable_grounded g Hr) as (L1 & L2).
  destruct (update_fighters_grounded keys g g0 Hinv L1 L2 E0)
    as ((F1 & B1) & (F2 & B2)).
  destruct (update_fighters_frame _ _ _ E0) as (_ & S1 & S2 & P1 & P2 & _).
  destruct Hinv as (I1 & I2 & _).
  unfold score in P1, P2. injection P1 as Hp1 _. injection P2 as Hp2 _.
  assert (J1 : fighter_inv (p1 g0)).
  { apply (fighter_inv_same (p1 g)); [exact S1| |exact I1].
    rewrite Hp1. apply I1. }
  assert (J2 : fighter_inv (p2 g0)).
  { apply (fighter_inv_same (p2 g)); [exact S2| |exact I2].
    rewrite Hp2. apply I2. }
  assert (Hy : ry (rect (p1 g0)) = ry (rect (p2 g0))).
  { destruct (B1 G1) as (Y1 & _). destruct (B2 G2) as (Y2 & _).
    destruct J1 as (_ & _ & _ & R1 & _). destruct J2 as (_ & _ & _ & R2 & _).
    unfold RectOps.bottom in Y1, Y2. lia. }
  pose proof (fighter_inv_standard _ J1) as T1.
  pose proof (fighter_inv_standard _ J2) as T2.
  split.
  - exact (hit_lands_standard _ _ T1 T2 Hy F1).
  - destruct (resolve_hit_frame _ _ _ _ Er) as (Ba & Bd & _).
    destruct (resolve_hit_grounded _ _ _ _ Er (conj F1 B1) (conj F2 B2))
      as ((Fa & _) & (Fd & _)).
    destruct (resolve_hit_vertical _ _ _ _ Er) as (Va & Vd & _).
    unfold vertical in Va, Vd.
    injection Va as Ya _ _ _. injection Vd as Yd _ _ _.
    assert (Ta : standard_size a).
    { destruct T1 as (A1 & A2 & A3 & A4).
      destruct Ba as (C1 & C2 & C3 & C4 & _).
      unfold standard_size. rewrite C1, C2, C3, C4. tauto. }
    assert (Td : standard_size d).
    { destruct T2 as (A1 & A2 & A3 & A4).
      destruct Bd as (C1 & C2 & C3 & C4 & _).
      unfold standard_size. rewrite C1, C2, C3, C4. tauto. }
    apply (hit_lands_standard d a Td Ta); [|exact Fd].
    rewrite Ya, Yd. symmetry. exact Hy.
Qed.

(** Player 1 has walked up to player 2 and started a punch; on the tick the
    punch becomes active, player 2 crouches: the punch lands. *)
Lemma hit_test_in_play_witness :
  exists g g0 a d,
    run_ticks walk_and_start_punch new_game = Some g
    /\ update_fighters (hold [K_DOWN]) g = Some g0
    /\ resolve_hit (p1 g0) (p2 g0) = Some (a, d)
    /\ crouching (p2 g0) = true
    /\ hit_lands (p1 g0) (p2 g0) = true.
Proof.
  assert (E : exists g g0 a d,
    run_ticks walk_and_start_punch new_game = Some g
    /\ update_fighters (hold [K_DOWN]) g = Some g0
    /\ resolve_hit (p1 g0) (p2 g0) = Some (a, d)
    /\ crouching (p2 g0) = true
    /\ on_ground (p1 g0) = true /\ on_ground (p2 g0) = true
    /\ attack_type (p1 g0) = Some punch /\ attack_timer (p1 g0) = 4
    /\ hit_this_attack (p1 g0) = false
    /\ facing (p1 g0) = 1
    /\ rx (rect (p2 g0)) - rx (rect (p1 g0)) = 57).
  { eexists. eexists. eexists. eexists.
    split; [vm_compute; reflexivity|].
    split; [vm_compute; reflexivity|].
    split; [vm_compute; reflexivity|]. repeat split. }
  destruct E
    as (g & g0 & a & d & E & E0 & Er & Hc & G1 & G2 & Hk & Ht & Hf & Hd & Hx).
  exists g, g0, a, d.
  split; [exact E|]. split; [exact E0|]. split; [exact Er|].
  split; [exact Hc|].
  apply (proj1 (hit_test_in_play (hold [K_DOWN]) g g0 a d
                  (reachable_run_ticks _ _ _ reach_new eq_refl E) E0 Er
                  G1 G2)).
  exists punch. split; [exact Hk|]. split; [rewrite Ht; cbn; lia|].
  split; [exact Hf|]. rewrite Hd, Hx. cbn. lia.
Defined.
